(** * Course catalog extraction pipeline: shallow embedding and properties

    The development embeds three programs of the repository:

    - [Honolulu]: [Honolulu Community College/pdf_extractor.py], the
      page-by-page extractor driven by a text-generation service, with
      retries, a repair pass, overlap context, key de-duplication and a
      checkpoint written after every page;
    - [Kauai]: [Kauai Community College/web_scraper.py], the sequential
      department crawler with a visited set and a seen-key set;
    - [Manoa]: [University of Hawaii at Manoa/manoa_scraper.py], the
      crawler that processes every catalog page with a thread pool.

    External collaborators (the generation service, [json.loads], the PDF
    reader, the browser sessions, the clock, the file system) are oracles:
    Section variables that the theorems quantify over. *)

From Stdlib Require Import ZArith Lia.
From stdpp Require Import base strings gmap list pretty.

Set Warnings "-clear-no-such-hyp".


(** ** Python values and exceptions *)

Module Py.

(** A decimal digit and its character. *)
Inductive digit := D0 | D1 | D2 | D3 | D4 | D5 | D6 | D7 | D8 | D9.

#[global] Instance digit_eq_dec : EqDecision digit.
Proof. solve_decision. Defined.

Definition digit_char (d : digit) : Ascii.ascii :=
  Ascii.ascii_of_nat
    (48 + match d with
          | D0 => 0 | D1 => 1 | D2 => 2 | D3 => 3 | D4 => 4
          | D5 => 5 | D6 => 6 | D7 => 7 | D8 => 8 | D9 => 9
          end).

(** A [float], kept as the text that [str] gives for it: [nan], [inf],
    [-inf], or an optional sign, a digit and the rest ([1.5], [-0.25],
    [1e+16]). *)
Inductive float :=
  | FNan
  | FInf (negative : bool)
  | FNum (negative : bool) (first : digit) (rest : string).

#[global] Instance float_eq_dec : EqDecision float.
Proof. solve_decision. Defined.

(** The value of a field of a record, as Python sees it after [json.loads]:
    [None], a [bool], an [int], a [float], a [str] or a [list]. The programs
    only format, slice and compare the value of a field, so a list is kept
    as the text that [str] gives for it after the opening bracket ([VList "]"]
    is the empty list). An object nested inside a field is outside this
    model. *)
Inductive value :=
  | VNone
  | VBool (b : bool)
  | VInt (z : Z)
  | VFloat (f : float)
  | VStr (s : string)
  | VList (shown : string).

#[global] Instance value_eq_dec : EqDecision value.
Proof. solve_decision. Defined.

(** An element of a decoded array: a JSON object (a [dict] with string keys)
    or anything else. *)
Inductive pyobj :=
  | ODict (d : gmap string value)
  | OVal (v : value).

#[global] Instance pyobj_eq_dec : EqDecision pyobj.
Proof. solve_decision. Defined.

(** What [json.loads] can return: an array or a single element. A decoded
    array is a [PList], never [PObj (OVal (VList _))]. *)
Inductive parsed :=
  | PList (l : list pyobj)
  | PObj (o : pyobj).

(** Subclasses of [Exception] that the programs can meet. [OtherError]
    stands for every other subclass of [Exception] (transport errors,
    [OSError], [ValueError], WebDriver errors). *)
Inductive exn :=
  | JSONDecodeError
  | AttributeError
  | TypeError
  | NameError (name : string)
  | OtherError.

#[global] Instance exn_eq_dec : EqDecision exn.
Proof. solve_decision. Defined.

(** A call returns a value or raises. *)
Inductive outcome (A : Type) :=
  | Return (a : A)
  | Raise (e : exn).
Arguments Return {A} a.
Arguments Raise {A} e.

#[global] Instance outcome_ret : MRet outcome := fun A a => Return a.
#[global] Instance outcome_bind : MBind outcome := fun A B f m =>
  match m with
  | Return a => f a
  | Raise e => Raise e
  end.

Definition float_str (f : float) : string :=
  match f with
  | FNan => "nan"
  | FInf false => "inf"
  | FInf true => "-inf"
  | FNum negative first rest =>
      (if negative then "-" else "") +:+ String (digit_char first) rest
  end.

(** [str(v)]. *)
Definition py_str (v : value) : string :=
  match v with
  | VNone => "None"
  | VBool true => "True"
  | VBool false => "False"
  | VInt z => pretty z
  | VFloat f => float_str f
  | VStr s => s
  | VList shown => "[" +:+ shown
  end.

(** Truth value: [0.0] and [-0.0] are the floats that are false, [[]] the
    list. *)
Definition truthy_value (v : value) : bool :=
  match v with
  | VNone => false
  | VBool b => b
  | VInt z => negb (z =? 0)%Z
  | VFloat (FNum _ D0 rest) => negb (String.eqb rest ".0")
  | VFloat _ => true
  | VStr s => negb (String.eqb s "")
  | VList shown => negb (String.eqb shown "]")
  end.

(** [v[:n]]: only a string and a list can be sliced. *)
Definition sliceable (v : value) : bool :=
  match v with
  | VStr _ | VList _ => true
  | _ => false
  end.

Definition truthy_obj (o : pyobj) : bool :=
  match o with
  | ODict d => negb (bool_decide (d = ∅))
  | OVal v => truthy_value v
  end.

Definition truthy (p : parsed) : bool :=
  match p with
  | PList l => match l with [] => false | _ => true end
  | PObj o => truthy_obj o
  end.

(** [o.get(key, default)]: only a [dict] has the method. *)
Definition obj_get (o : pyobj) (key : string) (dflt : value) : outcome value :=
  match o with
  | ODict d => Return (default dflt (d !! key))
  | OVal _ => Raise AttributeError
  end.

(** ASCII lower-casing, [str.lower] on the ASCII range. *)
Definition lower_ascii (c : Ascii.ascii) : Ascii.ascii :=
  let n := Ascii.nat_of_ascii c in
  if (65 <=? n)%nat && (n <=? 90)%nat then Ascii.ascii_of_nat (n + 32) else c.

Fixpoint lower (s : string) : string :=
  match s with
  | EmptyString => EmptyString
  | String c r => String (lower_ascii c) (lower r)
  end.

(** [str.isspace] on the ASCII range. *)
Definition is_space (c : Ascii.ascii) : bool :=
  let n := Ascii.nat_of_ascii c in
  ((9 <=? n)%nat && (n <=? 13)%nat) || ((28 <=? n)%nat && (n <=? 32)%nat).

Fixpoint lstrip (s : string) : string :=
  match s with
  | EmptyString => EmptyString
  | String c r => if is_space c then lstrip r else s
  end.

Definition strip (s : string) : string :=
  String.rev (lstrip (String.rev (lstrip s))).

(** [s.startswith(p)]. *)
Fixpoint startswith (p s : string) : bool :=
  match p, s with
  | EmptyString, _ => true
  | String a p', String b s' => if Ascii.eqb a b then startswith p' s' else false
  | String _ _, EmptyString => false
  end.

(** [s[a:-b]] for a string at least [a] long. *)
Definition slice_from_to_end (a b : nat) (s : string) : string :=
  String.substring a (String.length s - b - a) s.

(** [l[-n:]]. *)
Definition lastn {A} (n : nat) (l : list A) : list A :=
  drop (length l - n) l.

End Py.

(** ** Results, and the state-and-exception monad of the programs *)

Module Eff.
Import Py.

(** [for x in l: f(x)], stopping at the first exception. *)
Fixpoint for_each {A} (f : A -> outcome unit) (l : list A) : outcome unit :=
  match l with
  | [] => Return ()
  | x :: r => match f x with
              | Return _ => for_each f r
              | Raise e => Raise e
              end
  end.

Section StateExn.
Context {W : Type}.

(** A computation reads and updates the world [W] and returns or raises. *)
Definition M (A : Type) : Type := W -> outcome A * W.

Definition ret {A} (a : A) : M A := fun w => (Return a, w).
Definition raise {A} (e : exn) : M A := fun w => (Raise e, w).
Definition bind {A B} (c : M A) (k : A -> M B) : M B :=
  fun w => match c w with
           | (Return a, w') => k a w'
           | (Raise e, w') => (Raise e, w')
           end.
Definition lift {A} (o : outcome A) : M A := fun w => (o, w).

(** [try: c except Exception as e: h(e)]. *)
Definition try_except {A} (c : M A) (h : exn -> M A) : M A :=
  fun w => match c w with
           | (Return a, w') => (Return a, w')
           | (Raise e, w') => h e w'
           end.
End StateExn.
Arguments M : clear implicits.

End Eff.

Notation "'let!' x ':=' c 'in' k" := (Eff.bind c (fun x => k))
  (at level 10, x pattern, c at level 100, k at level 200, only parsing).
Notation "c ';;!' k" := (Eff.bind c (fun _ => k))
  (at level 100, k at level 200, right associativity, only parsing).

(** ** [Honolulu Community College/pdf_extractor.py] *)

Module Honolulu.
Import Py Eff.

(** One entry of [pages_text]: [{'page_number': n, 'text': t}]. *)
Record page := { page_number : Z; text : string }.

(** What a prompt interpolates. The rendered instruction text is not
    modelled; the generation service receives the interpolated pieces. *)
Inductive prompt :=
  | ExtractionPrompt (page_text : page) (context_pages : list page)
      (recent_courses : list pyobj) (overlap_courses : option (list pyobj))
  | RepairPrompt (courses_json : list pyobj) (context_pages : list page)
      (recent_courses : list pyobj).

(** A member of the top-level object written to the output file. *)
Inductive member :=
  | MObject (fields : list (string * value))
  | MArray (items : list pyobj).

(** The [output_data] dict, members in insertion order. *)
Definition artifact := list (string * member).

(** Observable effects, in program order. Console output is not recorded
    in this module. *)
Inductive event :=
  | EvGenerate (p : prompt)
  | EvSleep (secs : Z)
  | EvWrite (path : string) (doc : artifact) (ok : bool).

Record world := {
  gen_calls : nat;        (* calls of [model.generate_content] so far *)
  saves : nat;            (* attempts to write the output file so far *)
  trace : list event
}.

Definition emit (ev : event) : M world unit :=
  fun w => (Return (), {| gen_calls := gen_calls w; saves := saves w;
                          trace := trace w ++ [ev] |}).

(** [time.sleep(secs)]. *)
Definition sleep (secs : Z) : M world unit := emit (EvSleep secs).

(** Names bound at module level: the imports and the [def]s. *)
Definition module_globals : list string :=
  [ "json"; "os"; "genai"; "datetime"; "time"; "re";
    "extract_text_from_pdf"; "create_gemini_prompt";
    "validate_and_fix_courses"; "extract_courses_from_page";
    "deduplicate_courses"; "save_incremental_results";
    "extract_courses_from_pdf"; "main" ].

Definition name_bound (name : string) : bool :=
  bool_decide (name ∈ module_globals).

(** [os.path.basename] for POSIX paths. *)
Fixpoint basename_from (s cur : string) : string :=
  match s with
  | EmptyString => cur
  | String c r => if String.eqb (String c "") "/" then basename_from r ""
                  else basename_from r (cur +:+ String c "")
  end.
Definition basename (path : string) : string := basename_from path "".

(** *** [create_gemini_prompt] *)

(** The three [course.get(...)] of a line of the recent-courses section. *)
Definition recent_line (course : pyobj) : outcome unit :=
  _ ← obj_get course "course_prefix" (VStr "N/A");
  _ ← obj_get course "course_number" (VStr "N/A");
  _ ← obj_get course "course_title" (VStr "N/A");
  Return ().

(** The lines of the overlap section; [course.get('course_desc', 'N/A')[:200]]
    needs a value that can be sliced: a string or a list. On [None], a
    [bool], an [int] or a [float] it raises [TypeError]. (An object nested
    in the field, which the model leaves out, cannot be sliced either.) *)
Definition overlap_lines (course : pyobj) : outcome unit :=
  _ ← obj_get course "course_prefix" (VStr "N/A");
  _ ← obj_get course "course_number" (VStr "N/A");
  _ ← obj_get course "course_title" (VStr "N/A");
  desc ← obj_get course "course_desc" (VStr "N/A");
  if sliceable desc then Return () else Raise TypeError.

Definition create_gemini_prompt (page_text : page) (context_pages : list page)
    (recent_courses : list pyobj) (overlap_courses : option (list pyobj))
    : outcome prompt :=
  _ ← for_each recent_line (lastn 5 recent_courses);
  _ ← for_each overlap_lines (default [] overlap_courses);
  Return (ExtractionPrompt page_text context_pages (lastn 5 recent_courses)
            overlap_courses).

(** *** [deduplicate_courses] *)

(** [f"{course.get('course_prefix', '')}-{course.get('course_number', '')}"]. *)
Definition course_key (course : pyobj) : outcome string :=
  p ← obj_get course "course_prefix" (VStr "");
  n ← obj_get course "course_number" (VStr "");
  Return (py_str p +:+ "-" +:+ py_str n).

Fixpoint dedup_loop (courses : list pyobj) (seen : gset string)
    (unique_courses : list pyobj) : outcome (list pyobj) :=
  match courses with
  | [] => Return unique_courses
  | course :: rest =>
      match course_key course with
      | Raise e => Raise e
      | Return k =>
          if decide (k ∈ seen) then dedup_loop rest seen unique_courses
          else dedup_loop rest ({[k]} ∪ seen) (unique_courses ++ [course])
      end
  end.

Definition deduplicate_courses (courses : list pyobj) : outcome (list pyobj) :=
  dedup_loop courses ∅ [].

(** *** Response handling *)

(** [response.text.strip()] followed by the removal of a code fence. *)
Definition clean_response (response_text : string) : string :=
  let t := strip response_text in
  if startswith "```json" t then strip (slice_from_to_end 7 3 t)
  else if startswith "```" t then strip (slice_from_to_end 3 3 t)
  else t.

(** [value is None or value == "" or str(value).lower() in [...]]. *)
Definition field_needs_fixing (v : value) : bool :=
  bool_decide (v = VNone) || bool_decide (v = VStr "")
  || bool_decide (lower (py_str v) ∈ ["unknown"; "null"; "n/a"]).

(** The scan that sets [needs_fixing]; [course.items()] needs a dict, and
    the scan stops at the first field found. *)
Fixpoint needs_fixing (courses_json : list pyobj) : outcome bool :=
  match courses_json with
  | [] => Return false
  | ODict d :: rest =>
      if existsb (fun kv => field_needs_fixing kv.2) (map_to_list d)
      then Return true else needs_fixing rest
  | OVal _ :: _ => Raise AttributeError
  end.

(** [len(x)]. *)
Definition py_len (p : parsed) : outcome nat :=
  match p with
  | PList l => Return (length l)
  | PObj (ODict d) => Return (size d)
  | PObj (OVal (VStr s)) => Return (String.length s)
  | PObj (OVal _) => Raise TypeError
  end.

(** Iteration as done by [list.extend(x)]: a dict yields its keys and a
    string its characters. *)
Definition py_iter (p : parsed) : outcome (list pyobj) :=
  match p with
  | PList l => Return l
  | PObj (ODict d) => Return ((fun kv => OVal (VStr kv.1)) <$> map_to_list d)
  | PObj (OVal (VStr s)) =>
      Return ((fun c => OVal (VStr (String c ""))) <$> String.list_ascii_of_string s)
  | PObj (OVal _) => Raise TypeError
  end.

(** *** Reading the PDF *)

(** What a [try] body that imports a PDF library and reads every page with
    it comes to: the texts, an [ImportError], or an exception that is no
    [ImportError]. *)
Inductive reading (A : Type) :=
  | Read (texts : A)
  | ImportFails
  | ReadFails (e : exn).
Arguments Read {A} texts.
Arguments ImportFails {A}.
Arguments ReadFails {A} e.

(** The two [try] bodies of [extract_text_from_pdf]: the outer one with
    PyMuPDF ([page.get_text()] of every page) and the inner one with
    pdfplumber ([page.extract_text()] of every page, which can be [None]). *)
Record pdf_reader := {
  with_fitz : reading (list string);
  with_pdfplumber : reading (list (option string))
}.

(** Both branches number the pages from 1. *)
Definition number_pages (texts : list string) : list page :=
  imap (fun i t => {| page_number := Z.of_nat i + 1; text := t |}) texts.

(** *** The effectful functions *)

Section Program.
(** The generation service: the response to the [n]-th call, as a function
    of the prompt, is a text or an exception. *)
Variable generate : nat -> prompt -> outcome string.
(** [json.loads]: [None] stands for [json.JSONDecodeError]. *)
Variable json_loads : string -> option parsed.
(** The PDF libraries on a path. *)
Variable read_pdf : string -> pdf_reader.
(** Whether the [n]-th attempt to write the output file succeeds. *)
Variable write_ok : nat -> bool.
(** [datetime.now().isoformat()] at the [n]-th save. *)
Variable now : nat -> string.
(** The body run when a module-level name resolves and is called with one
    argument. *)
Variable call_body : string -> pyobj -> M world bool.

(** [model.generate_content(prompt)] and [response.text]: one call of the
    service, recorded whether it answers or raises. The constructor
    [genai.GenerativeModel(...)] makes no request and is taken not to raise. *)
Definition generate_content (p : prompt) : M world string :=
  fun w =>
    let w' := {| gen_calls := S (gen_calls w); saves := saves w;
                 trace := trace w ++ [EvGenerate p] |} in
    (generate (gen_calls w) p, w').

Definition loads (s : string) : M world parsed :=
  match json_loads s with
  | Some p => ret p
  | None => raise JSONDecodeError
  end.

(** [extract_text_from_pdf]. The pdfplumber branch is the handler of the
    [ImportError] of the outer [try]: an exception raised there that is no
    [ImportError] is not caught by [except Exception] of the outer [try]
    and leaves the function. *)
Definition extract_text_from_pdf (pdf_path : string)
    : outcome (option (list page)) :=
  match with_fitz (read_pdf pdf_path) with
  | Read texts => Return (Some (number_pages texts))
  | ReadFails _ => Return None
  | ImportFails =>
      match with_pdfplumber (read_pdf pdf_path) with
      | Read texts => Return (Some (number_pages (default "" <$> texts)))
      | ImportFails => Return None
      | ReadFails e => Raise e
      end
  end.

Definition validate_and_fix_courses (courses_json : list pyobj)
    (context_pages : list page) (recent_courses : list pyobj) : M world parsed :=
  match courses_json with
  | [] => ret (PList courses_json)
  | _ :: _ =>
      let! fixing := lift (needs_fixing courses_json) in
      if negb fixing then ret (PList courses_json)
      else
        try_except
          (let! response_text :=
             generate_content (RepairPrompt courses_json (lastn 3 context_pages)
                                 (lastn 5 recent_courses)) in
           let! fixed_courses := loads (clean_response response_text) in
           ret fixed_courses)
          (fun _ => ret (PList courses_json))
  end.

(** The body of the [try] of one attempt. *)
Definition attempt_body (page_text : page) (context_pages : list page)
    (recent_courses : list pyobj) (overlap_courses : option (list pyobj))
    : M world parsed :=
  let! prompt :=
    lift (create_gemini_prompt page_text context_pages recent_courses
            overlap_courses) in
  let! response_text := generate_content prompt in
  let! courses := loads (clean_response response_text) in
  let courses := match courses with
                 | PList l => l
                 | PObj o => if truthy_obj o then [o] else []
                 end in
  let! courses := validate_and_fix_courses courses context_pages recent_courses in
  let! _ := lift (py_len courses) in
  ret courses.

(** The [for attempt in range(max_retries)] loop, [n] iterations to go. *)
Fixpoint attempts (n : nat) (attempt max_retries : Z) (body : M world parsed)
    : M world parsed :=
  match n with
  | O => ret (PList [])
  | S n' =>
      try_except body
        (fun e =>
           if (attempt =? max_retries - 1)%Z then ret (PList [])
           else
             sleep (match e with JSONDecodeError => 1 | _ => 2 end) ;;!
             attempts n' (attempt + 1) max_retries body)
  end.

Definition extract_courses_from_page (page_text : page)
    (context_pages : list page) (recent_courses : list pyobj)
    (overlap_courses : option (list pyobj)) (max_retries : Z) : M world parsed :=
  attempts (Z.to_nat max_retries) 0 max_retries
    (attempt_body page_text context_pages recent_courses overlap_courses).

(** The [output_data] of a checkpoint. *)
Definition incremental_output_data (all_courses : list pyobj)
    (pdf_path : string) (current_page total_pages : Z) (timestamp : string)
    : artifact :=
  [ ("metadata", MObject
       [ ("source_file", VStr (basename pdf_path));
         ("total_pages", VInt total_pages);
         ("pages_processed", VInt current_page);
         ("total_courses", VInt (Z.of_nat (length all_courses)));
         ("extraction_timestamp", VStr timestamp);
         ("extractor", VStr "Gemini LLM");
         ("model", VStr "gemini-1.5-flash");
         ("status", VStr (if (current_page <? total_pages)%Z
                          then "in_progress" else "complete")) ]);
    ("courses", MArray all_courses) ].

(** [with open(output_path, 'w') ...: json.dump(...)] inside [try]. *)
Definition write_output (output_path : string) (doc : artifact) : M world bool :=
  fun w =>
    let ok := write_ok (saves w) in
    (Return ok, {| gen_calls := gen_calls w; saves := S (saves w);
                   trace := trace w ++ [EvWrite output_path doc ok] |}).

Definition timestamp_now : M world string :=
  fun w => (Return (now (saves w)), w).

Definition save_incremental_results (all_courses : list pyobj)
    (pdf_path output_path : string) (current_page total_pages : Z)
    : M world bool :=
  let! ts := timestamp_now in
  write_output output_path
    (incremental_output_data all_courses pdf_path current_page total_pages ts).

(** The variables the page loop carries from one page to the next. *)
Record loop_state := {
  all_courses : list pyobj;
  context_pages : list page;
  recent_courses : list pyobj
}.

(** The body of [for i, page_text in enumerate(pages_text, 1)]. *)
Definition process_page (pdf_path output_path : string) (total_pages : Z)
    (i : Z) (page_text : page) (s : loop_state) : M world loop_state :=
  let overlap_courses :=
    if (2 <=? length (all_courses s))%nat
    then Some (lastn 2 (all_courses s)) else None in
  let context_for_page :=
    match context_pages s with [] => [] | _ :: _ => lastn 3 (context_pages s) end in
  let recent_for_page :=
    match recent_courses s with [] => [] | _ :: _ => lastn 5 (recent_courses s) end in
  let! courses :=
    extract_courses_from_page page_text context_for_page recent_for_page
      overlap_courses 3 in
  let! updated :=
    if truthy courses then
      let! items := lift (py_iter courses) in
      let! deduped := lift (deduplicate_courses (all_courses s ++ items)) in
      ret (deduped, recent_courses s ++ items)
    else ret (all_courses s, recent_courses s) in
  let all' := updated.1 in
  let recent' := updated.2 in
  let context' := context_pages s ++ [page_text] in
  let context' :=
    if (3 <? length context')%nat then lastn 3 context' else context' in
  let recent' :=
    if (5 <? length recent')%nat then lastn 5 recent' else recent' in
  let! _ := save_incremental_results all' pdf_path output_path i total_pages in
  ret {| all_courses := all'; context_pages := context';
         recent_courses := recent' |}.

Fixpoint page_loop (pdf_path output_path : string) (total_pages : Z)
    (pages : list page) (i : Z) (s : loop_state) : M world loop_state :=
  match pages with
  | [] => ret s
  | page_text :: rest =>
      let! s' := process_page pdf_path output_path total_pages i page_text s in
      page_loop pdf_path output_path total_pages rest (i + 1) s'
  end.

(** Calling a module-level name with one argument: the name is looked up
    when the call is evaluated. *)
Definition call_global (name : string) (arg : pyobj) : M world bool :=
  if name_bound name then call_body name arg else raise (NameError name).

(** [for course in all_courses: if validate_and_fix_course(course): ...]. *)
Fixpoint final_validation (courses validated_courses : list pyobj)
    : M world (list pyobj) :=
  match courses with
  | [] => ret validated_courses
  | course :: rest =>
      let! keep := call_global "validate_and_fix_course" course in
      final_validation rest
        (if keep then validated_courses ++ [course] else validated_courses)
  end.

(** The [output_data] of the final write. *)
Definition final_output_data (validated_courses : list pyobj)
    (pdf_path : string) (total_pages : Z) (timestamp : string) : artifact :=
  [ ("metadata", MObject
       [ ("source_file", VStr (basename pdf_path));
         ("total_pages", VInt total_pages);
         ("total_courses", VInt (Z.of_nat (length validated_courses)));
         ("extraction_timestamp", VStr timestamp);
         ("extractor", VStr "Gemini LLM");
         ("model", VStr "gemini-1.5-flash");
         ("status", VStr "complete") ]);
    ("courses", MArray validated_courses) ].

Definition initial_loop_state : loop_state :=
  {| all_courses := []; context_pages := []; recent_courses := [] |}.

(** [extract_courses_from_pdf]; [api_key_set] is whether [GOOGLE_API_KEY]
    is in the environment. *)
Definition extract_courses_from_pdf (api_key_set : bool)
    (pdf_path output_path : string) : M world bool :=
  if negb api_key_set then ret false
  else
    let! pages_text := lift (extract_text_from_pdf pdf_path) in
    match pages_text with
    | None | Some [] => ret false
    | Some pages_text =>
        let total_pages := Z.of_nat (length pages_text) in
        let! s := page_loop pdf_path output_path total_pages pages_text 1
                    initial_loop_state in
        let! validated_courses := final_validation (all_courses s) [] in
        let! ts := timestamp_now in
        write_output output_path
          (final_output_data validated_courses pdf_path total_pages ts)
    end.

(** [os.path.join(directory, name)] for a relative [name]. *)
Definition path_join (directory name : string) : string :=
  match String.rev directory with
  | String c _ =>
      if String.eqb (String c "") "/" then directory +:+ name
      else directory +:+ "/" +:+ name
  | EmptyString => name
  end.

(** [main]; [script_dir] is the directory of the script and [path_exists] is
    [os.path.exists]. Whatever [extract_courses_from_pdf] returns is only
    printed. *)
Definition main (script_dir : string) (path_exists : string -> bool)
    (api_key_set : bool) : M world unit :=
  let pdf_path := path_join script_dir "courses.pdf" in
  let output_path := path_join script_dir "courses_extracted.json" in
  if negb (path_exists pdf_path) then ret ()
  else
    let! success := extract_courses_from_pdf api_key_set pdf_path output_path in
    ret ().

End Program.

Definition initial_world : world := {| gen_calls := 0; saves := 0; trace := [] |}.

End Honolulu.

(** ** [Kauai Community College/web_scraper.py] *)

Module Kauai.
Import Py Eff.

(** The dict built by [extract_single_course_from_h3]. *)
Record course := {
  course_prefix : string;
  course_number : string;
  course_title : string;
  course_desc : string;
  num_units : string;
  dept_name : string;
  inst_ipeds : Z;
  metadata : string
}.

#[global] Instance course_eq_dec : EqDecision course.
Proof. solve_decision. Defined.

(** An [<a href=... hreflang="en">] of a catalog page: [href] and text. *)
Record link := { href : string; link_text : string }.

(** One run of [extract_department_courses]: whether its own browser starts,
    the courses appended before the page was done or an exception stopped
    the [try] block, and whether [driver.quit()] in [finally] succeeds. *)
Record dept_session := {
  dept_starts : bool;
  dept_courses : list course;
  dept_quits : bool
}.

Inductive event :=
  | EvDepartment (dept_url : string)               (* a department is extracted *)
  | EvSave (filepath : string) (data : list course) (ok : bool).

(** The mutable objects of [crawl_courses] and the effects so far. *)
Record world := {
  all_courses : list course;
  visited_dept_urls : gset string;
  seen_courses : gset string;
  trace : list event
}.

Definition emit (ev : event) : M world unit :=
  fun w => (Return (), {| all_courses := all_courses w;
                          visited_dept_urls := visited_dept_urls w;
                          seen_courses := seen_courses w;
                          trace := trace w ++ [ev] |}).

(** [needle in s] on strings. *)
Fixpoint str_in (needle s : string) : bool :=
  startswith needle s ||
  match s with
  | EmptyString => false
  | String _ r => str_in needle r
  end.

(** [f"{course['course_prefix']}-{course['course_number']}"]. *)
Definition course_key (c : course) : string :=
  course_prefix c +:+ "-" +:+ course_number c.

Section Program.
(** The catalog browser: the links of a catalog page, or an exception. *)
Variable catalog_page : Z -> outcome (list link).
(** The browser session opened for a department page. *)
Variable department : string -> dept_session.
Variable write_ok : bool.
(** Whether the catalog browser starts and quits. *)
Variable driver_starts driver_quits : bool.

(** [extract_department_courses]: the constructor of the browser is
    outside the [try], and [finally] quits it. *)
Definition extract_department_courses (dept_url : string) : M world (list course) :=
  let s := department dept_url in
  emit (EvDepartment dept_url) ;;!
  if negb (dept_starts s) then raise OtherError
  else if negb (dept_quits s) then raise OtherError
  else ret (dept_courses s).

(** The filter of department links, recording each accepted link. *)
Fixpoint collect_department_links (links : list link) (valid : list string)
    : M world (list string) :=
  match links with
  | [] => ret valid
  | l :: rest =>
      fun w =>
        if startswith "/" (href l) && (1 <? String.length (href l))%nat
           && str_in "(" (link_text l) && str_in ")" (link_text l)
           && negb (bool_decide (href l ∈ visited_dept_urls w))
        then collect_department_links rest (valid ++ [href l])
               {| all_courses := all_courses w;
                  visited_dept_urls := {[href l]} ∪ visited_dept_urls w;
                  seen_courses := seen_courses w;
                  trace := trace w |}
        else collect_department_links rest valid w
  end.

(** The de-duplication of one department's courses. *)
Fixpoint add_courses (dept_courses : list course) : M world unit :=
  match dept_courses with
  | [] => ret ()
  | c :: rest =>
      fun w =>
        if bool_decide (course_key c ∈ seen_courses w)
        then add_courses rest w
        else add_courses rest
               {| all_courses := all_courses w ++ [c];
                  visited_dept_urls := visited_dept_urls w;
                  seen_courses := {[course_key c]} ∪ seen_courses w;
                  trace := trace w |}
  end.

Fixpoint visit_departments (valid_dept_links : list string) : M world unit :=
  match valid_dept_links with
  | [] => ret ()
  | dept_url :: rest =>
      let! courses := extract_department_courses dept_url in
      add_courses courses ;;!
      visit_departments rest
  end.

(** The body of the page loop: everything is inside one [try]. *)
Definition process_catalog_page (page_num : Z) : M world unit :=
  try_except
    (let! links := lift (catalog_page page_num) in
     let! valid_dept_links := collect_department_links links [] in
     visit_departments valid_dept_links)
    (fun _ => ret ()).

Fixpoint page_loop (pages : list Z) : M world unit :=
  match pages with
  | [] => ret ()
  | page_num :: rest => process_catalog_page page_num ;;! page_loop rest
  end.

(** [save_to_json]: exceptions of the write are caught. *)
Definition save_to_json (filepath : string) : M world unit :=
  fun w => emit (EvSave filepath (all_courses w) write_ok) w.

(** [crawl_courses]: [finally: driver.quit()] runs on every path. *)
Definition crawl_courses (output_file : string) (start_page end_page : Z)
    : M world unit :=
  if negb driver_starts then raise OtherError
  else
    fun w =>
      let '(r, w') :=
        (page_loop (seqZ start_page (end_page + 1 - start_page)) ;;!
         save_to_json output_file) w in
      if driver_quits then (r, w') else (Raise OtherError, w').

End Program.

Definition initial_world : world :=
  {| all_courses := []; visited_dept_urls := ∅; seen_courses := ∅; trace := [] |}.

End Kauai.

(** ** [University of Hawaii at Manoa/manoa_scraper.py] *)

Module Manoa.
Import Py Eff.

(** The dict returned by [parse_course_preview_html]. *)
Record course := {
  course_prefix : option string;
  course_number : option string;
  course_title : option string;
  course_desc : option string;
  num_units : option string;
  dept_name : option string;
  metadata : list (string * string);
  source_url : string;
  extraction_timestamp : string
}.

#[global] Instance course_eq_dec : EqDecision course.
Proof. solve_decision. Defined.

(** The browser session that one call of [extract_single_course] opens:
    whether [webdriver.Chrome] starts, what loading and parsing the page
    gives ([None] when the page has no course block), and whether
    [driver.quit()] succeeds. *)
Record session := {
  starts : bool;
  page_result : outcome (option course);
  quits : bool
}.

Inductive log_entry :=
  | LogCatalogError (page_num : Z)
  | LogWorkerError (course_url : string)      (* printed by the worker *)
  | LogExtracted (prefix number title : option string)
  | LogFailedToParse (course_url : string)
  | LogErrorProcessing (course_url : string).

Inductive event :=
  | EvSubmit (page_num : Z) (course_url : string)
  | EvLog (entry : log_entry)
  | EvSave (filepath : string) (data : list course) (ok : bool).

(** The mutable objects of [crawl_courses] and the effects so far. *)
Record world := {
  visited_courses : gset string;
  all_extracted : list course;
  total_course_count : nat;
  saves : nat;
  trace : list event
}.

Definition emit (ev : event) : M world unit :=
  fun w => (Return (), {| visited_courses := visited_courses w;
                          all_extracted := all_extracted w;
                          total_course_count := total_course_count w;
                          saves := saves w;
                          trace := trace w ++ [ev] |}).

Definition log (entry : log_entry) : M world unit := emit (EvLog entry).

(** [extract_single_course], with what it prints. The constructor of the
    browser is outside the [try]; [finally] quits the browser. *)
Definition extract_single_course (s : session) (course_url : string)
    : outcome (option course) * list log_entry :=
  if negb (starts s) then (Raise OtherError, [])
  else
    let '(parsed, printed) :=
      match page_result s with
      | Return parsed => (parsed, [])
      | Raise _ => (None, [LogWorkerError course_url])
      end in
    if quits s then (Return parsed, printed) else (Raise OtherError, printed).

Section Program.
(** The catalog browser: the [href] attribute of every link of a catalog
    page ([None] when the attribute is missing), or an exception. *)
Variable catalog_page : Z -> outcome (list (option string)).
(** The session a worker opens for a course URL submitted for a page. *)
Variable render : Z -> string -> session.
(** The order in which [as_completed] yields the futures of a page. *)
Variable completion_order : Z -> list string -> list string.
Variable write_ok : nat -> bool.
Variable driver_starts driver_quits : bool.

(** [save_to_json(all_extracted, output_file, file_lock)]. *)
Definition save_to_json (filepath : string) : M world unit :=
  fun w => (Return (), {| visited_courses := visited_courses w;
                          all_extracted := all_extracted w;
                          total_course_count := total_course_count w;
                          saves := S (saves w);
                          trace := trace w ++
                            [EvSave filepath (all_extracted w) (write_ok (saves w))] |}).

(** [future.result()]: the worker's return value or exception; what the
    worker printed is placed where the main thread collects the future. *)
Definition future_result (page_num : Z) (course_url : string)
    : M world (option course) :=
  fun w =>
    let '(r, printed) := extract_single_course (render page_num course_url) course_url in
    (r, {| visited_courses := visited_courses w;
           all_extracted := all_extracted w;
           total_course_count := total_course_count w;
           saves := saves w;
           trace := trace w ++ (EvLog <$> printed) |}).

Definition append_extracted (parsed : course) : M world unit :=
  fun w => (Return (), {| visited_courses := visited_courses w;
                          all_extracted := all_extracted w ++ [parsed];
                          total_course_count := total_course_count w;
                          saves := saves w;
                          trace := trace w |}).

Definition add_visited (course_url : string) : M world unit :=
  fun w => (Return (), {| visited_courses := {[course_url]} ∪ visited_courses w;
                          all_extracted := all_extracted w;
                          total_course_count := total_course_count w;
                          saves := saves w;
                          trace := trace w |}).

Definition count_total : M world unit :=
  fun w => (Return (), {| visited_courses := visited_courses w;
                          all_extracted := all_extracted w;
                          total_course_count := S (total_course_count w);
                          saves := saves w;
                          trace := trace w |}).

(** The [for future in as_completed(future_to_url)] loop. *)
Fixpoint collect_futures (output_file : string) (batch_size : Z)
    (page_num : Z) (n_urls : nat) (order : list string)
    (completed_count : nat) (batch_results : list course) : M world unit :=
  match order with
  | [] => ret ()
  | course_url :: rest =>
      let completed_count := S completed_count in
      count_total ;;!
      let! batch_results :=
        try_except
          (let! parsed := future_result page_num course_url in
           let! batch_results :=
             match parsed with
             | Some c =>
                 log (LogExtracted (course_prefix c) (course_number c)
                        (course_title c)) ;;!
                 append_extracted c ;;!
                 ret (batch_results ++ [c])
             | None =>
                 log (LogFailedToParse course_url) ;;! ret batch_results
             end in
           add_visited course_url ;;!
           if (batch_size <=? Z.of_nat (length batch_results))%Z
              || (completed_count =? n_urls)%nat
           then save_to_json output_file ;;! ret []
           else ret batch_results)
          (fun _ => log (LogErrorProcessing course_url) ;;! ret batch_results) in
      collect_futures output_file batch_size page_num n_urls rest
        completed_count batch_results
  end.

(** The links of a catalog page that are course links not yet visited. *)
Definition new_course_links (base_course_url_prefix : string)
    (visited : gset string) (hrefs : list (option string)) : gset string :=
  foldl (fun current href =>
           match href with
           | Some h =>
               if negb (String.eqb h "") && startswith base_course_url_prefix h
                  && negb (bool_decide (h ∈ visited))
               then {[h]} ∪ current else current
           | None => current
           end) ∅ hrefs.

Fixpoint submit_all (page_num : Z) (course_urls : list string) : M world unit :=
  match course_urls with
  | [] => ret ()
  | url :: rest => emit (EvSubmit page_num url) ;;! submit_all page_num rest
  end.

(** The body of [for page_num in range(start_page, end_page + 1)]. *)
Definition process_catalog_page (base_course_url_prefix output_file : string)
    (batch_size : Z) (page_num : Z) : M world unit :=
  match catalog_page page_num with
  | Raise _ => log (LogCatalogError page_num)
  | Return hrefs =>
      fun w =>
        let current_page_course_links :=
          new_course_links base_course_url_prefix (visited_courses w) hrefs in
        let course_urls := elements current_page_course_links in
        match course_urls with
        | [] => (Return (), w)
        | _ :: _ =>
            (submit_all page_num course_urls ;;!
             collect_futures output_file batch_size page_num (length course_urls)
               (completion_order page_num course_urls) 0 []) w
        end
  end.

Fixpoint page_loop (base_course_url_prefix output_file : string)
    (batch_size : Z) (pages : list Z) : M world unit :=
  match pages with
  | [] => ret ()
  | page_num :: rest =>
      process_catalog_page base_course_url_prefix output_file batch_size page_num ;;!
      page_loop base_course_url_prefix output_file batch_size rest
  end.

Definition crawl_courses (base_course_url_prefix output_file : string)
    (start_page end_page : Z) (batch_size : Z) : M world unit :=
  if negb driver_starts then raise OtherError
  else
    page_loop base_course_url_prefix output_file batch_size
      (seqZ start_page (end_page + 1 - start_page)) ;;!
    (if driver_quits then ret () else raise OtherError) ;;!
    save_to_json output_file.

End Program.

Definition initial_world : world :=
  {| visited_courses := ∅; all_extracted := []; total_course_count := 0;
     saves := 0; trace := [] |}.

End Manoa.

(** ** How a save acts on the file system *)

Module FileWrite.

(** The file system is a map from paths to contents. *)
Inductive fs_op :=
  | OpOpenTruncate (path : string)          (* [open(path, 'w')] *)
  | OpWrite (path : string) (chunk : string) (* [f.write(chunk)] *)
  | OpClose (path : string).

Definition step (files : gmap string string) (op : fs_op) : gmap string string :=
  match op with
  | OpOpenTruncate path => <[path := ""]> files
  | OpWrite path chunk => alter (fun s => s +:+ chunk) path files
  | OpClose _ => files
  end.

Definition run_ops (ops : list fs_op) (files : gmap string string)
    : gmap string string :=
  foldl step files ops.

Definition op_path (op : fs_op) : string :=
  match op with
  | OpOpenTruncate p | OpWrite p _ | OpClose p => p
  end.

(** [with open(filepath, 'w', encoding='utf-8') as f: json.dump(data, f, ...)],
    [chunks] being what the encoder hands to [f.write] one after the other.
    All save functions of the repository have this shape. *)
Definition save_ops (filepath : string) (chunks : list string) : list fs_op :=
  OpOpenTruncate filepath :: (OpWrite filepath <$> chunks) ++ [OpClose filepath].

(** The file system when the process is killed after [k] operations. *)
Definition killed_after (k : nat) (filepath : string) (chunks : list string)
    (files : gmap string string) : gmap string string :=
  run_ops (take k (save_ops filepath chunks)) files.

Fixpoint concat_chunks (chunks : list string) : string :=
  match chunks with
  | [] => ""
  | c :: r => c +:+ concat_chunks r
  end.

(** The file operations of the save events of the programs: [encode] is
    what [json.dump] hands to [f.write], chunk by chunk, for the value it
    is given. A save that raises, and a process that is killed, performs a
    prefix of these operations. *)
Definition honolulu_save_ops (encode : Honolulu.artifact -> list string)
    (ev : Honolulu.event) : list fs_op :=
  match ev with
  | Honolulu.EvWrite path doc _ => save_ops path (encode doc)
  | _ => []
  end.

Definition manoa_save_ops (encode : list Manoa.course -> list string)
    (ev : Manoa.event) : list fs_op :=
  match ev with
  | Manoa.EvSave filepath data _ => save_ops filepath (encode data)
  | _ => []
  end.

End FileWrite.

(** ** Vocabulary of the statements *)

Module Logic.
Import Py Eff.

Section Predicates.
Context {W E : Type} (trace_of : W -> list E).

(** [w'] has the trace of [w] followed by events that satisfy [Q]. *)
Definition extends (Q : E -> Prop) (w w' : W) : Prop :=
  exists tr, trace_of w' = trace_of w ++ tr /\ Forall Q tr.

(** From every world, [c] adds only events that satisfy [Q], and a
    returned value satisfies [R]. *)
Definition satisfies {A} (c : M W A) (Q : E -> Prop) (R : A -> Prop) : Prop :=
  forall w, extends Q w (c w).2 /\ forall a, (c w).1 = Return a -> R a.
End Predicates.

Section Counting.
Context {W E : Type} (trace_of : W -> list E) (count : list E -> nat).

(** From every world, [c] adds events that [count] values at [k] at most. *)
Definition bounded {A} (c : M W A) (k : nat) : Prop :=
  forall w, exists tr, trace_of (c w).2 = trace_of w ++ tr /\ count tr <= k.

(** [c] returns from every world. *)
Definition never_raises {A} (c : M W A) : Prop :=
  forall w, exists a, (c w).1 = Return a.

(** From every world, the first event that [c] adds is [ev]. *)
Definition starts_with {A} (c : M W A) (ev : E) : Prop :=
  forall w, exists tr, trace_of (c w).2 = trace_of w ++ ev :: tr.
End Counting.

End Logic.

Module HonoluluSpec.
Import Py Eff Honolulu.

(** The natural key of a record: its [course_prefix] and [course_number]
    members, each possibly absent. *)
Definition natural_key (course : pyobj) : option (option value * option value) :=
  match course with
  | ODict d => Some (d !! "course_prefix", d !! "course_number")
  | OVal _ => None
  end.

(** How many records of [courses] have the natural key [k]. *)
Definition count_key (k : option value * option value) (courses : list pyobj) : nat :=
  length (filter (fun c => natural_key c = Some k) courses).

(** Every record has a de-duplication key and no two share one. *)
Definition key_unique (courses : list pyobj) : Prop :=
  exists ks, Forall2 (fun c k => course_key c = Return k) courses ks /\ NoDup ks.

(** The record sequence of an artifact. *)
Definition records_of (doc : artifact) : option (list pyobj) :=
  match doc with
  | [(_, MObject _); (_, MArray items)] => Some items
  | _ => None
  end.

(** The metadata member of an artifact, and one of its entries. *)
Definition metadata_of (doc : artifact) : list (string * value) :=
  match doc with
  | (_, MObject fields) :: _ => fields
  | _ => []
  end.

Fixpoint assoc (key : string) (fields : list (string * value)) : option value :=
  match fields with
  | [] => None
  | (k, v) :: rest => if String.eqb k key then Some v else assoc key rest
  end.

(** The artifact of the last write in a trace. *)
Definition last_written (tr : list event) : option artifact :=
  last (omap (fun ev => match ev with
                        | EvWrite _ doc _ => Some doc
                        | _ => None
                        end) tr).

(** The number of calls of the generation service in a trace. *)
Definition is_generate (ev : event) : bool :=
  match ev with EvGenerate _ => true | _ => false end.

Definition generate_count (tr : list event) : nat :=
  length (filter (fun ev => is_generate ev = true) tr).

(** The events of [n] failed attempts: a call, then a sleep before the next
    call. *)
Fixpoint retry_events (p : prompt) (sleeps : list Z) : list event :=
  match sleeps with
  | [] => [EvGenerate p]
  | s :: rest => EvGenerate p :: EvSleep s :: retry_events p rest
  end.

(** An attempt fails at the generation call or at the parse of its text. *)
Definition attempt_fails (json_loads : string -> option parsed)
    (r : outcome string) : Prop :=
  match r with
  | Raise _ => True
  | Return response_text => json_loads (clean_response response_text) = None
  end.

(** A field value is missing or a placeholder: null, the empty string, or a
    string equal to one of the tokens up to case. *)
Definition placeholder (v : value) : Prop :=
  v = VNone \/ v = VStr "" \/
  exists s, v = VStr s /\ lower s ∈ ["unknown"; "null"; "n/a"].

Definition has_placeholder (courses : list (gmap string value)) : Prop :=
  exists d key v, d ∈ courses /\ d !! key = Some v /\ placeholder v.

(** A write of the page loop, for a page between [i0] and [i0 + n - 1]:
    a checkpoint of a key-unique record list. *)
Definition checkpoint_of_pages (pdf_path output_path : string) (total_pages : Z)
    (i0 : Z) (n : nat) (ev : event) : Prop :=
  match ev with
  | EvWrite path doc _ =>
      path = output_path /\
      exists i all ts,
        (i0 <= i < i0 + Z.of_nat n)%Z /\ key_unique all /\
        doc = incremental_output_data all pdf_path i total_pages ts
  | _ => True
  end.

Definition is_write (ev : event) : bool :=
  match ev with EvWrite _ _ _ => true | _ => false end.

(** The artifacts of the writes of a trace, in order. *)
Definition written (tr : list event) : list artifact :=
  omap (fun ev => match ev with
                  | EvWrite _ doc _ => Some doc
                  | _ => None
                  end) tr.

(** The shape of the checkpoint saved after unit [i] of [T]. *)
Definition checkpoint_shape (pdf_path : string) (i T : Z) (doc : artifact) : Prop :=
  doc.*1 = ["metadata"; "courses"] /\
  (metadata_of doc).*1 =
    ["source_file"; "total_pages"; "pages_processed"; "total_courses";
     "extraction_timestamp"; "extractor"; "model"; "status"] /\
  assoc "source_file" (metadata_of doc) = Some (VStr (basename pdf_path)) /\
  assoc "total_pages" (metadata_of doc) = Some (VInt T) /\
  assoc "pages_processed" (metadata_of doc) = Some (VInt i) /\
  (exists records,
      records_of doc = Some records /\
      assoc "total_courses" (metadata_of doc) =
        Some (VInt (Z.of_nat (length records)))) /\
  (exists ts, assoc "extraction_timestamp" (metadata_of doc) = Some (VStr ts)) /\
  (exists status, assoc "status" (metadata_of doc) = Some (VStr status) /\
      (status = "in_progress" <-> (i < T)%Z) /\
      (status = "complete" <-> i = T)).

(** Every character of [s] comes before the letters in ASCII. *)
Fixpoint below_letters (s : string) : bool :=
  match s with
  | EmptyString => true
  | String c r => (Ascii.nat_of_ascii c <? 65)%nat && below_letters r
  end.

(** A JSON object. *)
Definition is_dict (c : pyobj) : Prop :=
  match c with ODict _ => True | OVal _ => False end.

(** A record whose description can be sliced: a dict whose [course_desc]
    is absent, a string or a list. *)
Definition desc_sliceable (c : pyobj) : Prop :=
  match c with
  | ODict d => match d !! "course_desc" with
               | None | Some (VStr _) | Some (VList _) => True
               | Some _ => False
               end
  | OVal _ => False
  end.

(** The events of failed attempts that are each followed by a sleep. *)
Definition failed_events (p : prompt) (sleeps : list Z) : list event :=
  flat_map (fun secs => [EvGenerate p; EvSleep secs]) sleeps.

(** The record lists of a sequence of artifacts only grow: each is a prefix
    of every later one. *)
Definition growing (docs : list artifact) : Prop :=
  forall i j di dj, i <= j -> docs !! i = Some di -> docs !! j = Some dj ->
    exists ri rj, records_of di = Some ri /\ records_of dj = Some rj /\
                  ri `prefix_of` rj.

(** The natural key as the data model has it, case-normalized: the
    lower-cased texts of [course_prefix] and [course_number]. *)
Definition normalized_key (course : pyobj)
    : option (option string * option string) :=
  match course with
  | ODict d =>
      Some (lower ∘ py_str <$> d !! "course_prefix",
            lower ∘ py_str <$> d !! "course_number")
  | OVal _ => None
  end.

(** How many records of [courses] have the case-normalized key [k]. *)
Definition count_normalized (k : option string * option string)
    (courses : list pyobj) : nat :=
  length (filter (fun c => normalized_key c = Some k) courses).

End HonoluluSpec.

Module KauaiSpec.
Import Py Eff Kauai.

(** The natural key of a record. *)
Definition natural_key (c : course) : string * string :=
  (course_prefix c, course_number c).

Definition count_key (k : string * string) (courses : list course) : nat :=
  length (filter (fun c => natural_key c = k) courses).

(** The departments extracted in a trace, in order. *)
Definition departments (tr : list event) : list string :=
  omap (fun ev => match ev with
                  | EvDepartment dept_url => Some dept_url
                  | _ => None
                  end) tr.

(** The record lists written in a trace. *)
Definition saved (tr : list event) : list (list course) :=
  omap (fun ev => match ev with
                  | EvSave _ data _ => Some data
                  | _ => None
                  end) tr.

(** What holds of the world between any two steps of [crawl_courses]. *)
Record invariant (w : world) : Prop := {
  inv_keys : NoDup (course_key <$> all_courses w);
  inv_seen : forall k, k ∈ seen_courses w <-> k ∈ course_key <$> all_courses w;
  inv_once : NoDup (departments (trace w));
  inv_visited : forall u, u ∈ departments (trace w) -> u ∈ visited_dept_urls w;
  inv_saved : Forall (fun data => NoDup (course_key <$> data)) (saved (trace w))
}.

(** Department links accepted but not yet extracted. *)
Definition pending (valid : list string) (w : world) : Prop :=
  NoDup valid /\
  forall u, u ∈ valid -> u ∈ visited_dept_urls w /\ u ∉ departments (trace w).

(** A department whose browser starts and quits: its extraction returns. *)
Definition department_ok (department : string -> dept_session) (u : string)
    : bool :=
  dept_starts (department u) && dept_quits (department u).

End KauaiSpec.

Module ManoaSpec.
Import Py Eff Manoa.

(** The natural key of a record. *)
Definition natural_key (c : course) : option string * option string :=
  (course_prefix c, course_number c).

Definition count_key (k : option string * option string) (courses : list course)
    : nat :=
  length (filter (fun c => natural_key c = k) courses).

(** The units submitted to the pool in a trace: catalog page and URL. *)
Definition submitted (tr : list event) : list (Z * string) :=
  omap (fun ev => match ev with
                  | EvSubmit page_num course_url => Some (page_num, course_url)
                  | _ => None
                  end) tr.

(** The record a unit yields on its own: the one its worker returns, none
    when the worker returns [None] or raises. *)
Definition unit_record (render : Z -> string -> session) (unit : Z * string)
    : option course :=
  match (extract_single_course (render unit.1 unit.2) unit.2).1 with
  | Return (Some c) => Some c
  | _ => None
  end.

(** The failure of a unit is reported with its URL. *)
Definition failure_logged (render : Z -> string -> session) (unit : Z * string)
    (tr : list event) : Prop :=
  match (extract_single_course (render unit.1 unit.2) unit.2).1 with
  | Return (Some _) => True
  | Return None => EvLog (LogFailedToParse unit.2) ∈ tr
  | Raise _ => EvLog (LogErrorProcessing unit.2) ∈ tr
  end.


(** How often a URL was submitted in a trace. *)
Definition submissions (course_url : string) (tr : list event) : nat :=
  length (filter (fun unit => unit.2 = course_url) (submitted tr)).

(** The record lists written in a trace, in order. *)
Definition saved (tr : list event) : list (list course) :=
  omap (fun ev => match ev with
                  | EvSave _ data _ => Some data
                  | _ => None
                  end) tr.

(** The record lists [datas] only grow, up to [final]: each is a prefix of
    every later one, and of [final]. *)
Definition growing_to (datas : list (list course)) (final : list course)
    : Prop :=
  forall i j di dj, i <= j -> datas !! i = Some di -> datas !! j = Some dj ->
    di `prefix_of` dj /\ dj `prefix_of` final.

(** The worker of a unit raises: its browser does not start or does not
    quit. *)
Definition worker_raises (render : Z -> string -> session) (unit : Z * string)
    : Prop :=
  match (extract_single_course (render unit.1 unit.2) unit.2).1 with
  | Raise _ => True
  | Return _ => False
  end.

End ManoaSpec.

(** ** A catalog page of the Kauai crawler with a department that fails *)

Module KauaiScenario.
Import Py Eff Kauai.

Definition accounting : link :=
  {| href := "/accounting-acc"; link_text := "Accounting (ACC)" |}.
Definition art : link := {| href := "/art-art"; link_text := "Art (ART)" |}.
Definition biology : link :=
  {| href := "/biology-biol"; link_text := "Biology (BIOL)" |}.

(** Every catalog page lists the same three departments. *)
Definition catalog_three (page_num : Z) : outcome (list link) :=
  Return [accounting; art; biology].

(** The browser for the Art page does not start. *)
Definition department_art_fails (dept_url : string) : dept_session :=
  {| dept_starts := negb (String.eqb dept_url "/art-art");
     dept_courses := [];
     dept_quits := true |}.

End KauaiScenario.

(** ** Two runs of the Manoa crawler *)

Module ManoaScenario.
Import Py Eff Manoa.

Definition prefix : string := "https://catalog/preview_course_nopop.php?coid=".
Definition url1 : string := "https://catalog/preview_course_nopop.php?coid=1".
Definition url2 : string := "https://catalog/preview_course_nopop.php?coid=2".

Definition ics111 (url : string) : course :=
  {| course_prefix := Some "ICS"; course_number := Some "111";
     course_title := Some "Intro to Computer Science I";
     course_desc := Some "Programming."; num_units := Some "4";
     dept_name := None; metadata := []; source_url := url;
     extraction_timestamp := "2025-01-01 00:00:00" |}.

Definition healthy (c : course) : session :=
  {| starts := true; page_result := Return (Some c); quits := true |}.

(** First run: one catalog page lists two URLs that show the same course. *)
Definition catalog_two_urls (page_num : Z) : outcome (list (option string)) :=
  Return [Some url1; Some url2].
Definition render_same_course (page_num : Z) (url : string) : session :=
  healthy (ics111 url).

Definition run_two_urls : outcome unit * world :=
  crawl_courses catalog_two_urls render_same_course (fun _ l => l)
    (fun _ => true) true true prefix "extracted.json" 0 0 50 initial_world.

(** Second run: catalog pages 0 and 1 both list [url1]; the browser of the
    worker for [url1] fails to start on page 0. *)
Definition catalog_same_url (page_num : Z) : outcome (list (option string)) :=
  Return [Some url1].
Definition render_browser_fails_once (page_num : Z) (url : string) : session :=
  if (page_num =? 0)%Z
  then {| starts := false; page_result := Return None; quits := true |}
  else healthy (ics111 url).

Definition run_same_url : outcome unit * world :=
  crawl_courses catalog_same_url render_browser_fails_once (fun _ l => l)
    (fun _ => true) true true prefix "extracted.json" 0 1 50 initial_world.




End ManoaScenario.

(** ** A two-page run of the PDF extractor

    Page 1 yields ACC 124 with an empty description and ACC 125; the repair
    call that the empty description triggers returns text that does not
    parse. Page 2, which is given both records as overlap, yields ACC 124
    again with its description filled in. *)

Module HonoluluScenario.
Import Py Eff Honolulu.

Definition mk_course (prefix number title desc : string) : pyobj :=
  ODict (<["course_prefix" := VStr prefix]>
         (<["course_number" := VStr number]>
          (<["course_title" := VStr title]>
           (<["course_desc" := VStr desc]> ∅)))).

Definition acc124_partial : pyobj := mk_course "ACC" "124" "X" "".
Definition acc124_updated : pyobj := mk_course "ACC" "124" "X" "Intro to accounting".
Definition acc125 : pyobj := mk_course "ACC" "125" "Y" "Managerial accounting".

(** The generation service: the answers to the calls, in order. *)
Definition generate (n : nat) (p : prompt) : outcome string :=
  match n with
  | 0 => Return "```json PAGE1 ```"
  | 1 => Return "I cannot help with that"
  | 2 => Return "PAGE2"
  | _ => Raise OtherError
  end.

(** [json.loads] on the texts of the scenario. *)
Definition json_loads (s : string) : option parsed :=
  if String.eqb s "PAGE1" then Some (PList [acc124_partial; acc125])
  else if String.eqb s "PAGE2" then Some (PList [acc124_updated])
  else None.

Definition read_pdf (path : string) : pdf_reader :=
  {| with_fitz :=
       Read ["ACC 124 X ... ACC 125 Y"; "(continued) Intro to accounting"];
     with_pdfplumber := ImportFails |}.

Definition write_ok (n : nat) : bool := true.
Definition now (n : nat) : string := "2025-01-01T00:00:00".
Definition call_body (name : string) (arg : pyobj) : M world bool := ret true.

Definition run : outcome bool * world :=
  extract_courses_from_pdf generate json_loads read_pdf write_ok now call_body
    true "catalog/courses.pdf" "courses_extracted.json" initial_world.

Definition pages : list page :=
  [ {| page_number := 1; text := "ACC 124 X ... ACC 125 Y" |};
    {| page_number := 2; text := "(continued) Intro to accounting" |} ].

(** The page loop of the run, and the loop variables it ends with. *)
Definition after_loop : outcome loop_state * world :=
  page_loop generate json_loads write_ok now "catalog/courses.pdf"
    "courses_extracted.json" 2 pages 1 initial_loop_state initial_world.

Definition state_after_loop : loop_state :=
  match after_loop.1 with
  | Return s => s
  | Raise _ => initial_loop_state
  end.

(** A service that never answers, and one whose answers never parse. *)
Definition generate_down (n : nat) (p : prompt) : outcome string := Raise OtherError.
Definition generate_prose (n : nat) (p : prompt) : outcome string :=
  Return "Sorry, no courses here.".

Definition page_one : page := {| page_number := 1; text := "ACC 124 X" |}.

(** A record whose description came back as JSON [null]. *)
Definition acc201_null_desc : pyobj :=
  ODict (<["course_prefix" := VStr "ACC"]>
         (<["course_number" := VStr "201"]>
          (<["course_title" := VStr "Z"]>
           (<["course_desc" := VNone]> ∅)))).

Definition state_with_null_desc : loop_state :=
  {| all_courses := [acc125; acc201_null_desc];
     context_pages := []; recent_courses := [] |}.

(** A service that fails once and then answers. *)
Definition generate_flaky (n : nat) (p : prompt) : outcome string :=
  match n with
  | 0 => Raise OtherError
  | _ => Return "PAGE2"
  end.

(** A run on a one-page PDF whose page shows the same course under
    [ACC 125] and under [acc 125]. *)
Definition acc125_lower_case : pyobj :=
  mk_course "acc" "125" "Y" "Managerial accounting".

Definition generate_two_cases (n : nat) (p : prompt) : outcome string :=
  Return "CASES".

Definition json_loads_two_cases (s : string) : option parsed :=
  if String.eqb s "CASES" then Some (PList [acc125; acc125_lower_case])
  else None.

Definition read_one_page (path : string) : pdf_reader :=
  {| with_fitz := Read ["ACC 125 Y ... acc 125 Y"];
     with_pdfplumber := ImportFails |}.

Definition run_two_cases : outcome bool * world :=
  extract_courses_from_pdf generate_two_cases json_loads_two_cases
    read_one_page write_ok now call_body true "catalog/courses.pdf"
    "courses_extracted.json" initial_world.

(** The one page of this run, and the loop variables after it. *)
Definition page_two_cases : page :=
  {| page_number := 1; text := "ACC 125 Y ... acc 125 Y" |}.

Definition after_page_two_cases : outcome loop_state * world :=
  process_page generate_two_cases json_loads_two_cases write_ok now
    "catalog/courses.pdf" "courses_extracted.json" 1 1 page_two_cases
    initial_loop_state initial_world.

Definition state_two_cases : loop_state :=
  match after_page_two_cases.1 with
  | Return s => s
  | Raise _ => initial_loop_state
  end.

End HonoluluScenario.

(** * Properties *)

(** ** Rules for [satisfies] *)

Module LogicFacts.
Import Py Eff Logic.

Section Rules.
Context {W E : Type} (trace_of : W -> list E).
Implicit Types (Q : E -> Prop) (w : W).

Lemma extends_refl Q w : extends trace_of Q w w.
Proof. exists []. by rewrite app_nil_r. Qed.

Lemma extends_trans Q w1 w2 w3 :
  extends trace_of Q w1 w2 -> extends trace_of Q w2 w3 ->
  extends trace_of Q w1 w3.
Proof.
  intros (t1 & E1 & F1) (t2 & E2 & F2). exists (t1 ++ t2). split.
  - by rewrite E2, E1, app_assoc.
  - by apply Forall_app.
Qed.

Lemma extends_weaken (Q Q' : E -> Prop) w w' :
  (forall ev, Q ev -> Q' ev) ->
  extends trace_of Q w w' -> extends trace_of Q' w w'.
Proof.
  intros HQ (t & Et & Ft). exists t. split; [done|].
  eapply Forall_impl; eauto.
Qed.

Lemma satisfies_ret {A} (a : A) Q (R : A -> Prop) :
  R a -> satisfies trace_of (ret a) Q R.
Proof.
  intros HR w. split; [apply extends_refl|]. simpl. by intros ? [= <-].
Qed.

Lemma satisfies_raise {A} e Q (R : A -> Prop) :
  satisfies trace_of (raise e) Q R.
Proof. intros w. split; [apply extends_refl|]. simpl. by intros ? [=]. Qed.

Lemma satisfies_lift {A} (o : outcome A) Q (R : A -> Prop) :
  (forall a, o = Return a -> R a) -> satisfies trace_of (lift o) Q R.
Proof. intros HR w. split; [apply extends_refl|]. simpl. auto. Qed.

Lemma satisfies_bind {A B} (c : M W A) (k : A -> M W B) Q
    (R1 : A -> Prop) (R2 : B -> Prop) :
  satisfies trace_of c Q R1 ->
  (forall a, R1 a -> satisfies trace_of (k a) Q R2) ->
  satisfies trace_of (bind c k) Q R2.
Proof.
  intros Hc Hk w. unfold bind. specialize (Hc w).
  destruct (c w) as [[a|e] w1]; simpl in *.
  - destruct Hc as [Hext HR]. specialize (Hk a (HR a eq_refl) w1).
    destruct Hk as [Hext2 HR2]. split; [|done].
    eapply extends_trans; eauto.
  - destruct Hc as [Hext _]. split; [done|]. by intros ? [=].
Qed.

Lemma satisfies_try {A} (c : M W A) (h : exn -> M W A) Q (R : A -> Prop) :
  satisfies trace_of c Q R ->
  (forall e, satisfies trace_of (h e) Q R) ->
  satisfies trace_of (try_except c h) Q R.
Proof.
  intros Hc Hh w. unfold try_except. specialize (Hc w).
  destruct (c w) as [[a|e] w1]; simpl in *; [done|].
  destruct Hc as [Hext _]. destruct (Hh e w1) as [Hext2 HR2].
  split; [|done]. eapply extends_trans; eauto.
Qed.

Lemma satisfies_weaken {A} (c : M W A) (Q Q' : E -> Prop) (R R' : A -> Prop) :
  (forall ev, Q ev -> Q' ev) -> (forall a, R a -> R' a) ->
  satisfies trace_of c Q R -> satisfies trace_of c Q' R'.
Proof.
  intros HQ HR Hc w. destruct (Hc w) as [Hext Hr]. split.
  - eapply extends_weaken; eauto.
  - auto.
Qed.
End Rules.

End LogicFacts.

(** ** The PDF extractor *)

Module HonoluluFacts.
Import Py Eff Logic LogicFacts Honolulu HonoluluSpec.

(** *** De-duplication *)

Lemma course_key_dict d :
  course_key (ODict d) =
  Return (py_str (default (VStr "") (d !! "course_prefix")) +:+ "-" +:+
          py_str (default (VStr "") (d !! "course_number"))).
Proof. reflexivity. Qed.

Lemma course_key_is_dict c k : course_key c = Return k -> exists d, c = ODict d.
Proof. destruct c as [d|v]; [eauto | discriminate]. Qed.

(** Equal natural keys give equal de-duplication keys. *)
Lemma course_key_natural c1 c2 k1 k2 :
  course_key c1 = Return k1 -> course_key c2 = Return k2 ->
  natural_key c1 = natural_key c2 -> k1 = k2.
Proof.
  intros H1 H2 Hn.
  destruct (course_key_is_dict _ _ H1) as [d1 ->].
  destruct (course_key_is_dict _ _ H2) as [d2 ->].
  rewrite course_key_dict in H1, H2. simpl in Hn.
  injection Hn as Hp Hnum. rewrite Hp, Hnum in H1. congruence.
Qed.

(** [extract_courses_from_pdf], by what the reading of the PDF gives. *)
Lemma extract_courses_from_pdf_unfold generate json_loads read_pdf write_ok now
    call_body api_key_set pdf_path output_path w :
  extract_courses_from_pdf generate json_loads read_pdf write_ok now call_body
    api_key_set pdf_path output_path w =
  if api_key_set then
    match extract_text_from_pdf read_pdf pdf_path with
    | Raise e => (Raise e, w)
    | Return None | Return (Some []) => (Return false, w)
    | Return (Some pages_text) =>
        (let total_pages := Z.of_nat (length pages_text) in
         let! s := page_loop generate json_loads write_ok now pdf_path
                     output_path total_pages pages_text 1
                     initial_loop_state in
         let! validated_courses :=
           final_validation call_body (all_courses s) [] in
         let! ts := timestamp_now now in
         write_output write_ok output_path
           (final_output_data validated_courses pdf_path total_pages ts)) w
    end
  else (Return false, w).
Proof.
  unfold extract_courses_from_pdf. destruct api_key_set; [|done].
  change (negb true) with false. cbv iota. unfold bind at 1, lift.
  by destruct (extract_text_from_pdf read_pdf pdf_path) as [[[|pg rest]|]|e].
Qed.

Lemma key_unique_nil : key_unique [].
Proof. exists []. split; constructor. Qed.

(** The loop keeps [unique_courses] as a prefix and keeps keys distinct. *)
Lemma dedup_loop_unique courses : forall seen unique_courses ks res,
  Forall2 (fun c k => course_key c = Return k) unique_courses ks ->
  NoDup ks -> (forall k, k ∈ seen <-> k ∈ ks) ->
  dedup_loop courses seen unique_courses = Return res ->
  key_unique res /\ unique_courses `prefix_of` res.
Proof.
  induction courses as [|c rest IH]; intros seen u ks res HF HN Hseen Hres.
  - simpl in Hres. injection Hres as <-. split; [by exists ks | done].
  - simpl in Hres. destruct (course_key c) as [k|e] eqn:Hk; [|discriminate].
    destruct (decide (k ∈ seen)) as [Hin|Hnin].
    + eapply IH; eauto.
    + destruct (IH ({[k]} ∪ seen) (u ++ [c]) (ks ++ [k]) res) as [HU HP]; auto.
      * apply Forall2_app; [done | by repeat constructor].
      * apply NoDup_app. split; [done|]. split; [|apply NoDup_singleton].
        intros x Hx Hx'. apply list_elem_of_singleton in Hx'. subst x.
        apply Hnin, Hseen, Hx.
      * intros x. rewrite elem_of_union, elem_of_singleton, elem_of_app,
          list_elem_of_singleton, Hseen. tauto.
      * split; [done|]. etrans; [|exact HP]. by apply prefix_app_r.
Qed.

Lemma deduplicate_courses_unique courses res :
  deduplicate_courses courses = Return res -> key_unique res.
Proof.
  intros H. eapply (dedup_loop_unique courses ∅ [] []); eauto.
  - constructor.
  - set_solver.
Qed.

(** A key-unique list is left as it is, whatever follows it. *)
Lemma dedup_loop_app_unique l1 : forall l2 seen unique_courses ks,
  Forall2 (fun c k => course_key c = Return k) l1 ks ->
  NoDup ks -> (forall k, k ∈ ks -> k ∉ seen) ->
  dedup_loop (l1 ++ l2) seen unique_courses =
  dedup_loop l2 (list_to_set ks ∪ seen) (unique_courses ++ l1).
Proof.
  induction l1 as [|c l1 IH]; intros l2 seen u ks HF HN Hfresh.
  - inversion HF; subst. simpl. rewrite app_nil_r.
    by replace ((∅ : gset string) ∪ seen) with seen by set_solver.
  - inversion HF as [|? k ? ks' Hk HF']; subst. simpl. rewrite Hk.
    apply NoDup_cons in HN as [Hk' HN'].
    destruct (decide (k ∈ seen)) as [Hin|_].
    { exfalso. eapply Hfresh; [|exact Hin]. set_solver. }
    rewrite (IH l2 ({[k]} ∪ seen) (u ++ [c]) ks'); auto.
    + rewrite <- app_assoc. simpl. f_equal. set_solver.
    + intros x Hx. rewrite elem_of_union, elem_of_singleton.
      intros [->|Hs]; [done|]. eapply Hfresh; [|exact Hs]. set_solver.
Qed.

(** First occurrence wins: the records already accumulated survive a later
    de-duplication unchanged and in place, whatever the new page brought. *)
Lemma deduplicate_courses_keeps_first accumulated items res :
  key_unique accumulated ->
  deduplicate_courses (accumulated ++ items) = Return res ->
  accumulated `prefix_of` res.
Proof.
  intros (ks & HF & HN) Hres. unfold deduplicate_courses in Hres.
  rewrite (dedup_loop_app_unique accumulated items ∅ [] ks) in Hres; auto.
  2: set_solver.
  simpl in Hres.
  eapply (dedup_loop_unique items _ accumulated ks); eauto.
  intros k. rewrite elem_of_union, elem_of_list_to_set. set_solver.
Qed.

(** In a key-unique list at most one record has a given natural key. *)
Lemma key_unique_count courses k :
  key_unique courses -> count_key k courses <= 1.
Proof.
  intros (ks & HF & HN). unfold count_key.
  induction HF as [|c kc l ks' Hc HF IH]; [simpl; lia|].
  apply NoDup_cons in HN as [Hnot HN]. specialize (IH HN).
  rewrite filter_cons. destruct (decide (natural_key c = Some k)) as [Hk|]; [|lia].
  assert (filter (fun c => natural_key c = Some k) l = []) as ->; [|simpl; lia].
  destruct (filter _ l) as [|c' t] eqn:Hf; [done|]. exfalso.
  assert (c' ∈ filter (fun c => natural_key c = Some k) l) as Hin
    by (rewrite Hf; left).
  apply list_elem_of_filter in Hin as [Hk' Hc'].
  apply Hnot.
  destruct (proj1 (list_elem_of_lookup _ _) Hc') as [i Hi].
  destruct (Forall2_lookup_l _ _ _ _ _ HF Hi) as (k' & Hki & Hck).
  rewrite (course_key_natural c c' kc k' Hc Hck); [|congruence].
  eapply list_elem_of_lookup_2; eauto.
Qed.

(** *** What the functions add to the trace *)

(** A step whose returned value needs no property. *)
Ltac bind_any tac :=
  eapply (satisfies_bind _ _ _ _ (fun _ => True)); [tac|].

Section Traces.
Variable generate : nat -> prompt -> outcome string.
Variable json_loads : string -> option parsed.
Variable read_pdf : string -> pdf_reader.
Variable write_ok : nat -> bool.
Variable now : nat -> string.
Variable call_body : string -> pyobj -> M world bool.

(** A property of events that calls of the service and sleeps have. *)
Variable Q : event -> Prop.
Hypothesis Q_generate : forall p, Q (EvGenerate p).
Hypothesis Q_sleep : forall secs, Q (EvSleep secs).

Abbreviation sat := (satisfies trace).

Lemma sat_emit ev : Q ev -> sat (emit ev) Q (fun _ => True).
Proof.
  intros HQ w. split; [|done]. exists [ev]. split; [done|]. by constructor.
Qed.

Lemma sat_generate_content p :
  sat (generate_content generate p) Q (fun _ => True).
Proof.
  intros w. split; [|done]. exists [EvGenerate p]. split; [done|].
  by constructor.
Qed.

Lemma sat_loads s : sat (loads json_loads s) Q (fun _ => True).
Proof.
  unfold loads. destruct (json_loads s).
  - by apply satisfies_ret.
  - apply satisfies_raise.
Qed.

Lemma sat_validate_and_fix_courses courses ctx recent :
  sat (validate_and_fix_courses generate json_loads courses ctx recent) Q
    (fun _ => True).
Proof.
  unfold validate_and_fix_courses. destruct courses as [|c l].
  { by apply satisfies_ret. }
  bind_any ltac:(by apply satisfies_lift). intros fixing _.
  destruct fixing; simpl; [|by apply satisfies_ret].
  apply satisfies_try; [|intros; by apply satisfies_ret].
  bind_any ltac:(apply sat_generate_content). intros t _.
  bind_any ltac:(apply sat_loads). intros f _.
  by apply satisfies_ret.
Qed.

Lemma sat_attempt_body pg ctx recent overlap :
  sat (attempt_body generate json_loads pg ctx recent overlap) Q (fun _ => True).
Proof.
  unfold attempt_body.
  bind_any ltac:(by apply satisfies_lift). intros p _.
  bind_any ltac:(apply sat_generate_content). intros t _.
  bind_any ltac:(apply sat_loads). intros c _.
  bind_any ltac:(apply sat_validate_and_fix_courses). intros c' _.
  bind_any ltac:(by apply satisfies_lift). intros n _.
  by apply satisfies_ret.
Qed.

Lemma sat_attempts n : forall attempt max_retries body,
  sat body Q (fun _ => True) ->
  sat (attempts n attempt max_retries body) Q (fun _ => True).
Proof.
  induction n as [|n IH]; intros attempt max_retries body Hbody; simpl.
  { by apply satisfies_ret. }
  apply satisfies_try; [done|]. intros e.
  destruct (attempt =? max_retries - 1)%Z; [by apply satisfies_ret|].
  bind_any ltac:(apply sat_emit, Q_sleep). intros _ _.
  by apply IH.
Qed.

Lemma sat_extract_courses_from_page pg ctx recent overlap max_retries :
  sat (extract_courses_from_page generate json_loads pg ctx recent overlap
         max_retries) Q (fun _ => True).
Proof. apply sat_attempts, sat_attempt_body. Qed.

Lemma sat_save_incremental_results all pdf_path output_path i total :
  (forall ts ok,
      Q (EvWrite output_path
           (incremental_output_data all pdf_path i total ts) ok)) ->
  sat (save_incremental_results write_ok now all pdf_path output_path i total)
    Q (fun _ => True).
Proof.
  intros HQ w. split; [|done].
  eexists [_]. split; [reflexivity|]. constructor; [apply HQ|constructor].
Qed.
End Traces.

Section PageLoop.
Variable generate : nat -> prompt -> outcome string.
Variable json_loads : string -> option parsed.
Variable write_ok : nat -> bool.
Variable now : nat -> string.
Variables (pdf_path output_path : string) (total_pages : Z).

Lemma sat_process_page i pg s :
  key_unique (all_courses s) ->
  satisfies trace
    (process_page generate json_loads write_ok now pdf_path output_path
       total_pages i pg s)
    (checkpoint_of_pages pdf_path output_path total_pages i 1)
    (fun s' => key_unique (all_courses s')).
Proof.
  intros Hu. unfold process_page.
  bind_any ltac:(by apply sat_extract_courses_from_page).
  intros courses _.
  eapply (satisfies_bind _ _ _ _ (fun u => key_unique u.1)).
  { destruct (truthy courses); [|by apply satisfies_ret].
    bind_any ltac:(by apply satisfies_lift). intros items _.
    eapply satisfies_bind.
    - apply satisfies_lift. intros a Ha. exact (deduplicate_courses_unique _ _ Ha).
    - intros d Hd. by apply satisfies_ret. }
  intros [all' recent'] Hall. simpl in Hall. simpl.
  eapply satisfies_bind.
  - apply sat_save_incremental_results; [done..|].
    intros ts ok. split; [done|]. exists i, all', ts. split; [lia|done].
  - intros _ _. by apply satisfies_ret.
Qed.

Lemma sat_page_loop pages : forall i s,
  key_unique (all_courses s) ->
  satisfies trace
    (page_loop generate json_loads write_ok now pdf_path output_path
       total_pages pages i s)
    (checkpoint_of_pages pdf_path output_path total_pages i (length pages))
    (fun s' => key_unique (all_courses s')).
Proof.
  induction pages as [|pg rest IH]; intros i s Hu; simpl.
  { by apply satisfies_ret. }
  eapply satisfies_bind.
  - eapply satisfies_weaken; [| |by apply sat_process_page]; [|done].
    intros [] HQ; simpl in *; try done.
    destruct HQ as (-> & j & l & ts & ? & ? & ->).
    split; [done|]. exists j, l, ts. split; [lia|done].
  - intros s' Hs'. eapply satisfies_weaken; [| |by apply IH]; [|done].
    intros [] HQ; simpl in *; try done.
    destruct HQ as (-> & j & l & ts & ? & ? & ->).
    split; [done|]. exists j, l, ts. split; [lia|done].
Qed.
End PageLoop.

(** *** The checkpoints of the page loop, one by one *)

Lemma written_app tr1 tr2 : written (tr1 ++ tr2) = written tr1 ++ written tr2.
Proof. apply omap_app. Qed.

Lemma written_no_write tr :
  Forall (fun ev => is_write ev = false) tr -> written tr = [].
Proof.
  induction 1 as [|ev tr Hev _ IH]; [done|].
  destruct ev; simpl in *; try done.
Qed.

Lemma incremental_output_data_shape all pdf_path i T ts :
  (i <= T)%Z ->
  checkpoint_shape pdf_path i T (incremental_output_data all pdf_path i T ts).
Proof.
  intros Hi. repeat split; simpl; eauto.
  exists (if (i <? T)%Z then "in_progress" else "complete").
  split; [done|]. destruct (Z.ltb_spec i T); split; split; (done || lia).
Qed.

(** The final write, reached only with an empty course list, is not a
    checkpoint: its metadata has no [pages_processed] entry and its status is
    always [complete]. *)
Lemma final_output_data_shape validated pdf_path T ts :
  (final_output_data validated pdf_path T ts).*1 = ["metadata"; "courses"] /\
  assoc "pages_processed"
    (metadata_of (final_output_data validated pdf_path T ts)) = None /\
  assoc "status" (metadata_of (final_output_data validated pdf_path T ts)) =
    Some (VStr "complete").
Proof. by repeat split. Qed.

Section Checkpoints.
Variable generate : nat -> prompt -> outcome string.
Variable json_loads : string -> option parsed.
Variable write_ok : nat -> bool.
Variable now : nat -> string.
Variables (pdf_path output_path : string) (total_pages : Z).

(** A page that is processed to its end writes one checkpoint, for its
    own index; a page whose processing raises writes none. *)
Lemma process_page_written i pg s w :
  let rw := process_page generate json_loads write_ok now pdf_path
              output_path total_pages i pg s w in
  exists tr, trace rw.2 = trace w ++ tr /\
    match rw.1 with
    | Return _ =>
        exists all ts,
          written tr = [incremental_output_data all pdf_path i total_pages ts]
    | Raise _ => written tr = []
    end.
Proof.
  unfold process_page, bind.
  set (c1 := extract_courses_from_page _ _ _ _ _ _ _).
  destruct (sat_extract_courses_from_page generate json_loads
              (fun ev => is_write ev = false) (fun _ => eq_refl)
              (fun _ => eq_refl) pg
              match context_pages s with [] => [] | _ :: _ => lastn 3 (context_pages s) end
              match recent_courses s with [] => [] | _ :: _ => lastn 5 (recent_courses s) end
              (if (2 <=? length (all_courses s))%nat
               then Some (lastn 2 (all_courses s)) else None) 3 w)
    as [(tr1 & Htr1 & Hnw) _].
  fold c1 in Htr1. destruct (c1 w) as [[courses|e] w1]; simpl in *.
  2: { exists tr1. split; [done|]. by apply written_no_write. }
  assert (forall (u : list pyobj * list pyobj),
    exists tr, trace
      (let (o, w') := save_incremental_results write_ok now u.1 pdf_path
                        output_path i total_pages w1 in
       match o with
       | Return a => ret (A := loop_state)
           {| all_courses := u.1;
              context_pages :=
                if (3 <? length (context_pages s ++ [pg]))%nat
                then lastn 3 (context_pages s ++ [pg])
                else context_pages s ++ [pg];
              recent_courses :=
                if (5 <? length u.2)%nat then lastn 5 u.2 else u.2 |} w'
       | Raise e => (Raise e, w')
       end).2 = trace w ++ tr /\
      exists all ts,
        written tr = [incremental_output_data all pdf_path i total_pages ts])
    as Hsave.
  { intros u. simpl. eexists (tr1 ++ [_]). split.
    - rewrite Htr1, <- app_assoc. reflexivity.
    - rewrite written_app, (written_no_write tr1 Hnw). simpl. eauto. }
  destruct (truthy courses).
  - unfold lift. destruct (py_iter courses) as [items|e]; simpl.
    2: { exists tr1. split; [done|]. by apply written_no_write. }
    destruct (deduplicate_courses _) as [d|e]; simpl.
    2: { exists tr1. split; [done|]. by apply written_no_write. }
    apply (Hsave (d, recent_courses s ++ items)).
  - apply (Hsave (all_courses s, recent_courses s)).
Qed.

(** The [k]-th checkpoint of the loop is the one of page [i + k]; a loop
    that runs to its end writes one checkpoint per page. *)
Lemma page_loop_written pages : forall i s w,
  let rw := page_loop generate json_loads write_ok now pdf_path output_path
              total_pages pages i s w in
  exists tr, trace rw.2 = trace w ++ tr /\
    length (written tr) <= length pages /\
    (forall s', rw.1 = Return s' -> length (written tr) = length pages) /\
    forall k doc, written tr !! k = Some doc ->
      exists all ts,
        doc = incremental_output_data all pdf_path (i + Z.of_nat k)
                total_pages ts.
Proof.
  induction pages as [|pg rest IH]; intros i s w; simpl.
  { exists []. rewrite app_nil_r. repeat split; try done. }
  unfold bind.
  destruct (process_page_written i pg s w) as (tr1 & Htr1 & Hw1).
  destruct (process_page _ _ _ _ _ _ _ i pg s w) as [[s1|e] w1]; simpl in *.
  - destruct Hw1 as (all & ts & Hw1).
    destruct (IH (i + 1)%Z s1 w1) as (tr2 & Htr2 & Hlen & Hfull & Hk).
    exists (tr1 ++ tr2). rewrite written_app, Hw1. simpl.
    split; [by rewrite Htr2, Htr1, app_assoc|].
    split; [lia|]. split.
    + intros s' Hs'. by rewrite (Hfull s' Hs').
    + intros [|k] doc Hdoc; simpl in Hdoc.
      * injection Hdoc as <-. exists all, ts.
        by replace (i + Z.of_nat 0)%Z with i by lia.
      * destruct (Hk k doc Hdoc) as (a & t & ->). exists a, t.
        by replace (i + Z.of_nat (S k))%Z with (i + 1 + Z.of_nat k)%Z by lia.
  - exists tr1. rewrite Hw1. simpl. split; [done|]. split; [lia|].
    split; [done|]. intros k doc Hk. by rewrite lookup_nil in Hk.
Qed.
Lemma page_loop_cons pg rest i s w :
  page_loop generate json_loads write_ok now pdf_path output_path total_pages
    (pg :: rest) i s w =
  match process_page generate json_loads write_ok now pdf_path output_path
          total_pages i pg s w with
  | (Return s', w') =>
      page_loop generate json_loads write_ok now pdf_path output_path
        total_pages rest (i + 1) s' w'
  | (Raise e, w') => (Raise e, w')
  end.
Proof. reflexivity. Qed.

(** The checkpoint of a page holds the course list that the loop carries
    on to the next page. *)
Lemma process_page_saves_state i pg s w :
  let rw := process_page generate json_loads write_ok now pdf_path
              output_path total_pages i pg s w in
  exists tr, trace rw.2 = trace w ++ tr /\
    match rw.1 with
    | Return s' =>
        exists ts,
          written tr =
            [incremental_output_data (all_courses s') pdf_path i total_pages ts]
    | Raise _ => written tr = []
    end.
Proof.
  unfold process_page, bind.
  set (c1 := extract_courses_from_page _ _ _ _ _ _ _).
  destruct (sat_extract_courses_from_page generate json_loads
              (fun ev => is_write ev = false) (fun _ => eq_refl)
              (fun _ => eq_refl) pg
              match context_pages s with [] => [] | _ :: _ => lastn 3 (context_pages s) end
              match recent_courses s with [] => [] | _ :: _ => lastn 5 (recent_courses s) end
              (if (2 <=? length (all_courses s))%nat
               then Some (lastn 2 (all_courses s)) else None) 3 w)
    as [(tr1 & Htr1 & Hnw) _].
  fold c1 in Htr1. destruct (c1 w) as [[courses|e] w1]; simpl in *.
  2: { exists tr1. split; [done|]. by apply written_no_write. }
  assert (forall (u : list pyobj * list pyobj),
    let r :=
      (let (o, w') := save_incremental_results write_ok now u.1 pdf_path
                        output_path i total_pages w1 in
       match o with
       | Return a => ret (A := loop_state)
           {| all_courses := u.1;
              context_pages :=
                if (3 <? length (context_pages s ++ [pg]))%nat
                then lastn 3 (context_pages s ++ [pg])
                else context_pages s ++ [pg];
              recent_courses :=
                if (5 <? length u.2)%nat then lastn 5 u.2 else u.2 |} w'
       | Raise e => (Raise e, w')
       end) in
    exists tr, trace r.2 = trace w ++ tr /\
      match r.1 with
      | Return s' =>
          exists ts,
            written tr =
              [incremental_output_data (all_courses s') pdf_path i
                 total_pages ts]
      | Raise _ => written tr = []
      end)
    as Hsave.
  { intros u. simpl. eexists (tr1 ++ [_]). split.
    - rewrite Htr1, <- app_assoc. reflexivity.
    - rewrite written_app, (written_no_write tr1 Hnw). simpl. eauto. }
  destruct (truthy courses).
  - unfold lift. destruct (py_iter courses) as [items|e]; simpl.
    2: { exists tr1. split; [done|]. by apply written_no_write. }
    destruct (deduplicate_courses _) as [d|e]; simpl.
    2: { exists tr1. split; [done|]. by apply written_no_write. }
    apply (Hsave (d, recent_courses s ++ items)).
  - apply (Hsave (all_courses s, recent_courses s)).
Qed.

(** A page that is processed to its end ends with the write of its
    checkpoint, which holds the course list that the loop carries on. *)
Lemma process_page_last_write i pg s w s' w' :
  process_page generate json_loads write_ok now pdf_path output_path
    total_pages i pg s w = (Return s', w') ->
  exists tr0 ts ok,
    trace w' =
      trace w ++ tr0 ++
      [EvWrite output_path
         (incremental_output_data (all_courses s') pdf_path i total_pages ts)
         ok] /\
    written tr0 = [].
Proof.
  unfold process_page, bind.
  set (c1 := extract_courses_from_page _ _ _ _ _ _ _).
  destruct (sat_extract_courses_from_page generate json_loads
              (fun ev => is_write ev = false) (fun _ => eq_refl)
              (fun _ => eq_refl) pg
              match context_pages s with [] => [] | _ :: _ => lastn 3 (context_pages s) end
              match recent_courses s with [] => [] | _ :: _ => lastn 5 (recent_courses s) end
              (if (2 <=? length (all_courses s))%nat
               then Some (lastn 2 (all_courses s)) else None) 3 w)
    as [(tr1 & Htr1 & Hnw) _].
  fold c1 in Htr1. destruct (c1 w) as [[courses|e] w1]; simpl in *;
    [|discriminate].
  assert (forall (u : list pyobj * list pyobj),
    (let (o, w'') := save_incremental_results write_ok now u.1 pdf_path
                       output_path i total_pages w1 in
     match o with
     | Return a => ret (A := loop_state)
         {| all_courses := u.1;
            context_pages :=
              if (3 <? length (context_pages s ++ [pg]))%nat
              then lastn 3 (context_pages s ++ [pg])
              else context_pages s ++ [pg];
            recent_courses :=
              if (5 <? length u.2)%nat then lastn 5 u.2 else u.2 |} w''
     | Raise e => (Raise e, w'')
     end) = (Return s', w') ->
    exists tr0 ts ok,
      trace w' =
        trace w ++ tr0 ++
        [EvWrite output_path
           (incremental_output_data (all_courses s') pdf_path i total_pages ts)
           ok] /\
      written tr0 = [])
    as Hsave.
  { intros u. simpl. intros [= <- <-]. simpl.
    exists tr1, (now (saves w1)), (write_ok (saves w1)).
    split; [by rewrite Htr1, <- app_assoc|]. by apply written_no_write. }
  destruct (truthy courses).
  - unfold lift. destruct (py_iter courses) as [items|e]; simpl;
      [|discriminate].
    destruct (deduplicate_courses _) as [d|e]; simpl; [|discriminate].
    apply (Hsave (d, recent_courses s ++ items)).
  - apply (Hsave (all_courses s, recent_courses s)).
Qed.

(** The [k]-th checkpoint of the loop is the last thing written when the
    first [k + 1] pages are done, and it holds the course list accumulated
    over these pages. *)
Lemma page_loop_checkpoints pages : forall i s w,
  let rw := page_loop generate json_loads write_ok now pdf_path output_path
              total_pages pages i s w in
  exists tr, trace rw.2 = trace w ++ tr /\
    forall k doc, written tr !! k = Some doc ->
      exists s_k w_k tr_k ts,
        page_loop generate json_loads write_ok now pdf_path output_path
          total_pages (take (S k) pages) i s w = (Return s_k, w_k) /\
        trace w_k = trace w ++ tr_k /\
        written tr_k = take (S k) (written tr) /\
        doc = incremental_output_data (all_courses s_k) pdf_path
                (i + Z.of_nat k) total_pages ts.
Proof.
  induction pages as [|pg rest IH]; intros i s w.
  { exists []. simpl. rewrite app_nil_r. split; [done|].
    intros k doc Hk. by rewrite lookup_nil in Hk. }
  cbv zeta. rewrite page_loop_cons.
  destruct (process_page_saves_state i pg s w) as (tr1 & Htr1 & Hw1).
  destruct (process_page _ _ _ _ _ _ _ i pg s w) as [[s1|e] w1] eqn:Hpp;
    simpl in Htr1, Hw1.
  - destruct Hw1 as (ts & Hw1).
    destruct (IH (i + 1)%Z s1 w1) as (tr2 & Htr2 & Hk).
    exists (tr1 ++ tr2). rewrite written_app, Hw1.
    split; [by rewrite Htr2, Htr1, app_assoc|].
    intros [|k] doc Hdoc; simpl in Hdoc.
    + injection Hdoc as <-. exists s1, w1, tr1, ts.
      cbn [take]. rewrite page_loop_cons, Hpp. simpl.
      split; [done|]. split; [done|]. split; [by rewrite Hw1|].
      by replace (i + Z.of_nat 0)%Z with i by lia.
    + destruct (Hk k doc Hdoc) as (s_k & w_k & tr_k & t & Hrun & Ht & Hwr & ->).
      exists s_k, w_k, (tr1 ++ tr_k), t.
      cbn [take]. rewrite page_loop_cons, Hpp.
      split; [exact Hrun|].
      split; [by rewrite Ht, Htr1, app_assoc|].
      split; [by rewrite written_app, Hw1, Hwr|].
      by replace (i + Z.of_nat (S k))%Z with (i + 1 + Z.of_nat k)%Z by lia.
  - exists tr1. rewrite Hw1. split; [done|].
    intros k doc Hk. by rewrite lookup_nil in Hk.
Qed.
End Checkpoints.

(** C9. The [k]-th checkpoint that the page loop of [extract_courses_from_pdf]
    saves (counting from 0) is the one saved after page [i = k + 1] of [T]:
    its top-level members are exactly [metadata] and the record sequence
    (spelled [courses] in the file), the metadata carries the source file,
    [T], [i], the record count, a timestamp and the status, and the status is
    [in_progress] exactly when [i < T] and [complete] exactly when [i = T].
    The record sequence is the course list that the loop has accumulated
    over the pages [1..i], in its order, the record count is its length,
    and the checkpoint is the last of the [i] artifacts written when page
    [i] is done. A loop that runs to its end saves one checkpoint per
    page. *)
Theorem checkpoint_after_every_page
    (generate : nat -> prompt -> outcome string)
    (json_loads : string -> option parsed)
    (write_ok : nat -> bool) (now : nat -> string)
    (pdf_path output_path : string) (pages : list page) (w : world) :
  let T := Z.of_nat (length pages) in
  let rw := page_loop generate json_loads write_ok now pdf_path output_path
              T pages 1 initial_loop_state w in
  exists tr, trace rw.2 = trace w ++ tr /\
    (forall s', rw.1 = Return s' -> length (written tr) = length pages) /\
    forall k doc, written tr !! k = Some doc ->
      (1 <= Z.of_nat k + 1 <= T)%Z /\
      checkpoint_shape pdf_path (Z.of_nat k + 1) T doc /\
      exists s_k w_k tr_k,
        page_loop generate json_loads write_ok now pdf_path output_path T
          (take (S k) pages) 1 initial_loop_state w = (Return s_k, w_k) /\
        trace w_k = trace w ++ tr_k /\
        written tr_k = take (S k) (written tr) /\
        records_of doc = Some (all_courses s_k) /\
        assoc "total_courses" (metadata_of doc) =
          Some (VInt (Z.of_nat (length (all_courses s_k)))).
Proof.
  intros T rw.
  destruct (page_loop_written generate json_loads write_ok now pdf_path
              output_path T pages 1 initial_loop_state w)
    as (tr & Htr & Hlen & Hfull & Hk).
  destruct (page_loop_checkpoints generate json_loads write_ok now pdf_path
              output_path T pages 1 initial_loop_state w)
    as (tr' & Htr' & Hk').
  assert (tr' = tr) as ->.
  { apply (app_inv_head (trace w)).
    transitivity (trace rw.2); [symmetry; exact Htr'|exact Htr]. }
  exists tr. split; [done|]. split; [done|].
  intros k doc Hdoc.
  assert (k < length pages) as Hlt.
  { apply lookup_lt_Some in Hdoc. lia. }
  destruct (Hk' k doc Hdoc) as (s_k & w_k & tr_k & ts & Hrun & Ht & Hwr & ->).
  split; [unfold T; lia|]. split.
  - replace (1 + Z.of_nat k)%Z with (Z.of_nat k + 1)%Z by lia.
    apply incremental_output_data_shape. unfold T. lia.
  - by exists s_k, w_k, tr_k.
Qed.

(** *** The undefined name of the final validation loop *)

(** C4. [validate_and_fix_course] is bound nowhere in the module (only
    [validate_and_fix_courses] is). In every run whose page loop ends with
    a non-empty course list, the first iteration of the final validation
    loop raises [NameError]: [extract_courses_from_pdf] raises it too,
    returns neither [True] nor [False], and the world is the one the page
    loop left, so the final write is never attempted. *)
Theorem final_validation_name_error
    (generate : nat -> prompt -> outcome string)
    (json_loads : string -> option parsed)
    (read_pdf : string -> pdf_reader)
    (write_ok : nat -> bool) (now : nat -> string)
    (call_body : string -> pyobj -> M world bool)
    (pdf_path output_path : string) (pages : list page)
    (s : loop_state) (w : world) :
  let after_loop :=
    page_loop generate json_loads write_ok now pdf_path output_path
      (Z.of_nat (length pages)) pages 1 initial_loop_state w in
  extract_text_from_pdf read_pdf pdf_path = Return (Some pages) ->
  after_loop.1 = Return s ->
  all_courses s <> [] ->
  name_bound "validate_and_fix_course" = false /\
  name_bound "validate_and_fix_courses" = true /\
  extract_courses_from_pdf generate json_loads read_pdf write_ok now call_body
    true pdf_path output_path w
  = (Raise (NameError "validate_and_fix_course"), after_loop.2).
Proof.
  intros after_loop Hpdf Hloop Hne. split; [reflexivity|]. split; [reflexivity|].
  unfold extract_courses_from_pdf.
  change (negb true) with false. cbv iota.
  unfold bind at 1, lift. rewrite Hpdf.
  destruct pages as [|pg rest].
  { simpl in Hloop. injection Hloop as <-. by destruct Hne. }
  unfold bind at 1. fold after_loop.
  destruct after_loop as [[s'|e] w1]; [|discriminate].
  simpl in Hloop. injection Hloop as ->.
  destruct (all_courses s) as [|c l]; [by destruct Hne|].
  reflexivity.
Qed.

Lemma final_validation_name_error_witness :
  HonoluluScenario.run =
  (Raise (NameError "validate_and_fix_course"), HonoluluScenario.after_loop.2).
Proof.
  refine (proj2 (proj2 (final_validation_name_error HonoluluScenario.generate
    HonoluluScenario.json_loads HonoluluScenario.read_pdf
    HonoluluScenario.write_ok HonoluluScenario.now HonoluluScenario.call_body
    "catalog/courses.pdf" "courses_extracted.json" HonoluluScenario.pages
    HonoluluScenario.state_after_loop initial_world _ _ _))).
  - reflexivity.
  - vm_compute. reflexivity.
  - vm_compute. discriminate.
Defined.

(** *** The retry loop *)

Lemma generate_count_retry_events p sleeps :
  generate_count (retry_events p sleeps) = S (length sleeps).
Proof.
  unfold generate_count. induction sleeps as [|s r IH]; [done|].
  cbn [retry_events]. rewrite !filter_cons. simpl. by rewrite IH.
Qed.

Section Retry.
Variable generate : nat -> prompt -> outcome string.
Variable json_loads : string -> option parsed.
Variables (pg : page) (ctx : list page) (recent : list pyobj)
          (overlap : option (list pyobj)) (p : prompt).
Hypothesis prompt_built : create_gemini_prompt pg ctx recent overlap = Return p.

(** Every event is a call or a sleep. *)
Lemma attempt_body_fails w :
  attempt_fails json_loads (generate (gen_calls w) p) ->
  exists e,
    attempt_body generate json_loads pg ctx recent overlap w =
    (Raise e, {| gen_calls := S (gen_calls w); saves := saves w;
                 trace := trace w ++ [EvGenerate p] |}).
Proof.
  intros Hfail. unfold attempt_body, bind, lift. rewrite prompt_built.
  unfold generate_content. unfold attempt_fails in Hfail.
  destruct (generate (gen_calls w) p) as [t|e]; [|by eexists].
  unfold loads. rewrite Hfail. by eexists.
Qed.

Lemma attempts_all_fail n : forall attempt max_retries w,
  (attempt + Z.of_nat n = max_retries)%Z ->
  (forall k, k < n ->
     attempt_fails json_loads (generate (gen_calls w + k) p)) ->
  let rw := attempts n attempt max_retries
              (attempt_body generate json_loads pg ctx recent overlap) w in
  rw.1 = Return (PList []) /\
  gen_calls rw.2 = gen_calls w + n /\
  match n with
  | O => trace rw.2 = trace w
  | S n' => exists sleeps,
      trace rw.2 = trace w ++ retry_events p sleeps /\
      length sleeps = n' /\ Forall (fun secs => (1 <= secs)%Z) sleeps
  end.
Proof.
  induction n as [|n IH]; intros attempt max_retries w Hsum Hfail.
  { simpl. split; [done|]. split; [lia|done]. }
  simpl. unfold try_except.
  destruct (attempt_body_fails w) as [e ->].
  { rewrite <- (Nat.add_0_r (gen_calls w)). apply Hfail. lia. }
  destruct (Z.eqb_spec attempt (max_retries - 1)) as [Hlast|Hmore].
  - assert (n = 0) as -> by lia. simpl.
    split; [done|]. split; [lia|]. exists []. by repeat split.
  - destruct n as [|n]; [lia|].
    unfold bind, sleep, emit. cbn [gen_calls saves trace].
    set (secs := match e with JSONDecodeError => 1%Z | _ => 2%Z end).
    set (w2 := {| gen_calls := _; saves := _; trace := _ |}).
    destruct (IH (attempt + 1)%Z max_retries w2) as (Hr & Hc & sl & Ht & Hl & Hs).
    { lia. }
    { intros k Hk. subst w2. cbn [gen_calls].
      replace (S (gen_calls w) + k) with (gen_calls w + S k) by lia.
      apply Hfail. lia. }
    split; [done|]. split; [rewrite Hc; subst w2; simpl; lia|].
    exists (secs :: sl). split; [|split].
    + rewrite Ht. subst w2. simpl. by rewrite <- !app_assoc.
    + simpl. by rewrite Hl.
    + constructor; [|done]. subst secs. destruct e; lia.
Qed.
End Retry.

(** C5. When the prompt of the unit can be built and every attempt fails,
    at the generation call (a transport error) or at the parse of its text
    (a malformed response), [extract_courses_from_page] calls the service
    exactly [max_retries] times, sleeps at least one second between two
    consecutive attempts and not after the last, and returns the empty list:
    no exception reaches the caller. *)
Theorem retry_ceiling
    (generate : nat -> prompt -> outcome string)
    (json_loads : string -> option parsed)
    (pg : page) (ctx : list page) (recent : list pyobj)
    (overlap : option (list pyobj)) (p : prompt) (max_retries : Z) (w : world) :
  (0 <= max_retries)%Z ->
  create_gemini_prompt pg ctx recent overlap = Return p ->
  (forall k, k < Z.to_nat max_retries ->
     attempt_fails json_loads (generate (gen_calls w + k) p)) ->
  let rw := extract_courses_from_page generate json_loads pg ctx recent overlap
              max_retries w in
  rw.1 = Return (PList []) /\
  exists tr,
    trace rw.2 = trace w ++ tr /\
    Z.of_nat (generate_count tr) = max_retries /\
    (max_retries = 0%Z -> tr = []) /\
    ((0 < max_retries)%Z ->
     exists sleeps,
       tr = retry_events p sleeps /\
       Z.of_nat (length sleeps) = (max_retries - 1)%Z /\
       Forall (fun secs => (1 <= secs)%Z) sleeps).
Proof.
  intros Hpos Hprompt Hfail rw. subst rw. unfold extract_courses_from_page.
  destruct (attempts_all_fail generate json_loads pg ctx recent overlap p
              Hprompt (Z.to_nat max_retries) 0 max_retries w)
    as (Hr & _ & Ht); [lia|done|].
  split; [exact Hr|].
  destruct (Z.to_nat max_retries) as [|n] eqn:Hn.
  - exists []. rewrite app_nil_r. split; [exact Ht|].
    split; [change (generate_count []) with 0; lia|].
    split; [done|]. lia.
  - destruct Ht as (sl & Ht & Hl & Hs). exists (retry_events p sl).
    split; [exact Ht|]. rewrite generate_count_retry_events.
    split; [lia|]. split; [lia|]. intros _. exists sl.
    split; [done|]. split; [lia|done].
Qed.

Lemma retry_ceiling_witness :
  (extract_courses_from_page HonoluluScenario.generate_prose
     HonoluluScenario.json_loads HonoluluScenario.page_one [] [] None 3
     initial_world).1 = Return (PList []).
Proof.
  refine (proj1 (retry_ceiling HonoluluScenario.generate_prose
                   HonoluluScenario.json_loads HonoluluScenario.page_one [] []
                   None _ 3 initial_world _ _ _)).
  - lia.
  - reflexivity.
  - intros k _. reflexivity.
Defined.

(** *** The repair pass *)

Lemma pretty_N_char_below x :
  (Ascii.nat_of_ascii (pretty_N_char x) <? 65)%nat = true.
Proof. unfold pretty_N_char. by repeat case_match. Qed.

Lemma pretty_N_go_below x : forall s,
  below_letters s = true -> below_letters (pretty_N_go x s) = true.
Proof.
  induction x as [x IH] using (well_founded_induction N.lt_wf_0). intros s Hs.
  destruct (decide (0 < x)%N) as [Hx|Hx].
  - rewrite pretty_N_go_step by done. apply IH.
    + by apply N.div_lt.
    + simpl. by rewrite pretty_N_char_below.
  - assert (x = 0%N) as -> by lia. by rewrite pretty_N_go_0.
Qed.

Lemma pretty_Z_below (z : Z) : below_letters (pretty z) = true.
Proof.
  destruct z as [|x|x]; [done| |].
  - unfold pretty, pretty_Z, pretty, pretty_positive, pretty, pretty_N.
    destruct (decide _); [done|]. by apply pretty_N_go_below.
  - unfold pretty, pretty_Z, pretty, pretty_positive, pretty, pretty_N.
    destruct (decide _); [done|]. simpl. by apply pretty_N_go_below.
Qed.

Lemma lower_below s : below_letters s = true -> lower s = s.
Proof.
  induction s as [|c r IH]; [done|]. simpl. intros [Hc Hr]%andb_true_iff.
  rewrite (IH Hr). unfold lower_ascii.
  apply Nat.ltb_lt in Hc.
  destruct (Nat.leb_spec 65 (Ascii.nat_of_ascii c)); [lia|done].
Qed.

(** The rendering of an integer is none of the placeholder tokens. *)
Lemma pretty_Z_no_token (z : Z) :
  lower (pretty z) ∉ ["unknown"; "null"; "n/a"].
Proof.
  rewrite (lower_below _ (pretty_Z_below z)). intros Hin.
  pose proof (pretty_Z_below z) as Hb.
  repeat (apply elem_of_cons in Hin as [Heq|Hin];
          [rewrite Heq in Hb; discriminate|]).
  by apply elem_of_nil in Hin.
Qed.

(** The rendering of a float and of a list is none of the tokens either:
    a float begins with a sign or a digit or is [nan] or [inf], a list
    begins with a bracket. *)
Lemma float_str_no_token (f : float) :
  lower (float_str f) ∉ ["unknown"; "null"; "n/a"].
Proof.
  intros Hin.
  destruct f as [|[]|[] [] rest];
    repeat (apply elem_of_cons in Hin as [Heq|Hin];
            [vm_compute in Heq; discriminate|]);
    by apply elem_of_nil in Hin.
Qed.

Lemma list_str_no_token (shown : string) :
  lower ("[" +:+ shown) ∉ ["unknown"; "null"; "n/a"].
Proof.
  intros Hin.
  repeat (apply elem_of_cons in Hin as [Heq|Hin];
          [vm_compute in Heq; discriminate|]).
  by apply elem_of_nil in Hin.
Qed.

(** The test of the code is the test of the specification. *)
Lemma field_needs_fixing_spec v : field_needs_fixing v = true <-> placeholder v.
Proof.
  unfold field_needs_fixing, placeholder. split.
  - intros H. destruct v as [|b|z|f|s|shown].
    + by left.
    + by destruct b.
    + simpl in H. rewrite bool_decide_eq_true in H.
      by apply pretty_Z_no_token in H.
    + simpl in H. rewrite bool_decide_eq_true in H.
      by apply float_str_no_token in H.
    + destruct (decide (s = "")) as [->|Hs]; [by right; left|].
      right; right. exists s. split; [done|].
      simpl in H. rewrite (bool_decide_eq_false_2 _) in H by congruence.
      simpl in H. by apply bool_decide_eq_true in H.
    + exfalso. apply (list_str_no_token shown).
      simpl in H. discriminate.
  - intros [->|[->|(s & -> & Hs)]]; [done..|].
    simpl. rewrite (bool_decide_eq_true_2 _ Hs). by rewrite orb_true_r.
Qed.

Lemma dict_needs_fixing_spec (d : gmap string value) :
  existsb (fun kv => field_needs_fixing kv.2) (map_to_list d) = true <->
  exists key v, d !! key = Some v /\ placeholder v.
Proof.
  rewrite existsb_exists. split.
  - intros ([k v] & Hin & Hv). exists k, v. split.
    + by apply elem_of_map_to_list, list_elem_of_In.
    + by apply field_needs_fixing_spec.
  - intros (k & v & Hk & Hv). exists (k, v). split.
    + by apply list_elem_of_In, elem_of_map_to_list.
    + by apply field_needs_fixing_spec.
Qed.

Lemma needs_fixing_spec (ds : list (gmap string value)) :
  exists b, needs_fixing (ODict <$> ds) = Return b /\
            (b = true <-> has_placeholder ds).
Proof.
  induction ds as [|d ds (b & Hb & Hiff)].
  { exists false. split; [done|]. split; [done|].
    intros (d & ? & ? & Hd & _). by apply elem_of_nil in Hd. }
  simpl. destruct (existsb _ (map_to_list d)) eqn:Hd.
  - exists true. split; [done|]. split; [|done]. intros _.
    apply dict_needs_fixing_spec in Hd as (k & v & Hk & Hv).
    exists d, k, v. split; [left|done].
  - exists b. split; [done|]. rewrite Hiff. split.
    + intros (d' & k & v & Hin & Hk & Hv). exists d', k, v.
      split; [by right|done].
    + intros (d' & k & v & Hin & Hk & Hv).
      apply elem_of_cons in Hin as [->|Hin].
      * assert (existsb (fun kv => field_needs_fixing kv.2) (map_to_list d) = true)
          as Ht by (apply dict_needs_fixing_spec; eauto).
        congruence.
      * exists d', k, v. done.
Qed.

(** The two paths of [validate_and_fix_courses] on a non-empty list whose
    scan ends. *)
Lemma validate_and_fix_courses_paths
    (generate : nat -> prompt -> outcome string)
    (json_loads : string -> option parsed)
    (courses : list pyobj) (ctx : list page) (recent : list pyobj)
    (fixing : bool) (w : world) :
  courses <> [] ->
  needs_fixing courses = Return fixing ->
  let repair := RepairPrompt courses (lastn 3 ctx) (lastn 5 recent) in
  let rw := validate_and_fix_courses generate json_loads courses ctx recent w in
  rw =
  if fixing then
    (match generate (gen_calls w) repair with
     | Return response_text =>
         match json_loads (clean_response response_text) with
         | Some fixed => Return fixed
         | None => Return (PList courses)
         end
     | Raise _ => Return (PList courses)
     end,
     {| gen_calls := S (gen_calls w); saves := saves w;
        trace := trace w ++ [EvGenerate repair] |})
  else (Return (PList courses), w).
Proof.
  intros Hne Hscan. destruct courses as [|c l]; [done|].
  intros repair rw. subst rw. unfold validate_and_fix_courses.
  unfold bind at 1, lift. rewrite Hscan. destruct fixing; [|done].
  change (negb true) with false. unfold try_except, bind, generate_content.
  fold repair. cbv beta iota.
  destruct (generate (gen_calls w) repair) as [t|e]; [|done].
  unfold loads. by destruct (json_loads (clean_response t)).
Qed.

(** C8. [validate_and_fix_courses] on a parsed list of records. When some
    field value is null, the empty string, or one of the tokens [unknown],
    [null], [n/a] up to case, exactly one repair call is made, with the
    records and the context (the last three pages and the last five recent
    records); if that call raises or its text does not parse, the records
    are returned unchanged, and if it parses, the parsed value is returned.
    When no field is a placeholder, the records are returned as they are and
    the world is unchanged: no call is made. *)
Theorem repair_pass
    (generate : nat -> prompt -> outcome string)
    (json_loads : string -> option parsed)
    (ds : list (gmap string value)) (ctx : list page) (recent : list pyobj)
    (w : world) :
  let courses := ODict <$> ds in
  let repair := RepairPrompt courses (lastn 3 ctx) (lastn 5 recent) in
  let rw := validate_and_fix_courses generate json_loads courses ctx recent w in
  (has_placeholder ds ->
     trace rw.2 = trace w ++ [EvGenerate repair] /\
     gen_calls rw.2 = S (gen_calls w) /\
     (attempt_fails json_loads (generate (gen_calls w) repair) ->
      rw.1 = Return (PList courses)) /\
     (forall response_text fixed,
        generate (gen_calls w) repair = Return response_text ->
        json_loads (clean_response response_text) = Some fixed ->
        rw.1 = Return fixed)) /\
  (~ has_placeholder ds -> rw = (Return (PList courses), w)).
Proof.
  intros courses repair rw.
  destruct ds as [|d ds'].
  { split; [|done]. intros (d & ? & ? & Hd & _). by apply elem_of_nil in Hd. }
  destruct (needs_fixing_spec (d :: ds')) as (b & Hb & Hiff).
  pose proof (validate_and_fix_courses_paths generate json_loads courses ctx
                recent b w) as H.
  specialize (H ltac:(done) Hb). fold repair rw in H. split.
  - intros Hp. apply Hiff in Hp. subst b. rewrite H. cbn [fst snd trace gen_calls].
    split; [done|]. split; [done|]. split.
    + unfold attempt_fails. intros Hf.
      destruct (generate (gen_calls w) repair); [by rewrite Hf|done].
    + intros t f Hg Hj. by rewrite Hg, Hj.
  - intros Hnp. destruct b; [|done]. destruct Hnp. by apply Hiff.
Qed.


(** *** Overlap: the first observation of a key wins *)

(** Processing a page never changes or removes a record accumulated
    before it: the new list starts with the old one. *)
Lemma process_page_keeps_accumulated
    (generate : nat -> prompt -> outcome string)
    (json_loads : string -> option parsed)
    (write_ok : nat -> bool) (now : nat -> string)
    (pdf_path output_path : string) (total_pages i : Z) (pg : page)
    (s : loop_state) :
  key_unique (all_courses s) ->
  satisfies trace
    (process_page generate json_loads write_ok now pdf_path output_path
       total_pages i pg s)
    (fun _ => True)
    (fun s' => all_courses s `prefix_of` all_courses s').
Proof.
  intros Hu. unfold process_page.
  bind_any ltac:(by apply sat_extract_courses_from_page). intros courses _.
  eapply (satisfies_bind _ _ _ _ (fun u => all_courses s `prefix_of` u.1)).
  { destruct (truthy courses); [|by apply satisfies_ret].
    bind_any ltac:(by apply satisfies_lift). intros items _.
    eapply satisfies_bind.
    - apply satisfies_lift. intros a Ha.
      exact (deduplicate_courses_keeps_first _ _ _ Hu Ha).
    - intros d Hd. by apply satisfies_ret. }
  intros [all' recent'] Hall. simpl in Hall. simpl.
  bind_any ltac:(by apply sat_save_incremental_results). intros _ _.
  by apply satisfies_ret.
Qed.

(** C1, on the two-page run. Page 2 receives the partial ACC 124 record in
    its overlap and the service answers with the record completed, under
    the same natural key; the list committed by the last checkpoint still
    holds the partial record with the empty description, once, and not the
    update. *)
Theorem overlap_update_dropped :
  trace HonoluluScenario.run.2 !! 3 =
    Some (EvGenerate
            (ExtractionPrompt
               {| page_number := 2; text := "(continued) Intro to accounting" |}
               [{| page_number := 1; text := "ACC 124 X ... ACC 125 Y" |}]
               [HonoluluScenario.acc124_partial; HonoluluScenario.acc125]
               (Some [HonoluluScenario.acc124_partial; HonoluluScenario.acc125]))) /\
  HonoluluScenario.generate 2
    (ExtractionPrompt
       {| page_number := 2; text := "(continued) Intro to accounting" |}
       [{| page_number := 1; text := "ACC 124 X ... ACC 125 Y" |}]
       [HonoluluScenario.acc124_partial; HonoluluScenario.acc125]
       (Some [HonoluluScenario.acc124_partial; HonoluluScenario.acc125]))
    = Return "PAGE2" /\
  HonoluluScenario.json_loads (clean_response "PAGE2") =
    Some (PList [HonoluluScenario.acc124_updated]) /\
  natural_key HonoluluScenario.acc124_updated =
    natural_key HonoluluScenario.acc124_partial /\
  last_written (trace HonoluluScenario.run.2) ≫= records_of =
    Some [HonoluluScenario.acc124_partial; HonoluluScenario.acc125] /\
  HonoluluScenario.acc124_updated <> HonoluluScenario.acc124_partial.
Proof.
  repeat split; try (vm_compute; reflexivity).
  vm_compute. discriminate.
Qed.

Lemma repair_pass_witness :
  (validate_and_fix_courses HonoluluScenario.generate_down
     HonoluluScenario.json_loads (ODict <$> [{["course_desc" := VStr ""]}])
     [] [] initial_world).1
  = Return (PList (ODict <$> [{["course_desc" := VStr ""]}])).
Proof.
  refine (proj1 (proj2 (proj2 (proj1
    (repair_pass HonoluluScenario.generate_down HonoluluScenario.json_loads
       [{["course_desc" := VStr ""]}] [] [] initial_world) _))) _).
  - exists {["course_desc" := VStr ""]}, "course_desc", (VStr "").
    split; [left|]. split; [apply lookup_singleton_eq|]. right. by left.
  - exact I.
Defined.

Lemma checkpoint_after_every_page_witness :
  exists doc,
    written (trace HonoluluScenario.after_loop.2) !! 1 = Some doc /\
    checkpoint_shape "catalog/courses.pdf" 2 2 doc.
Proof.
  destruct (checkpoint_after_every_page HonoluluScenario.generate
              HonoluluScenario.json_loads HonoluluScenario.write_ok
              HonoluluScenario.now "catalog/courses.pdf"
              "courses_extracted.json" HonoluluScenario.pages initial_world)
    as (tr & Htr & _ & Hk).
  change (trace initial_world ++ tr) with tr in Htr.
  eexists. split; [vm_compute; reflexivity|].
  refine (proj1 (proj2 (Hk 1 _ _))). rewrite <- Htr. vm_compute. reflexivity.
Defined.

End HonoluluFacts.

(** ** The Kauai crawler *)

Module KauaiFacts.
Import Py Eff Kauai KauaiSpec.

Lemma departments_app tr1 tr2 :
  departments (tr1 ++ tr2) = departments tr1 ++ departments tr2.
Proof. apply omap_app. Qed.

Lemma saved_app tr1 tr2 : saved (tr1 ++ tr2) = saved tr1 ++ saved tr2.
Proof. apply omap_app. Qed.

Lemma invariant_initial : invariant initial_world.
Proof. split; simpl; try constructor; set_solver. Qed.

(** Distinct keys give at most one record per natural key. *)
Lemma keys_count (courses : list course) k :
  NoDup (course_key <$> courses) -> count_key k courses <= 1.
Proof.
  unfold count_key. induction courses as [|c l IH]; [simpl; lia|].
  rewrite fmap_cons. intros [Hc Hl]%NoDup_cons. specialize (IH Hl).
  rewrite filter_cons. destruct (decide (natural_key c = k)) as [Hk|]; [|lia].
  assert (filter (fun c => natural_key c = k) l = []) as ->; [|simpl; lia].
  destruct (filter _ l) as [|c' t] eqn:Hf; [done|]. exfalso.
  assert (c' ∈ filter (fun c => natural_key c = k) l) as Hin
    by (rewrite Hf; left).
  apply list_elem_of_filter in Hin as [Hk' Hc']. apply Hc.
  apply list_elem_of_fmap. exists c'. split; [|done].
  unfold course_key. unfold natural_key in Hk, Hk'. congruence.
Qed.

Section Program.
Variable catalog_page : Z -> outcome (list link).
Variable department : string -> dept_session.
Variable write_ok : bool.
Variable driver_starts driver_quits : bool.

Lemma add_courses_invariant courses : forall w,
  invariant w ->
  let w' := (add_courses courses w).2 in
  invariant w' /\ trace w' = trace w /\
  visited_dept_urls w' = visited_dept_urls w.
Proof.
  induction courses as [|c rest IH]; intros w Hw; simpl; [done|].
  case_bool_decide as Hseen; [by apply IH|].
  set (w1 := {| all_courses := _ |}).
  destruct (IH w1) as (Hinv & Ht & Hv); [|done].
  destruct Hw as [Hk Hs Ho Hvis Hsv]. split; simpl; try done.
  - rewrite fmap_app. apply NoDup_app. split; [done|].
    split; [|apply NoDup_singleton].
    intros x Hx ->%list_elem_of_singleton. by apply Hseen, Hs.
  - intros k. rewrite fmap_app, elem_of_union, elem_of_singleton,
      elem_of_app, Hs. simpl. rewrite list_elem_of_singleton. tauto.
Qed.

Lemma extract_department_courses_trace dept_url w :
  let rw := extract_department_courses department dept_url w in
  trace rw.2 = trace w ++ [EvDepartment dept_url] /\
  all_courses rw.2 = all_courses w /\
  seen_courses rw.2 = seen_courses w /\
  visited_dept_urls rw.2 = visited_dept_urls w.
Proof.
  unfold extract_department_courses, bind, emit. simpl.
  destruct (dept_starts _); simpl; [|done].
  by destruct (dept_quits _).
Qed.

(** Extracting the pending departments keeps the invariant, whether the
    loop ends or an exception leaves it. *)
Lemma visit_departments_invariant valid : forall w,
  invariant w -> pending valid w ->
  invariant (visit_departments department valid w).2.
Proof.
  induction valid as [|u rest IH]; intros w Hw [Hnd Hpend]; simpl; [done|].
  apply NoDup_cons in Hnd as [Hu Hrest].
  destruct (Hpend u) as [Huv Hud]; [left|].
  unfold bind at 1.
  destruct (extract_department_courses_trace u w) as (Ht & Ha & Hs & Hv).
  destruct (extract_department_courses department u w) as [r w1] eqn:Hx.
  simpl in Ht, Ha, Hs, Hv.
  assert (invariant w1) as Hw1.
  { destruct Hw as [Hk Hse Ho Hvis Hsv]. split.
    - by rewrite Ha.
    - by rewrite Ha, Hs.
    - rewrite Ht, departments_app. simpl. apply NoDup_app.
      split; [done|]. split; [|apply NoDup_singleton].
      by intros x Hx' ->%list_elem_of_singleton.
    - intros x. rewrite Ht, departments_app, elem_of_app, Hv. simpl.
      rewrite list_elem_of_singleton. intros [?| ->]; auto.
    - rewrite Ht, saved_app. simpl. by rewrite app_nil_r. }
  destruct r as [courses|e]; [|done].
  unfold bind.
  destruct (add_courses_invariant courses w1 Hw1) as (Hw2 & Ht2 & Hv2).
  destruct (add_courses courses w1) as [r2 w2]. simpl in *.
  destruct r2 as [[]|e]; [|done].
  apply IH; [done|]. split; [done|]. intros x Hxr.
  destruct (Hpend x) as [Hxv Hxd]; [by right|].
  rewrite Hv2, Hv, Ht2, Ht, departments_app, elem_of_app. simpl.
  rewrite list_elem_of_singleton. split; [done|].
  intros [?| ->]; done.
Qed.

(** The filter accepts a link once: what it accepts is pending. *)
Lemma collect_department_links_pending links : forall valid w,
  invariant w -> pending valid w ->
  let rw := collect_department_links links valid w in
  invariant rw.2 /\ exists valid', rw.1 = Return valid' /\ pending valid' rw.2.
Proof.
  induction links as [|l rest IH]; intros valid w Hw Hp; simpl.
  { split; [done|]. by exists valid. }
  destruct (_ && negb (bool_decide _)) eqn:Hcond; [|by apply IH].
  apply andb_true_iff in Hcond as [_ Hnv].
  apply negb_true_iff, bool_decide_eq_false in Hnv.
  destruct Hw as [Hk Hse Ho Hvis Hsv]. destruct Hp as [Hnd Hpend].
  apply IH.
  - split; simpl; try done. intros u Hu. apply elem_of_union. right. auto.
  - split.
    + apply NoDup_app. split; [done|]. split; [|apply NoDup_singleton].
      intros x Hx ->%list_elem_of_singleton. by destruct (Hpend _ Hx).
    + intros u [Hu| ->%list_elem_of_singleton]%elem_of_app; simpl.
      * destruct (Hpend u Hu). split; [set_solver|done].
      * split; [set_solver|]. intros Hd. by apply Hnv, Hvis.
Qed.

Lemma process_catalog_page_invariant page_num w :
  invariant w ->
  let rw := process_catalog_page catalog_page department page_num w in
  invariant rw.2 /\ rw.1 = Return ().
Proof.
  intros Hw. unfold process_catalog_page, try_except, bind, lift.
  destruct (catalog_page page_num) as [links|e]; [|done].
  destruct (collect_department_links_pending links [] w Hw)
    as (Hw1 & valid & Hr & Hp).
  { split; [constructor|]. intros u Hu. by apply elem_of_nil in Hu. }
  destruct (collect_department_links links [] w) as [r w1]. simpl in *.
  subst r.
  pose proof (visit_departments_invariant valid w1 Hw1 Hp) as Hw2.
  destruct (visit_departments department valid w1) as [[[]|e] w2]; done.
Qed.

Lemma page_loop_invariant pages : forall w,
  invariant w ->
  let rw := page_loop catalog_page department pages w in
  invariant rw.2 /\ rw.1 = Return ().
Proof.
  induction pages as [|p rest IH]; intros w Hw; simpl; [done|].
  unfold bind.
  destruct (process_catalog_page_invariant p w Hw) as [Hw1 Hr].
  destruct (process_catalog_page catalog_page department p w) as [r w1].
  simpl in *. subst r. by apply IH.
Qed.

(** Whatever the run meets, it ends in a world that satisfies the
    invariant, and when the catalog browser starts the record list is
    saved once, at the end. *)
Lemma crawl_courses_invariant output_file start_page end_page :
  let rw := crawl_courses catalog_page department write_ok driver_starts
              driver_quits output_file start_page end_page initial_world in
  invariant rw.2 /\
  (driver_starts = true ->
   last (trace rw.2) = Some (EvSave output_file (all_courses rw.2) write_ok)).
Proof.
  unfold crawl_courses. destruct driver_starts; simpl.
  2: { split; [apply invariant_initial|done]. }
  unfold bind.
  destruct (page_loop_invariant (seqZ start_page (end_page + 1 - start_page))
              initial_world invariant_initial) as [Hw1 Hr].
  destruct (page_loop _ _ _ initial_world) as [r w1]. simpl in *. subst r.
  assert (invariant (save_to_json write_ok output_file w1).2) as Hw2.
  { destruct Hw1 as [Hk Hse Ho Hvis Hsv]. split; simpl; try done.
    - rewrite departments_app. simpl. by rewrite app_nil_r.
    - intros u. rewrite departments_app. simpl. rewrite app_nil_r. auto.
    - rewrite saved_app. simpl. apply Forall_app. split; [done|].
      by constructor. }
  destruct driver_quits; simpl; (split; [done|]); intros _; apply last_snoc.
Qed.
End Program.

(** Every record list a run saves has at most one record per natural key. *)
Lemma saved_key_unique catalog_page department write_ok driver_starts
    driver_quits output_file start_page end_page filepath data ok k :
  EvSave filepath data ok ∈
    trace (crawl_courses catalog_page department write_ok driver_starts
             driver_quits output_file start_page end_page initial_world).2 ->
  count_key k data <= 1.
Proof.
  intros Hin.
  destruct (crawl_courses_invariant catalog_page department write_ok
              driver_starts driver_quits output_file start_page end_page)
    as [[_ _ _ _ Hsv] _].
  apply keys_count. rewrite Forall_forall in Hsv. apply Hsv.
  apply list_elem_of_omap. by exists (EvSave filepath data ok).
Qed.

(** Every department is extracted at most once in a run. *)
Lemma departments_once catalog_page department write_ok driver_starts
    driver_quits output_file start_page end_page :
  NoDup (departments
           (trace (crawl_courses catalog_page department write_ok driver_starts
                     driver_quits output_file start_page end_page
                     initial_world).2)).
Proof.
  by destruct (crawl_courses_invariant catalog_page department write_ok
                 driver_starts driver_quits output_file start_page end_page)
    as [[_ _ Ho _ _] _].
Qed.

End KauaiFacts.

(** ** The Manoa crawler *)

Module ManoaFacts.
Import Py Eff Manoa ManoaSpec.

Lemma submitted_app tr1 tr2 :
  submitted (tr1 ++ tr2) = submitted tr1 ++ submitted tr2.
Proof. apply omap_app. Qed.

Lemma submitted_logs entries : submitted (EvLog <$> entries) = [].
Proof. by induction entries. Qed.

Lemma submitted_submit page_num urls :
  submitted (EvSubmit page_num <$> urls) = (fun u => (page_num, u)) <$> urls.
Proof.
  induction urls as [|u r IH]; [done|].
  rewrite !fmap_cons. cbn [submitted omap list_omap]. fold (submitted (EvSubmit page_num <$> r)).
  by rewrite IH.
Qed.

Lemma failure_logged_app_l render unit tr1 tr2 :
  failure_logged render unit tr1 -> failure_logged render unit (tr1 ++ tr2).
Proof.
  unfold failure_logged.
  destruct (extract_single_course _ _).1 as [[c|]|e]; set_solver.
Qed.

Lemma failure_logged_app_r render unit tr1 tr2 :
  failure_logged render unit tr2 -> failure_logged render unit (tr1 ++ tr2).
Proof.
  unfold failure_logged.
  destruct (extract_single_course _ _).1 as [[c|]|e]; set_solver.
Qed.

(** A link is new only when it is not in the visited set. *)
Lemma new_course_links_not_visited prefix visited hrefs h :
  h ∈ new_course_links prefix visited hrefs -> h ∉ visited.
Proof.
  unfold new_course_links.
  assert (forall (acc : gset string),
    (forall x, x ∈ acc -> x ∉ visited) ->
    h ∈ foldl (fun current href =>
                 match href with
                 | Some h0 =>
                     if negb (String.eqb h0 "") && startswith prefix h0
                        && negb (bool_decide (h0 ∈ visited))
                     then {[h0]} ∪ current else current
                 | None => current
                 end) acc hrefs -> h ∉ visited) as Hgen.
  { induction hrefs as [|o r IH]; intros acc Hacc; simpl; [by apply Hacc|].
    apply IH. destruct o as [h0|]; [|done].
    destruct (_ && negb (bool_decide _)) eqn:Hc; [|done].
    apply andb_true_iff in Hc as [_ Hv].
    apply negb_true_iff, bool_decide_eq_false in Hv.
    intros x [->%elem_of_singleton|Hx]%elem_of_union; auto. }
  apply Hgen. set_solver.
Qed.

Section Program.
Variable catalog_page : Z -> outcome (list (option string)).
Variable render : Z -> string -> session.
Variable completion_order : Z -> list string -> list string.
Variable write_ok : nat -> bool.
Variables (base_course_url_prefix output_file : string) (batch_size : Z).

Hypothesis completion_is_permutation :
  forall page_num urls, completion_order page_num urls ≡ₚ urls.

(** Collecting one future: the unit's own record, if any, is appended,
    its failure is logged, and the loop goes on with the next future. *)
Lemma collect_one page_num n_urls course_url rest completed batch w :
  exists w1 batch1 tr1,
    collect_futures render write_ok output_file batch_size page_num n_urls
      (course_url :: rest) completed batch w =
    collect_futures render write_ok output_file batch_size page_num n_urls
      rest (S completed) batch1 w1 /\
    all_extracted w1 =
      all_extracted w ++
      option_list (unit_record render (page_num, course_url)) /\
    trace w1 = trace w ++ tr1 /\ submitted tr1 = [] /\
    failure_logged render (page_num, course_url) tr1 /\
    visited_courses w ⊆ visited_courses w1.
Proof.
  unfold unit_record, failure_logged. simpl.
  unfold bind at 1, count_total. unfold bind at 1, try_except.
  unfold bind at 1, future_result.
  destruct (extract_single_course (render page_num course_url) course_url)
    as [[[c|]|e] printed]; simpl.
  - unfold bind, log, emit, append_extracted, add_visited, save_to_json, ret.
    simpl. destruct (_ || _); simpl;
      eexists _, _, _; (split; [reflexivity|]); simpl;
      (split; [reflexivity|]); (split; [by rewrite <- !app_assoc|]);
      (split; [rewrite !submitted_app, submitted_logs; reflexivity|]);
      (split; [done|set_solver]).
  - unfold bind, log, emit, append_extracted, add_visited, save_to_json, ret.
    simpl. destruct (_ || _); simpl;
      eexists _, _, _; (split; [reflexivity|]); simpl;
      (split; [by rewrite app_nil_r|]); (split; [by rewrite <- !app_assoc|]);
      (split; [rewrite !submitted_app, submitted_logs; reflexivity|]);
      (split; [set_solver|set_solver]).
  - unfold bind, log, emit, ret. simpl.
    eexists _, _, _; (split; [reflexivity|]); simpl.
    split; [by rewrite app_nil_r|]. split; [by rewrite <- !app_assoc|].
    split; [rewrite !submitted_app, submitted_logs; reflexivity|].
    split; [set_solver|set_solver].
Qed.

Lemma collect_futures_spec page_num n_urls order : forall completed batch w,
  let rw := collect_futures render write_ok output_file batch_size page_num
              n_urls order completed batch w in
  rw.1 = Return () /\
  all_extracted rw.2 =
    all_extracted w ++
    omap (fun u => unit_record render (page_num, u)) order /\
  visited_courses w ⊆ visited_courses rw.2 /\
  exists tr, trace rw.2 = trace w ++ tr /\ submitted tr = [] /\
    forall u, u ∈ order -> failure_logged render (page_num, u) tr.
Proof.
  induction order as [|u rest IH]; intros completed batch w.
  { simpl. rewrite app_nil_r. repeat split; try done. exists [].
    rewrite app_nil_r. repeat split; try done. intros u Hu.
    by apply elem_of_nil in Hu. }
  destruct (collect_one page_num n_urls u rest completed batch w)
    as (w1 & batch1 & tr1 & -> & Ha & Ht & Hs & Hl & Hv).
  destruct (IH (S completed) batch1 w1) as (Hr & Ha2 & Hv2 & tr2 & Ht2 & Hs2 & Hl2).
  split; [done|]. split; [|split; [set_solver|]].
  - rewrite Ha2, Ha, <- app_assoc. f_equal. simpl.
    by destruct (unit_record render (page_num, u)).
  - exists (tr1 ++ tr2). split; [by rewrite Ht2, Ht, app_assoc|].
    split; [by rewrite submitted_app, Hs, Hs2|].
    intros x [->|Hx]%elem_of_cons.
    + by apply failure_logged_app_l.
    + by apply failure_logged_app_r, Hl2.
Qed.

Lemma submit_all_spec page_num urls : forall w,
  submit_all page_num urls w =
  (Return (), {| visited_courses := visited_courses w;
                 all_extracted := all_extracted w;
                 total_course_count := total_course_count w;
                 saves := saves w;
                 trace := trace w ++ (EvSubmit page_num <$> urls) |}).
Proof.
  induction urls as [|u r IH]; intros w; simpl.
  { rewrite app_nil_r. by destruct w. }
  unfold bind, emit. rewrite IH. simpl. by rewrite <- app_assoc.
Qed.

(** One catalog page: its new links are submitted, each once, none of
    them visited before; every unit contributes its own record or none;
    the page never raises. *)
Lemma process_catalog_page_spec page_num w :
  let rw := process_catalog_page catalog_page render completion_order
              write_ok base_course_url_prefix output_file batch_size
              page_num w in
  rw.1 = Return () /\
  exists urls tr,
    NoDup urls /\ (forall u, u ∈ urls -> u ∉ visited_courses w) /\
    trace rw.2 = trace w ++ (EvSubmit page_num <$> urls) ++ tr /\
    submitted tr = [] /\
    all_extracted rw.2 ≡ₚ
      all_extracted w ++ omap (fun u => unit_record render (page_num, u)) urls /\
    forall u, u ∈ urls -> failure_logged render (page_num, u) tr.
Proof.
  unfold process_catalog_page.
  destruct (catalog_page page_num) as [hrefs|e].
  2: { split; [done|]. exists [], [EvLog (LogCatalogError page_num)].
       simpl. rewrite app_nil_r. repeat split; try done; try constructor.
       all: intros u Hu; by apply elem_of_nil in Hu. }
  set (links := new_course_links base_course_url_prefix (visited_courses w) hrefs).
  destruct (elements links) as [|u0 urls0] eqn:Hel.
  { split; [done|]. exists [], []. simpl. rewrite !app_nil_r.
    repeat split; try done; try constructor.
    all: intros u Hu; by apply elem_of_nil in Hu. }
  rewrite <- Hel. unfold bind. rewrite submit_all_spec.
  set (w0 := {| visited_courses := _ |}).
  destruct (collect_futures_spec page_num (length (elements links))
              (completion_order page_num (elements links)) 0 [] w0)
    as (Hr & Ha & Hv & tr & Ht & Hs & Hl).
  split; [done|]. exists (elements links), tr.
  split; [apply NoDup_elements|].
  split.
  { intros u Hu%elem_of_elements.
    by eapply new_course_links_not_visited. }
  split; [by rewrite Ht; subst w0; simpl; rewrite <- app_assoc|].
  split; [done|]. split.
  - rewrite Ha. subst w0. simpl. apply Permutation_app_head.
    by apply omap_Permutation.
  - intros u Hu. apply Hl. by rewrite completion_is_permutation.
Qed.



End Program.


(** A URL that is in the visited set when a catalog page is read is not
    submitted for that page. *)
Lemma visited_not_resubmitted
    (catalog_page : Z -> outcome (list (option string)))
    (render : Z -> string -> session)
    (completion_order : Z -> list string -> list string)
    (write_ok : nat -> bool)
    (base_course_url_prefix output_file : string) (batch_size page_num : Z)
    (w : world) (course_url : string) :
  (forall page_num urls, completion_order page_num urls ≡ₚ urls) ->
  course_url ∈ visited_courses w ->
  let rw := process_catalog_page catalog_page render completion_order write_ok
              base_course_url_prefix output_file batch_size page_num w in
  exists tr, trace rw.2 = trace w ++ tr /\
             (page_num, course_url) ∉ submitted tr.
Proof.
  intros Hperm Hv rw.
  destruct (process_catalog_page_spec catalog_page render completion_order
              write_ok base_course_url_prefix output_file batch_size Hperm
              page_num w) as (_ & urls & tr & _ & Hnv & Ht & Hs & _).
  exists ((EvSubmit page_num <$> urls) ++ tr). split; [done|].
  rewrite submitted_app, Hs, app_nil_r, submitted_submit.
  intros (u & [= <-] & Hu)%list_elem_of_fmap. by apply (Hnv _ Hu).
Qed.

(** C7, on the run where pages 0 and 1 both list the same URL and the
    browser of its worker fails to start on page 0: the failure is caught,
    the URL is not recorded as visited, and page 1 submits it again. *)
Theorem failed_unit_submitted_twice :
  ManoaScenario.run_same_url.1 = Return () /\
  submitted (trace ManoaScenario.run_same_url.2) =
    [(0%Z, ManoaScenario.url1); (1%Z, ManoaScenario.url1)] /\
  submissions ManoaScenario.url1 (trace ManoaScenario.run_same_url.2) = 2 /\
  trace ManoaScenario.run_same_url.2 !! 1 =
    Some (EvLog (LogErrorProcessing ManoaScenario.url1)).
Proof. repeat split; vm_compute; reflexivity. Qed.

(** The final save of the run where two URLs show the same course holds two
    records with the natural key (ICS, 111). *)
Lemma manoa_saves_duplicate_key :
  last (trace ManoaScenario.run_two_urls.2) =
    Some (EvSave "extracted.json"
            [ManoaScenario.ics111 ManoaScenario.url1;
             ManoaScenario.ics111 ManoaScenario.url2] true) /\
  count_key (Some "ICS", Some "111")
    [ManoaScenario.ics111 ManoaScenario.url1;
     ManoaScenario.ics111 ManoaScenario.url2] = 2.
Proof. split; vm_compute; reflexivity. Qed.

End ManoaFacts.

(** ** Saving a file *)

Module FileWriteFacts.
Import FileWrite.

Lemma append_empty_r (s : string) : s +:+ "" = s.
Proof.
  induction s as [|c r IH]; [done|].
  change (String c r +:+ "") with (String c (r +:+ "")). by rewrite IH.
Qed.

Lemma append_assoc (s1 s2 s3 : string) : (s1 +:+ s2) +:+ s3 = s1 +:+ (s2 +:+ s3).
Proof.
  induction s1 as [|c r IH]; [done|].
  change (String c ((r +:+ s2) +:+ s3) = String c (r +:+ (s2 +:+ s3))).
  by rewrite IH.
Qed.

(** Killed while the chunks are written: the file holds what was there
    when the writes began, followed by the first chunks. *)
Lemma killed_during_writes filepath chunks : forall k files content,
  files !! filepath = Some content ->
  exists n,
    run_ops (take k ((OpWrite filepath <$> chunks) ++ [OpClose filepath])) files
      !! filepath = Some (content +:+ concat_chunks (take n chunks)).
Proof.
  induction chunks as [|c rest IH]; intros k files content Hc.
  - exists 0. simpl. rewrite append_empty_r. by destruct k as [|[|k]].
  - destruct k as [|k].
    + exists 0. simpl. by rewrite append_empty_r.
    + rewrite fmap_cons. cbn [app take run_ops foldl step].
      destruct (IH k (alter (fun s => s +:+ c) filepath files) (content +:+ c))
        as [n Hn].
      { by rewrite lookup_alter_eq, Hc. }
      exists (S n). unfold run_ops in Hn. rewrite Hn. simpl.
      by rewrite append_assoc.
Qed.

Lemma run_ops_other filepath other ops : forall files,
  Forall (fun op => op_path op = filepath) ops -> other <> filepath ->
  run_ops ops files !! other = files !! other.
Proof.
  induction ops as [|op rest IH]; intros files Hall Hne; [done|].
  apply Forall_cons in Hall as [Hop Hrest].
  unfold run_ops in *. cbn [foldl]. rewrite IH by done.
  destruct op as [p|p c|p]; simpl in *; subst.
  - by rewrite lookup_insert_ne.
  - by rewrite lookup_alter_ne.
  - done.
Qed.

Lemma save_ops_in_place filepath chunks :
  Forall (fun op => op_path op = filepath) (save_ops filepath chunks).
Proof.
  unfold save_ops. constructor; [done|]. apply Forall_app. split.
  - by apply Forall_fmap, Forall_true.
  - by constructor.
Qed.

(** A save that is killed after the file was opened leaves neither the
    prior artifact nor the new one: here the file is empty. *)
Lemma save_is_not_atomic :
  ~ (forall (filepath : string) (chunks : list string)
            (files : gmap string string) (prior : string) (k : nat),
        files !! filepath = Some prior ->
        killed_after k filepath chunks files !! filepath = Some prior \/
        killed_after k filepath chunks files !! filepath =
          Some (concat_chunks chunks)).
Proof.
  intros H.
  destruct (H "courses_extracted.json" ["[{"; "}]"]
              {["courses_extracted.json" := "[]"]} "[]" 1) as [Hk|Hk];
    [apply lookup_singleton_eq|..]; vm_compute in Hk; discriminate.
Qed.

(** What a save does to the files: it touches no path but its own; run to
    its end it leaves exactly the new document, whatever the file held;
    killed after the file was opened it leaves a prefix of the new
    document; other files are untouched. *)
Lemma save_ops_effect
    (filepath : string) (chunks : list string) (files : gmap string string) :
  Forall (fun op => op_path op = filepath) (save_ops filepath chunks) /\
  run_ops (save_ops filepath chunks) files !! filepath =
    Some (concat_chunks chunks) /\
  (forall k, 1 <= k ->
     exists n, run_ops (take k (save_ops filepath chunks)) files !! filepath =
               Some (concat_chunks (take n chunks))) /\
  (forall k other, other <> filepath ->
     run_ops (take k (save_ops filepath chunks)) files !! other =
     files !! other).
Proof.
  split; [apply save_ops_in_place|]. split; [|split].
  - assert (forall cs fs content, fs !! filepath = Some content ->
              foldl step fs ((OpWrite filepath <$> cs) ++ [OpClose filepath])
                !! filepath = Some (content +:+ concat_chunks cs)) as Hfull.
    { induction cs as [|c r IH]; intros fs content Hc.
      - simpl. by rewrite append_empty_r.
      - rewrite fmap_cons. cbn [app foldl step concat_chunks].
        rewrite (IH _ (content +:+ c)); [by rewrite append_assoc|].
        by rewrite lookup_alter_eq, Hc. }
    unfold save_ops, run_ops. cbn [foldl step].
    by rewrite (Hfull chunks _ "") by apply lookup_insert_eq.
  - intros k Hk. destruct k as [|k]; [lia|].
    unfold save_ops. cbn [take run_ops foldl step].
    destruct (killed_during_writes filepath chunks k
                (<[filepath := ""]> files) "") as [n Hn];
      [by rewrite lookup_insert_eq|].
    exists n. exact Hn.
  - intros k other Hne.
    apply (run_ops_other filepath); [|done].
    apply Forall_take. apply save_ops_in_place.
Qed.

(** C3, as the code has it. The checkpoint save of a page of the PDF
    extractor, and every save of the Manoa crawler, hands the full current
    result list to [json.dump] on the artifact itself, opened in truncating
    write mode: the save is the last thing the page does and its document
    holds the course list that the loop carries on (the Manoa save holds
    [all_extracted]). Its file operations touch no path but the artifact's
    own (there is no temporary file and no rename); run to their end they
    leave exactly the new document, whatever the file held (the save
    overwrites, it never appends); cut after the file was opened, by a kill
    or by an exception, they leave a prefix of the new document, made of
    its first chunks and possibly empty, and nothing of the prior content;
    other files are untouched. *)
Theorem save_overwrites_in_place :
  (forall (generate : nat -> Honolulu.prompt -> Py.outcome string)
          (json_loads : string -> option Py.parsed)
          (write_ok : nat -> bool) (now : nat -> string)
          (pdf_path output_path : string) (total_pages i : Z)
          (pg : Honolulu.page) (s s' : Honolulu.loop_state)
          (w w' : Honolulu.world)
          (encode : Honolulu.artifact -> list string)
          (files : gmap string string),
      Honolulu.process_page generate json_loads write_ok now pdf_path
        output_path total_pages i pg s w = (Py.Return s', w') ->
      exists ts ok,
        let doc := Honolulu.incremental_output_data (Honolulu.all_courses s')
                     pdf_path i total_pages ts in
        let ops := honolulu_save_ops encode
                     (Honolulu.EvWrite output_path doc ok) in
        last (Honolulu.trace w') = Some (Honolulu.EvWrite output_path doc ok) /\
        HonoluluSpec.records_of doc = Some (Honolulu.all_courses s') /\
        Forall (fun op => op_path op = output_path) ops /\
        run_ops ops files !! output_path = Some (concat_chunks (encode doc)) /\
        (forall k, 1 <= k ->
           exists n, run_ops (take k ops) files !! output_path =
                     Some (concat_chunks (take n (encode doc)))) /\
        (forall k other, other <> output_path ->
           run_ops (take k ops) files !! other = files !! other)) /\
  (forall (write_ok : nat -> bool) (output_file : string) (w : Manoa.world)
          (encode : list Manoa.course -> list string)
          (files : gmap string string),
      exists ok,
        let ev := Manoa.EvSave output_file (Manoa.all_extracted w) ok in
        let ops := manoa_save_ops encode ev in
        Manoa.trace (Manoa.save_to_json write_ok output_file w).2 =
          Manoa.trace w ++ [ev] /\
        Forall (fun op => op_path op = output_file) ops /\
        run_ops ops files !! output_file =
          Some (concat_chunks (encode (Manoa.all_extracted w))) /\
        (forall k, 1 <= k ->
           exists n, run_ops (take k ops) files !! output_file =
                     Some (concat_chunks
                             (take n (encode (Manoa.all_extracted w))))) /\
        (forall k other, other <> output_file ->
           run_ops (take k ops) files !! other = files !! other)).
Proof.
  split.
  - intros generate json_loads write_ok now pdf_path output_path total_pages
      i pg s s' w w' encode files Hpage.
    destruct (HonoluluFacts.process_page_last_write _ _ _ _ _ _ _ _ _ _ _ _ _
                Hpage) as (tr0 & ts & ok & Ht & _).
    exists ts, ok. cbv zeta.
    split; [by rewrite Ht, app_assoc, last_snoc|].
    split; [done|]. apply save_ops_effect.
  - intros write_ok output_file w encode files.
    exists (write_ok (Manoa.saves w)). cbv zeta.
    split; [done|]. apply save_ops_effect.
Qed.

Lemma save_overwrites_in_place_witness :
  exists doc ok,
    last (Honolulu.trace HonoluluScenario.after_page_two_cases.2) =
      Some (Honolulu.EvWrite "courses_extracted.json" doc ok) /\
    HonoluluSpec.records_of doc =
      Some [HonoluluScenario.acc125; HonoluluScenario.acc125_lower_case] /\
    run_ops (honolulu_save_ops (fun _ => ["[{"; "}]"])
               (Honolulu.EvWrite "courses_extracted.json" doc ok))
      {["courses_extracted.json" := "[]"]} !! "courses_extracted.json"
    = Some "[{}]".
Proof.
  destruct (proj1 save_overwrites_in_place
              HonoluluScenario.generate_two_cases
              HonoluluScenario.json_loads_two_cases HonoluluScenario.write_ok
              HonoluluScenario.now "catalog/courses.pdf"
              "courses_extracted.json" 1%Z 1%Z HonoluluScenario.page_two_cases
              Honolulu.initial_loop_state HonoluluScenario.state_two_cases
              Honolulu.initial_world HonoluluScenario.after_page_two_cases.2
              (fun _ => ["[{"; "}]"])
              {["courses_extracted.json" := "[]"]})
    as (ts & ok & Hlast & Hrec & _ & Hrun & _).
  - vm_compute. reflexivity.
  - eexists _, ok. split; [exact Hlast|]. split; [exact Hrec|]. exact Hrun.
Defined.

End FileWriteFacts.

(** ** Key uniqueness of what is written *)

Module KeyUniqueness.
Import Py Eff Logic LogicFacts.

(** Every artifact that a run of the PDF extractor writes, checkpoint or
    final, holds no two records with the same key text, hence at most one
    record per pair of [course_prefix] and [course_number] values. *)
Lemma pdf_extractor_writes_unique
    (generate : nat -> Honolulu.prompt -> outcome string)
    (json_loads : string -> option parsed)
    (read_pdf : string -> Honolulu.pdf_reader)
    (write_ok : nat -> bool) (now : nat -> string)
    (call_body : string -> pyobj -> M Honolulu.world bool)
    (api_key_set : bool) (pdf_path output_path : string)
    (path : string) (doc : Honolulu.artifact) (ok : bool) :
  Honolulu.EvWrite path doc ok ∈
    Honolulu.trace
      (Honolulu.extract_courses_from_pdf generate json_loads read_pdf write_ok
         now call_body api_key_set pdf_path output_path
         Honolulu.initial_world).2 ->
  exists records,
    HonoluluSpec.records_of doc = Some records /\
    HonoluluSpec.key_unique records /\
    forall k, HonoluluSpec.count_key k records <= 1.
Proof.
  rewrite HonoluluFacts.extract_courses_from_pdf_unfold.
  destruct api_key_set; [|by intros ?%elem_of_nil].
  destruct (Honolulu.extract_text_from_pdf read_pdf pdf_path)
    as [[[|pg rest]|]|e]; try (by intros ?%elem_of_nil).
  set (pages := pg :: rest). cbv zeta. unfold bind.
  destruct (HonoluluFacts.sat_page_loop generate json_loads write_ok now
              pdf_path output_path (Z.of_nat (length pages)) pages 1
              Honolulu.initial_loop_state HonoluluFacts.key_unique_nil
              Honolulu.initial_world) as [(tr & Htr & Hev) _].
  change (Honolulu.trace Honolulu.initial_world ++ tr) with tr in Htr.
  assert (forall ev, ev ∈ tr -> ev = Honolulu.EvWrite path doc ok ->
            exists records, HonoluluSpec.records_of doc = Some records /\
              HonoluluSpec.key_unique records /\
              forall k, HonoluluSpec.count_key k records <= 1) as Hloop.
  { intros ev Hin ->. rewrite Forall_forall in Hev. specialize (Hev _ Hin).
    destruct Hev as (_ & i & all & ts & _ & Hu & ->). exists all.
    split; [done|]. split; [done|].
    intros k. by apply HonoluluFacts.key_unique_count. }
  set (pl := Honolulu.page_loop generate json_loads write_ok now pdf_path
               output_path (Z.of_nat (length pages)) pages 1
               Honolulu.initial_loop_state Honolulu.initial_world) in *.
  destruct pl as [[s|e] w1]; cbn [fst snd] in Htr; subst tr.
  2: { cbn [snd]. intros Hin. by eapply Hloop. }
  destruct (Honolulu.all_courses s) as [|c l].
  - cbn. intros [Hin|Hin%list_elem_of_singleton]%elem_of_app.
    + by eapply Hloop.
    + injection Hin as -> -> ->. exists []. split; [done|].
      split; [apply HonoluluFacts.key_unique_nil|]. intros k.
      unfold HonoluluSpec.count_key. simpl. lia.
  - cbn. intros Hin. by eapply Hloop.
Qed.

(** C2, as the code has it. Every artifact written by the PDF extractor
    holds no two records with the same key text [prefix-number], hence at
    most one record per pair of [course_prefix] and [course_number] values,
    compared as they are; every record list saved by the Kauai crawler holds
    at most one record per such pair. (The keys are compared exactly, not
    case-normalized, and the Manoa crawler keys nothing by prefix and
    number: it only skips URLs recorded as visited.) *)
Theorem committed_keys_unique :
  (forall generate json_loads read_pdf write_ok now call_body api_key_set
          pdf_path output_path path doc ok,
      Honolulu.EvWrite path doc ok ∈
        Honolulu.trace
          (Honolulu.extract_courses_from_pdf generate json_loads read_pdf
             write_ok now call_body api_key_set pdf_path output_path
             Honolulu.initial_world).2 ->
      exists records,
        HonoluluSpec.records_of doc = Some records /\
        HonoluluSpec.key_unique records /\
        forall k, HonoluluSpec.count_key k records <= 1) /\
  (forall catalog_page department write_ok driver_starts driver_quits
          output_file start_page end_page filepath data ok k,
      Kauai.EvSave filepath data ok ∈
        Kauai.trace
          (Kauai.crawl_courses catalog_page department write_ok driver_starts
             driver_quits output_file start_page end_page
             Kauai.initial_world).2 ->
      KauaiSpec.count_key k data <= 1).
Proof.
  split.
  - intros. by eapply pdf_extractor_writes_unique.
  - intros. by eapply KauaiFacts.saved_key_unique.
Qed.

Lemma committed_keys_unique_witness :
  exists records,
    HonoluluSpec.last_written (Honolulu.trace HonoluluScenario.run.2)
      ≫= HonoluluSpec.records_of = Some records /\
    HonoluluSpec.count_key (Some (VStr "ACC"), Some (VStr "124")) records <= 1.
Proof.
  exists [HonoluluScenario.acc124_partial; HonoluluScenario.acc125].
  split; [vm_compute; reflexivity|].
  destruct (proj1 committed_keys_unique HonoluluScenario.generate
              HonoluluScenario.json_loads HonoluluScenario.read_pdf
              HonoluluScenario.write_ok HonoluluScenario.now
              HonoluluScenario.call_body true "catalog/courses.pdf"
              "courses_extracted.json" "courses_extracted.json"
              (Honolulu.incremental_output_data
                 [HonoluluScenario.acc124_partial; HonoluluScenario.acc125]
                 "catalog/courses.pdf" 2 2 "2025-01-01T00:00:00") true)
    as (records & Hr & _ & Hc).
  - apply (list_elem_of_lookup_2 _ 4). vm_compute. reflexivity.
  - injection Hr as <-. apply Hc.
Defined.

(** The natural key of the data model is not enforced. In the PDF
    extractor the key is compared as it is, so the checkpoint of the run
    whose page shows [ACC 125] and [acc 125] holds both records, which have
    one case-normalized key. In the Manoa crawler there is no key at all:
    the final save of the run where two URLs show the same course holds two
    records with the natural key (ICS, 111). *)
Lemma natural_key_not_enforced :
  (HonoluluSpec.last_written (Honolulu.trace HonoluluScenario.run_two_cases.2)
     ≫= HonoluluSpec.records_of =
     Some [HonoluluScenario.acc125; HonoluluScenario.acc125_lower_case] /\
   HonoluluSpec.normalized_key HonoluluScenario.acc125 =
     HonoluluSpec.normalized_key HonoluluScenario.acc125_lower_case /\
   HonoluluSpec.count_normalized (Some "acc", Some "125")
     [HonoluluScenario.acc125; HonoluluScenario.acc125_lower_case] = 2) /\
  (last (Manoa.trace ManoaScenario.run_two_urls.2) =
     Some (Manoa.EvSave "extracted.json"
             [ManoaScenario.ics111 ManoaScenario.url1;
              ManoaScenario.ics111 ManoaScenario.url2] true) /\
   ManoaSpec.count_key (Some "ICS", Some "111")
     [ManoaScenario.ics111 ManoaScenario.url1;
      ManoaScenario.ics111 ManoaScenario.url2] = 2).
Proof. repeat split; vm_compute; reflexivity. Qed.

End KeyUniqueness.

(** ** More on de-duplication in the PDF extractor *)

Module DedupFacts.
Import Py Eff Honolulu HonoluluSpec.

Lemma course_key_value c : course_key c = Raise AttributeError \/ exists k, course_key c = Return k.
Proof. destruct c; [right; eauto | by left]. Qed.

(** What the loop appends to [unique_courses]: a selection of the input, in
    order, with every unseen key represented by its first record. *)
Lemma dedup_loop_kept courses : forall seen unique_courses res,
  dedup_loop courses seen unique_courses = Return res ->
  exists kept,
    res = unique_courses ++ kept /\ kept `sublist_of` courses /\
    (forall c k, c ∈ courses -> course_key c = Return k ->
       k ∈ seen \/ exists c', c' ∈ kept /\ course_key c' = Return k) /\
    (forall l1 c l2 k, courses = l1 ++ c :: l2 -> course_key c = Return k ->
       k ∉ seen -> (forall c', c' ∈ l1 -> course_key c' <> Return k) ->
       c ∈ kept).
Proof.
  induction courses as [|c0 rest IH]; intros seen u res Hres; simpl in Hres.
  { injection Hres as <-. exists []. rewrite app_nil_r.
    split; [done|]. split; [constructor|]. split.
    - intros c k Hc. by apply elem_of_nil in Hc.
    - intros [|? ?] ? ? ? ?; discriminate. }
  destruct (course_key c0) as [k0|e] eqn:Hk0; [|discriminate].
  destruct (decide (k0 ∈ seen)) as [Hin|Hnin].
  - destruct (IH _ _ _ Hres) as (kept & -> & Hsub & Hall & Hfirst).
    exists kept. split; [done|]. split; [by constructor|]. split.
    + intros c k [->|Hc]%elem_of_cons Hk.
      * left. congruence.
      * eauto.
    + intros [|c1 l1] c l2 k [= -> Hrest] Hk Hns Hl1.
      * congruence.
      * subst rest. eapply Hfirst; eauto. intros c' Hc'. apply Hl1. by right.
  - destruct (IH _ _ _ Hres) as (kept & -> & Hsub & Hall & Hfirst).
    exists (c0 :: kept). split; [by rewrite <- app_assoc|].
    split; [by constructor|]. split.
    + intros c k [->|Hc]%elem_of_cons Hk.
      * right. exists c0. split; [left|done].
      * destruct (Hall c k Hc Hk) as [[->%elem_of_singleton|Hs]%elem_of_union|(c' & Hc' & Hk')].
        -- right. exists c0. split; [left|done].
        -- by left.
        -- right. exists c'. split; [by right|done].
    + intros [|c1 l1] c l2 k [= -> Hrest] Hk Hns Hl1.
      * left.
      * subst rest. right. eapply Hfirst; eauto.
        -- intros [->%elem_of_singleton|Hs]%elem_of_union; [|done].
           eapply Hl1; [left|done].
        -- intros c' Hc'. apply Hl1. by right.
Qed.

(** X1. When [deduplicate_courses] returns, its result is a selection of the
    input in the input's order, no two of its records share a key, every
    key of the input is still represented, and the record kept for a key is
    the first one of the input that has it. *)
Theorem dedup_keeps_first_occurrences (courses res : list pyobj) :
  deduplicate_courses courses = Return res ->
  res `sublist_of` courses /\
  key_unique res /\
  (forall c k, c ∈ courses -> course_key c = Return k ->
     exists c', c' ∈ res /\ course_key c' = Return k) /\
  (forall l1 c l2 k, courses = l1 ++ c :: l2 -> course_key c = Return k ->
     (forall c', c' ∈ l1 -> course_key c' <> Return k) -> c ∈ res).
Proof.
  intros Hres. pose proof (HonoluluFacts.deduplicate_courses_unique _ _ Hres) as Hu.
  destruct (dedup_loop_kept courses ∅ [] res Hres) as (kept & -> & Hsub & Hall & Hfirst).
  simpl. split; [done|]. split; [done|]. split.
  - intros c k Hc Hk. destruct (Hall c k Hc Hk) as [Hs|?]; [set_solver|done].
  - intros l1 c l2 k Heq Hk Hl1. eapply Hfirst; eauto. set_solver.
Qed.

Lemma dedup_keeps_first_occurrences_witness :
  [HonoluluScenario.acc124_partial; HonoluluScenario.acc125] `sublist_of`
  [HonoluluScenario.acc124_partial; HonoluluScenario.acc125;
   HonoluluScenario.acc124_updated].
Proof.
  refine (proj1 (dedup_keeps_first_occurrences
                   [HonoluluScenario.acc124_partial; HonoluluScenario.acc125;
                    HonoluluScenario.acc124_updated]
                   [HonoluluScenario.acc124_partial; HonoluluScenario.acc125] _)).
  vm_compute. reflexivity.
Defined.

Lemma dedup_loop_outcome courses : forall seen unique_courses,
  match dedup_loop courses seen unique_courses with
  | Return _ => Forall is_dict courses
  | Raise e => e = AttributeError /\ ~ Forall is_dict courses
  end.
Proof.
  induction courses as [|c rest IH]; intros seen u; simpl; [constructor|].
  destruct c as [d|v].
  - rewrite HonoluluFacts.course_key_dict.
    destruct (decide (_ ∈ seen));
      match goal with
      | |- context [dedup_loop rest ?s ?acc] =>
          specialize (IH s acc); destruct (dedup_loop rest s acc)
      end.
    + by constructor.
    + destruct IH as [-> IH]. split; [done|]. by intros [_ ?]%Forall_cons.
    + by constructor.
    + destruct IH as [-> IH]. split; [done|]. by intros [_ ?]%Forall_cons.
  - simpl. split; [done|]. by intros [? _]%Forall_cons.
Qed.

(** X2. [deduplicate_courses] returns exactly when every element of the
    list is a JSON object; otherwise it raises [AttributeError] (an element
    without a [get] method), and nothing else. *)
Theorem dedup_fails_only_on_non_dict (courses : list pyobj) :
  match deduplicate_courses courses with
  | Return _ => Forall is_dict courses
  | Raise e => e = AttributeError /\ ~ Forall is_dict courses
  end.
Proof. apply dedup_loop_outcome. Qed.

(** X3. De-duplicating twice changes nothing: a result of
    [deduplicate_courses] is returned as it is. *)
Theorem dedup_idempotent (courses res : list pyobj) :
  deduplicate_courses courses = Return res ->
  deduplicate_courses res = Return res.
Proof.
  intros Hres.
  destruct (HonoluluFacts.deduplicate_courses_unique _ _ Hres) as (ks & HF & HN).
  unfold deduplicate_courses.
  rewrite <- (app_nil_r res) at 1.
  rewrite (HonoluluFacts.dedup_loop_app_unique res [] ∅ [] ks); auto.
  set_solver.
Qed.

Lemma dedup_idempotent_witness :
  deduplicate_courses [HonoluluScenario.acc124_partial; HonoluluScenario.acc125]
  = Return [HonoluluScenario.acc124_partial; HonoluluScenario.acc125].
Proof.
  refine (dedup_idempotent
            [HonoluluScenario.acc124_partial; HonoluluScenario.acc125;
             HonoluluScenario.acc124_updated] _ _).
  vm_compute. reflexivity.
Defined.

Lemma append_assoc3 (a b c : string) : (a +:+ b) +:+ c = a +:+ (b +:+ c).
Proof.
  induction a as [|x r IH]; [done|].
  change (String x ((r +:+ b) +:+ c) = String x (r +:+ (b +:+ c))).
  by rewrite IH.
Qed.

Lemma append_longer (a b : string) : a +:+ "-" +:+ b <> a.
Proof.
  assert (forall s, a +:+ s = a -> s = "") as H.
  { induction a as [|x r IH]; intros s Hs; [done|].
    change (String x (r +:+ s) = String x r) in Hs. apply IH. congruence. }
  intros Heq. by apply H in Heq.
Qed.

(** X4. The key is the text [prefix-number], so a hyphen can move between
    the two parts: a record with prefix [a-b] and number [c] and a record
    with prefix [a] and number [b-c] have different natural keys and the
    same key, and [deduplicate_courses] drops the second. *)
Theorem dedup_hyphen_collision (a b c : string) (d1 d2 : gmap string value) :
  d1 !! "course_prefix" = Some (VStr (a +:+ "-" +:+ b)) ->
  d1 !! "course_number" = Some (VStr c) ->
  d2 !! "course_prefix" = Some (VStr a) ->
  d2 !! "course_number" = Some (VStr (b +:+ "-" +:+ c)) ->
  natural_key (ODict d1) <> natural_key (ODict d2) /\
  deduplicate_courses [ODict d1; ODict d2] = Return [ODict d1].
Proof.
  intros Hp1 Hn1 Hp2 Hn2. split.
  - simpl. rewrite Hp1, Hp2. intros [= H]. by apply append_longer in H.
  - unfold deduplicate_courses. simpl.
    rewrite Hp1, Hn1, Hp2, Hn2. simpl.
    destruct (decide (_ ∈ ∅)) as [Hin|_]; [set_solver|].
    rewrite (append_assoc3 a ("-" +:+ b) ("-" +:+ c)).
    change (("-" +:+ b) +:+ "-" +:+ c) with ("-" +:+ (b +:+ "-" +:+ c)).
    destruct (decide (_ ∈ _)) as [_|Hnin]; [done|]. set_solver.
Qed.

Lemma dedup_hyphen_collision_witness :
  deduplicate_courses
    [ODict (<["course_prefix" := VStr "ICS-H"]> {["course_number" := VStr "111"]});
     ODict (<["course_prefix" := VStr "ICS"]> {["course_number" := VStr "H-111"]})]
  = Return
    [ODict (<["course_prefix" := VStr "ICS-H"]> {["course_number" := VStr "111"]})].
Proof.
  refine (proj2 (dedup_hyphen_collision "ICS" "H" "111" _ _ _ _ _ _));
    vm_compute; reflexivity.
Defined.

End DedupFacts.

(** ** More on prompts and attempts in the PDF extractor *)

Module ExtractionFacts.
Import Py Eff Logic LogicFacts Honolulu HonoluluSpec.

Lemma for_each_recent_line (l : list pyobj) :
  match for_each recent_line l with
  | Return _ => Forall is_dict l
  | Raise e => e = AttributeError /\ ~ Forall is_dict l
  end.
Proof.
  induction l as [|c r IH]; simpl; [constructor|].
  destruct c as [d|v]; simpl.
  - destruct (for_each recent_line r).
    + by constructor.
    + destruct IH as [-> IH]. split; [done|]. by intros [_ ?]%Forall_cons.
  - split; [done|]. by intros [? _]%Forall_cons.
Qed.

Lemma overlap_lines_outcome (c : pyobj) :
  match overlap_lines c with
  | Return _ => desc_sliceable c
  | Raise e => (e = AttributeError \/ e = TypeError) /\ ~ desc_sliceable c
  end.
Proof.
  destruct c as [d|v]; [|split; [by left|by intros []]].
  unfold overlap_lines, desc_sliceable. simpl.
  destruct (d !! "course_desc") as [[| | | | |]|]; simpl; try done;
    (split; [by right|by intros []]).
Qed.

Lemma for_each_overlap_lines (l : list pyobj) :
  match for_each overlap_lines l with
  | Return _ => Forall desc_sliceable l
  | Raise e => (e = AttributeError \/ e = TypeError) /\ ~ Forall desc_sliceable l
  end.
Proof.
  induction l as [|c r IH]; simpl; [constructor|].
  pose proof (overlap_lines_outcome c) as Hc.
  destruct (overlap_lines c) as [[]|e].
  - destruct (for_each overlap_lines r).
    + by constructor.
    + destruct IH as [He IH]. split; [done|]. by intros [_ ?]%Forall_cons.
  - destruct Hc as [He Hc]. split; [done|]. by intros [? _]%Forall_cons.
Qed.

(** The outcome of [create_gemini_prompt], by the shape of the records it
    interpolates. *)
Lemma create_gemini_prompt_outcome (pg : page) (ctx : list page)
    (recent : list pyobj) (overlap : option (list pyobj)) :
  match create_gemini_prompt pg ctx recent overlap with
  | Return p =>
      p = ExtractionPrompt pg ctx (lastn 5 recent) overlap /\
      Forall is_dict (lastn 5 recent) /\
      Forall desc_sliceable (default [] overlap)
  | Raise e =>
      (e = AttributeError \/ e = TypeError) /\
      ~ (Forall is_dict (lastn 5 recent) /\
         Forall desc_sliceable (default [] overlap))
  end.
Proof.
  unfold create_gemini_prompt.
  pose proof (for_each_recent_line (lastn 5 recent)) as Hr.
  pose proof (for_each_overlap_lines (default [] overlap)) as Ho.
  destruct (for_each recent_line _) as [[]|e1]; simpl.
  - destruct (for_each overlap_lines _) as [[]|e2]; simpl.
    + done.
    + destruct Ho as [He Ho]. split; [done|]. by intros [_ ?].
  - destruct Hr as [-> Hr]. split; [by left|]. by intros [? _].
Qed.

(** X5. [create_gemini_prompt] returns exactly when the last five recent
    records are JSON objects and every overlap record is a JSON object whose
    [course_desc] is absent or can be sliced (a string or a list); otherwise
    it raises: [AttributeError] for a record that is no JSON object,
    [TypeError] for a description that is [None], a [bool], an [int] or a
    [float]. What it returns carries the page, the context pages, the last
    five recent records and the overlap records. *)
Theorem prompt_built_exactly_when (pg : page) (ctx : list page)
    (recent : list pyobj) (overlap : option (list pyobj)) :
  match create_gemini_prompt pg ctx recent overlap with
  | Return p =>
      p = ExtractionPrompt pg ctx (lastn 5 recent) overlap /\
      Forall is_dict (lastn 5 recent) /\
      Forall desc_sliceable (default [] overlap)
  | Raise e =>
      (e = AttributeError \/ e = TypeError) /\
      ~ (Forall is_dict (lastn 5 recent) /\
         Forall desc_sliceable (default [] overlap))
  end.
Proof.
  pose proof (create_gemini_prompt_outcome pg ctx recent overlap) as H.
  destruct (create_gemini_prompt pg ctx recent overlap) as [p|e]; exact H.
Qed.

Section Attempts.
Variable generate : nat -> prompt -> outcome string.
Variable json_loads : string -> option parsed.
Variables (pg : page) (ctx : list page) (recent : list pyobj)
          (overlap : option (list pyobj)).

(** When the prompt cannot be built every attempt fails before the call: the
    loop only sleeps two seconds between attempts and returns the empty
    list. *)
Lemma attempts_without_prompt e n : forall attempt max_retries w,
  create_gemini_prompt pg ctx recent overlap = Raise e ->
  (attempt + Z.of_nat n = max_retries)%Z ->
  attempts n attempt max_retries
    (attempt_body generate json_loads pg ctx recent overlap) w =
  (Return (PList []),
   {| gen_calls := gen_calls w; saves := saves w;
      trace := trace w ++ replicate (pred n) (EvSleep 2) |}).
Proof.
  intros attempt max_retries w Hp. revert attempt w.
  assert (e <> JSONDecodeError) as Hne.
  { pose proof (create_gemini_prompt_outcome pg ctx recent overlap) as H.
    rewrite Hp in H. destruct H as [[->| ->] _]; done. }
  induction n as [|n IH]; intros attempt w Hsum.
  { simpl. rewrite app_nil_r. by destruct w. }
  simpl. unfold try_except. unfold attempt_body at 1, bind at 1, lift.
  rewrite Hp.
  destruct (Z.eqb_spec attempt (max_retries - 1)) as [Hlast|Hmore].
  - assert (n = 0) as -> by lia. simpl. rewrite app_nil_r. by destruct w.
  - destruct n as [|n]; [lia|].
    unfold bind, sleep, emit. rewrite IH by lia. simpl.
    replace (match e with JSONDecodeError => 1%Z | _ => 2%Z end) with 2%Z
      by by destruct e.
    by rewrite <- app_assoc.
Qed.
End Attempts.

Lemma generate_count_app tr1 tr2 :
  generate_count (tr1 ++ tr2) = generate_count tr1 + generate_count tr2.
Proof. unfold generate_count. by rewrite filter_app, length_app. Qed.

Section Stall.
Variable generate : nat -> prompt -> outcome string.
Variable json_loads : string -> option parsed.
Variable write_ok : nat -> bool.
Variable now : nat -> string.
Variables (pdf_path output_path : string) (total_pages : Z).

(** One page when an overlap record cannot be sliced: no call, two sleeps,
    the course list as it was, and its checkpoint. *)
Lemma process_page_stalled i pg s w :
  2 <= length (all_courses s) ->
  ~ Forall desc_sliceable (lastn 2 (all_courses s)) ->
  exists s',
    process_page generate json_loads write_ok now pdf_path output_path
      total_pages i pg s w =
    (Return s',
     {| gen_calls := gen_calls w; saves := S (saves w);
        trace := trace w ++
          [EvSleep 2; EvSleep 2;
           EvWrite output_path
             (incremental_output_data (all_courses s) pdf_path i total_pages
                (now (saves w)))
             (write_ok (saves w))] |}) /\
    all_courses s' = all_courses s.
Proof.
  intros Hlen Hbad. unfold process_page.
  destruct (Nat.leb_spec 2 (length (all_courses s))) as [_|?]; [|lia].
  set (ctx := match context_pages s with [] => [] | _ :: _ => _ end).
  set (rec := match recent_courses s with [] => [] | _ :: _ => _ end).
  pose proof (ExtractionFacts.create_gemini_prompt_outcome pg ctx rec
                (Some (lastn 2 (all_courses s)))) as Hp.
  destruct (create_gemini_prompt pg ctx rec (Some (lastn 2 (all_courses s))))
    as [p|e] eqn:Hprompt.
  { destruct Hp as (_ & _ & Hok). by destruct Hbad. }
  unfold bind at 1. unfold extract_courses_from_page.
  change (Z.to_nat 3) with 3.
  rewrite (attempts_without_prompt generate json_loads pg ctx rec
             (Some (lastn 2 (all_courses s))) e 3 0 3 w Hprompt) by done.
  cbn [truthy]. unfold bind, ret, save_incremental_results, bind, timestamp_now,
    write_output. cbn.
  eexists. split; [rewrite <- app_assoc; reflexivity|]. reflexivity.
Qed.
End Stall.

(** X6. A record among the last two accumulated whose [course_desc] is
    present and cannot be sliced (a JSON [null] that the repair pass left,
    for one, or a number or a boolean; a string and a list can be sliced)
    stalls the extraction: for every later page the prompt cannot be built,
    so the service is never called, the page contributes nothing, and every
    checkpoint written holds the course list as it was. *)
Theorem unsliceable_overlap_stalls
    (generate : nat -> prompt -> outcome string)
    (json_loads : string -> option parsed)
    (write_ok : nat -> bool) (now : nat -> string)
    (pdf_path output_path : string) (total_pages : Z)
    (pages : list page) (i : Z) (s : loop_state) (w : world) :
  2 <= length (all_courses s) ->
  ~ Forall desc_sliceable (lastn 2 (all_courses s)) ->
  let rw := page_loop generate json_loads write_ok now pdf_path output_path
              total_pages pages i s w in
  (exists s', rw.1 = Return s' /\ all_courses s' = all_courses s) /\
  gen_calls rw.2 = gen_calls w /\
  exists tr,
    trace rw.2 = trace w ++ tr /\ generate_count tr = 0 /\
    length (written tr) = length pages /\
    Forall (fun doc => records_of doc = Some (all_courses s)) (written tr).
Proof.
  revert i s w. induction pages as [|pg rest IH]; intros i s w Hlen Hbad rw.
  { subst rw. simpl. split; [by exists s|]. split; [done|]. exists [].
    rewrite app_nil_r. by repeat split. }
  subst rw. cbn [page_loop]. unfold bind.
  destruct (process_page_stalled generate json_loads write_ok now pdf_path
              output_path total_pages i pg s w Hlen Hbad) as (s1 & -> & Hs1).
  cbv beta iota.
  set (w1 := {| gen_calls := _ |}).
  destruct (IH (i + 1)%Z s1 w1) as ((s' & Hr & Hs') & Hc & tr & Ht & Hg & Hl & Hw).
  { by rewrite Hs1. }
  { by rewrite Hs1. }
  split; [exists s'; split; [done|congruence]|]. split; [by rewrite Hc|].
  eexists (_ ++ tr). split; [rewrite Ht; subst w1; cbn [trace];
                             by rewrite <- app_assoc|].
  rewrite generate_count_app, Hg, HonoluluFacts.written_app, length_app.
  split; [done|]. split; [simpl; by rewrite Hl|].
  apply Forall_app. split; [by repeat constructor|]. by rewrite <- Hs1.
Qed.

Lemma unsliceable_overlap_stalls_witness :
  gen_calls
    (page_loop HonoluluScenario.generate HonoluluScenario.json_loads
       HonoluluScenario.write_ok HonoluluScenario.now "catalog/courses.pdf"
       "courses_extracted.json" 2 HonoluluScenario.pages 1
       HonoluluScenario.state_with_null_desc initial_world).2 = 0.
Proof.
  refine (proj1 (proj2 (unsliceable_overlap_stalls HonoluluScenario.generate
    HonoluluScenario.json_loads HonoluluScenario.write_ok HonoluluScenario.now
    "catalog/courses.pdf" "courses_extracted.json" 2 HonoluluScenario.pages 1
    HonoluluScenario.state_with_null_desc initial_world _ _))).
  - simpl. lia.
  - intros H. apply Forall_cons in H as [_ H]. apply Forall_cons in H as [H _].
    vm_compute in H. exact H.
Defined.

End ExtractionFacts.

(** ** Attempts that end in a success *)

Module RetryFacts.
Import Py Eff Honolulu HonoluluSpec.

Section Retry.
Variable generate : nat -> prompt -> outcome string.
Variable json_loads : string -> option parsed.
Variables (pg : page) (ctx : list page) (recent : list pyobj)
          (overlap : option (list pyobj)) (p : prompt).
Hypothesis prompt_built : create_gemini_prompt pg ctx recent overlap = Return p.

Lemma attempts_fail_then j : forall n attempt max_retries w,
  (attempt + Z.of_nat n = max_retries)%Z -> j < n ->
  (forall k, k < j -> attempt_fails json_loads (generate (gen_calls w + k) p)) ->
  exists sleeps,
    length sleeps = j /\ Forall (fun secs => (1 <= secs)%Z) sleeps /\
    forall v w',
      attempt_body generate json_loads pg ctx recent overlap
        {| gen_calls := gen_calls w + j; saves := saves w;
           trace := trace w ++ failed_events p sleeps |} = (Return v, w') ->
      attempts n attempt max_retries
        (attempt_body generate json_loads pg ctx recent overlap) w
      = (Return v, w').
Proof.
  induction j as [|j IH]; intros n attempt max_retries w Hsum Hlt Hfail.
  - exists []. split; [done|]. split; [constructor|]. intros v w' Hbody.
    destruct n as [|n]; [lia|]. simpl. unfold try_except.
    replace {| gen_calls := gen_calls w + 0; saves := saves w;
               trace := trace w ++ failed_events p [] |} with w in Hbody.
    + by rewrite Hbody.
    + destruct w. simpl. by rewrite Nat.add_0_r, app_nil_r.
  - destruct n as [|n]; [lia|].
    destruct (HonoluluFacts.attempt_body_fails generate json_loads pg ctx recent
                overlap p prompt_built w) as [e He].
    { rewrite <- (Nat.add_0_r (gen_calls w)). apply Hfail. lia. }
    set (secs := match e with JSONDecodeError => 1%Z | _ => 2%Z end).
    set (w2 := {| gen_calls := S (gen_calls w); saves := saves w;
                  trace := (trace w ++ [EvGenerate p]) ++ [EvSleep secs] |}).
    destruct (IH n (attempt + 1)%Z max_retries w2) as (sl & Hl & Hs & Hthen).
    { lia. }
    { lia. }
    { intros k Hk. subst w2. cbn [gen_calls].
      replace (S (gen_calls w) + k) with (gen_calls w + S k) by lia.
      apply Hfail. lia. }
    exists (secs :: sl). split; [simpl; by rewrite Hl|]. split.
    { constructor; [|done]. subst secs. destruct e; lia. }
    intros v w' Hbody. simpl. unfold try_except. rewrite He.
    destruct (Z.eqb_spec attempt (max_retries - 1)) as [?|_]; [lia|].
    unfold bind, sleep, emit. cbn [gen_calls saves trace]. fold secs. fold w2.
    apply Hthen. subst w2. cbn [gen_calls saves trace].
    replace (S (gen_calls w) + j) with (gen_calls w + S j) by lia.
    rewrite <- Hbody. do 2 f_equal. simpl. by rewrite <- !app_assoc.
Qed.
End Retry.

(** X7. The retry loop stops at the first attempt that succeeds: after [j]
    failed attempts ([j] below [max_retries]), each followed by a sleep of
    at least one second, what the next attempt returns is what
    [extract_courses_from_page] returns, with no further call or sleep. *)
Theorem retry_stops_at_first_success
    (generate : nat -> prompt -> outcome string)
    (json_loads : string -> option parsed)
    (pg : page) (ctx : list page) (recent : list pyobj)
    (overlap : option (list pyobj)) (p : prompt) (max_retries : Z)
    (j : nat) (w : world) :
  create_gemini_prompt pg ctx recent overlap = Return p ->
  (Z.of_nat j < max_retries)%Z ->
  (forall k, k < j -> attempt_fails json_loads (generate (gen_calls w + k) p)) ->
  exists sleeps,
    length sleeps = j /\ Forall (fun secs => (1 <= secs)%Z) sleeps /\
    forall v w',
      attempt_body generate json_loads pg ctx recent overlap
        {| gen_calls := gen_calls w + j; saves := saves w;
           trace := trace w ++ failed_events p sleeps |} = (Return v, w') ->
      extract_courses_from_page generate json_loads pg ctx recent overlap
        max_retries w = (Return v, w').
Proof.
  intros Hp Hj Hfail. unfold extract_courses_from_page.
  apply (attempts_fail_then generate json_loads pg ctx recent overlap p Hp j);
    [lia|lia|done].
Qed.

Lemma retry_stops_at_first_success_witness :
  (extract_courses_from_page HonoluluScenario.generate_flaky
     HonoluluScenario.json_loads HonoluluScenario.page_one [] [] None 3
     initial_world).1 = Return (PList [HonoluluScenario.acc124_updated]).
Proof.
  destruct (retry_stops_at_first_success HonoluluScenario.generate_flaky
              HonoluluScenario.json_loads HonoluluScenario.page_one [] [] None
              (ExtractionPrompt HonoluluScenario.page_one [] [] None) 3 1
              initial_world) as (sleeps & _ & _ & H).
  - reflexivity.
  - lia.
  - intros [|k] Hk; [exact I|lia].
  - erewrite H; [reflexivity|]. reflexivity.
Defined.

End RetryFacts.

(** ** Whole runs of the PDF extractor *)

Module RunFacts.
Import Py Eff Logic LogicFacts Honolulu HonoluluSpec.

Lemma growing_nil : growing [].
Proof. intros ? ? ? ? _ Hi. by rewrite lookup_nil in Hi. Qed.

Section Run.
Variable generate : nat -> prompt -> outcome string.
Variable json_loads : string -> option parsed.
Variable read_pdf : string -> pdf_reader.
Variable write_ok : nat -> bool.
Variable now : nat -> string.
Variable call_body : string -> pyobj -> M world bool.
Variables (pdf_path output_path : string) (total_pages : Z).

(** One page, from a key-unique course list: the checkpoint written holds
    the new course list, which starts with the old one. *)
Lemma process_page_step i pg s w :
  key_unique (all_courses s) ->
  let rw := process_page generate json_loads write_ok now pdf_path
              output_path total_pages i pg s w in
  exists tr, trace rw.2 = trace w ++ tr /\
    match rw.1 with
    | Return s' =>
        key_unique (all_courses s') /\
        all_courses s `prefix_of` all_courses s' /\
        exists ts,
          written tr =
            [incremental_output_data (all_courses s') pdf_path i total_pages ts]
    | Raise _ => written tr = []
    end.
Proof.
  intros Hu. unfold process_page, bind.
  set (c1 := extract_courses_from_page _ _ _ _ _ _ _).
  destruct (HonoluluFacts.sat_extract_courses_from_page generate json_loads
              (fun ev => is_write ev = false) (fun _ => eq_refl)
              (fun _ => eq_refl) pg
              match context_pages s with [] => [] | _ :: _ => lastn 3 (context_pages s) end
              match recent_courses s with [] => [] | _ :: _ => lastn 5 (recent_courses s) end
              (if (2 <=? length (all_courses s))%nat
               then Some (lastn 2 (all_courses s)) else None) 3 w)
    as [(tr1 & Htr1 & Hnw) _].
  fold c1 in Htr1. destruct (c1 w) as [[courses|e] w1]; simpl in *.
  2: { exists tr1. split; [done|]. by apply HonoluluFacts.written_no_write. }
  assert (forall (u : list pyobj * list pyobj),
    key_unique u.1 -> all_courses s `prefix_of` u.1 ->
    let rw :=
      (let (o, w') := save_incremental_results write_ok now u.1 pdf_path
                        output_path i total_pages w1 in
       match o with
       | Return a => ret (A := loop_state)
           {| all_courses := u.1;
              context_pages :=
                if (3 <? length (context_pages s ++ [pg]))%nat
                then lastn 3 (context_pages s ++ [pg])
                else context_pages s ++ [pg];
              recent_courses :=
                if (5 <? length u.2)%nat then lastn 5 u.2 else u.2 |} w'
       | Raise e => (Raise e, w')
       end) in
    exists tr, trace rw.2 = trace w ++ tr /\
      match rw.1 with
      | Return s' =>
          key_unique (all_courses s') /\
          all_courses s `prefix_of` all_courses s' /\
          exists ts,
            written tr =
              [incremental_output_data (all_courses s') pdf_path i total_pages ts]
      | Raise _ => written tr = []
      end) as Hsave.
  { intros u Hku Hpre. simpl. eexists (tr1 ++ [_]). split.
    - rewrite Htr1, <- app_assoc. reflexivity.
    - split; [done|]. split; [done|].
      rewrite HonoluluFacts.written_app, (HonoluluFacts.written_no_write tr1 Hnw).
      simpl. eauto. }
  destruct (truthy courses).
  - unfold lift. destruct (py_iter courses) as [items|e]; simpl.
    2: { exists tr1. split; [done|]. by apply HonoluluFacts.written_no_write. }
    destruct (deduplicate_courses _) as [d|e] eqn:Hd; simpl.
    2: { exists tr1. split; [done|]. by apply HonoluluFacts.written_no_write. }
    apply (Hsave (d, recent_courses s ++ items)); simpl.
    + by eapply HonoluluFacts.deduplicate_courses_unique.
    + by eapply HonoluluFacts.deduplicate_courses_keeps_first.
  - by apply (Hsave (all_courses s, recent_courses s)).
Qed.

(** The page loop, from a key-unique course list: the record lists of its
    checkpoints grow, start with the list it began with and are prefixes of
    the list it ends with. *)
Lemma page_loop_growing pages : forall i s w,
  key_unique (all_courses s) ->
  let rw := page_loop generate json_loads write_ok now pdf_path output_path
              total_pages pages i s w in
  exists tr, trace rw.2 = trace w ++ tr /\
    growing (written tr) /\
    Forall (fun doc => exists recs, records_of doc = Some recs /\
                                    all_courses s `prefix_of` recs)
           (written tr) /\
    forall s', rw.1 = Return s' ->
      all_courses s `prefix_of` all_courses s' /\
      Forall (fun doc => exists recs, records_of doc = Some recs /\
                                      recs `prefix_of` all_courses s')
             (written tr).
Proof.
  induction pages as [|pg rest IH]; intros i s w Hu; simpl.
  { exists []. rewrite app_nil_r. split; [done|]. split; [apply growing_nil|].
    split; [constructor|]. intros s' [= <-]. split; [done|constructor]. }
  unfold bind.
  destruct (process_page_step i pg s w Hu) as (tr1 & Htr1 & Hstep).
  destruct (process_page _ _ _ _ _ _ _ i pg s w) as [[s1|e] w1]; simpl in *.
  2: { exists tr1. rewrite Hstep. split; [done|]. split; [apply growing_nil|].
       split; [constructor|]. by intros ? [=]. }
  destruct Hstep as (Hu1 & Hpre & ts & Hw1).
  destruct (IH (i + 1)%Z s1 w1 Hu1) as (tr2 & Htr2 & Hgrow & Hfrom & Hto).
  exists (tr1 ++ tr2). split; [by rewrite Htr2, Htr1, app_assoc|].
  rewrite HonoluluFacts.written_app, Hw1. simpl. split; [|split].
  - intros a b da db Hab Ha Hb. destruct a as [|a], b as [|b]; simpl in *.
    + injection Ha as <-. injection Hb as <-. by eexists _, _.
    + injection Ha as <-.
      rewrite Forall_forall in Hfrom.
      destruct (Hfrom db) as (recs & Hr & Hp); [by eapply list_elem_of_lookup_2|].
      by eexists _, recs.
    + lia.
    + eapply (Hgrow a b); eauto. lia.
  - constructor; [by eexists|].
    eapply Forall_impl; [exact Hfrom|]. intros doc (recs & Hr & Hp).
    exists recs. split; [done|]. by etrans.
  - intros s' Hs'. destruct (Hto s' Hs') as [Hp1 Hall].
    split; [by etrans|]. constructor; [by eexists|done].
Qed.
End Run.

(** *** Counting calls *)

Abbreviation calls := (bounded trace generate_count).

Lemma calls_ret {A} (a : A) : calls (ret a) 0.
Proof. intros w. exists []. by rewrite app_nil_r. Qed.

Lemma calls_raise {A} e : calls (raise (A := A) e) 0.
Proof. intros w. exists []. by rewrite app_nil_r. Qed.

Lemma calls_lift {A} (o : outcome A) : calls (lift o) 0.
Proof. intros w. exists []. by rewrite app_nil_r. Qed.

Lemma calls_weaken {A} (c : M world A) a b :
  a <= b -> calls c a -> calls c b.
Proof.
  intros Hab Hc w. destruct (Hc w) as (tr & ? & ?). exists tr. split; [done|lia].
Qed.

Lemma calls_bind {A B} (c : M world A) (k : A -> M world B) a b :
  calls c a -> (forall x, calls (k x) b) -> calls (bind c k) (a + b).
Proof.
  intros Hc Hk w. unfold bind. destruct (Hc w) as (t1 & Ht1 & Hn1).
  destruct (c w) as [[x|e] w1]; simpl in *.
  - destruct (Hk x w1) as (t2 & Ht2 & Hn2). exists (t1 ++ t2).
    split; [by rewrite Ht2, Ht1, app_assoc|].
    rewrite ExtractionFacts.generate_count_app. lia.
  - exists t1. split; [done|lia].
Qed.

Lemma calls_try {A} (c : M world A) (h : exn -> M world A) a b :
  calls c a -> (forall e, calls (h e) b) -> calls (try_except c h) (a + b).
Proof.
  intros Hc Hh w. unfold try_except. destruct (Hc w) as (t1 & Ht1 & Hn1).
  destruct (c w) as [[x|e] w1]; simpl in *.
  - exists t1. split; [done|lia].
  - destruct (Hh e w1) as (t2 & Ht2 & Hn2). exists (t1 ++ t2).
    split; [by rewrite Ht2, Ht1, app_assoc|].
    rewrite ExtractionFacts.generate_count_app. lia.
Qed.

Section Calls.
Variable generate : nat -> prompt -> outcome string.
Variable json_loads : string -> option parsed.

Lemma calls_generate_content p : calls (generate_content generate p) 1.
Proof. intros w. exists [EvGenerate p]. split; [done|]. by vm_compute. Qed.

Lemma calls_sleep secs : calls (sleep secs) 0.
Proof. intros w. exists [EvSleep secs]. split; [done|]. by vm_compute. Qed.

Lemma calls_loads s : calls (loads json_loads s) 0.
Proof.
  unfold loads. destruct (json_loads s).
  - by apply calls_ret.
  - by apply calls_raise.
Qed.

Lemma calls_validate_and_fix_courses courses ctx recent :
  calls (validate_and_fix_courses generate json_loads courses ctx recent) 1.
Proof.
  unfold validate_and_fix_courses. destruct courses as [|c l].
  { apply (calls_weaken _ 0 1); [lia|]. by apply calls_ret. }
  apply (calls_bind _ _ 0 1).
  { by apply calls_lift. }
  intros fixing. destruct fixing; simpl.
  2: { apply (calls_weaken _ 0 1); [lia|]. by apply calls_ret. }
  apply (calls_try _ _ 1 0).
  2: { intros e. by apply calls_ret. }
  apply (calls_bind _ _ 1 0).
  { apply calls_generate_content. }
  intros t.
  apply (calls_bind _ _ 0 0).
  { apply calls_loads. }
  intros f. by apply calls_ret.
Qed.

Lemma calls_attempt_body pg ctx recent overlap :
  calls (attempt_body generate json_loads pg ctx recent overlap) 2.
Proof.
  unfold attempt_body.
  apply (calls_bind _ _ 0 2).
  { by apply calls_lift. }
  intros p.
  apply (calls_bind _ _ 1 1).
  { apply calls_generate_content. }
  intros t.
  apply (calls_bind _ _ 0 1).
  { apply calls_loads. }
  intros c.
  apply (calls_bind _ _ 1 0).
  { apply calls_validate_and_fix_courses. }
  intros c'.
  apply (calls_bind _ _ 0 0).
  { by apply calls_lift. }
  intros n. by apply calls_ret.
Qed.

Lemma calls_attempts n : forall attempt max_retries body,
  calls body 2 -> calls (attempts n attempt max_retries body) (2 * n).
Proof.
  induction n as [|n IH]; intros attempt max_retries body Hbody;
    cbn [attempts].
  { by apply calls_ret. }
  replace (2 * S n) with (2 + 2 * n) by lia.
  apply calls_try; [done|].
  intros e. destruct (attempt =? max_retries - 1)%Z.
  { apply (calls_weaken _ 0 (2 * n)); [lia|]. by apply calls_ret. }
  apply (calls_bind _ _ 0).
  { apply calls_sleep. }
  intros _. by apply IH.
Qed.

(** An attempt that returns has passed [len]: what it returns can be
    iterated. *)
Lemma attempt_body_iterable pg ctx recent overlap w v :
  (attempt_body generate json_loads pg ctx recent overlap w).1 = Return v ->
  exists items, py_iter v = Return items.
Proof.
  assert (satisfies trace (attempt_body generate json_loads pg ctx recent overlap)
            (fun _ => True) (fun v => exists items, py_iter v = Return items)) as H.
  { unfold attempt_body.
    HonoluluFacts.bind_any ltac:(by apply satisfies_lift). intros p _.
    HonoluluFacts.bind_any ltac:(by apply HonoluluFacts.sat_generate_content). intros t _.
    HonoluluFacts.bind_any ltac:(by apply HonoluluFacts.sat_loads). intros c _.
    HonoluluFacts.bind_any ltac:(by apply HonoluluFacts.sat_validate_and_fix_courses).
    intros c' _.
    eapply (satisfies_bind _ _ _ _ (fun n => py_len c' = Return n)).
    { by apply satisfies_lift. }
    intros n Hn. apply satisfies_ret.
    destruct c' as [l|[d|[| | | |s|]]]; simpl in *; try discriminate; eauto. }
  intros Hv. by apply (H w).
Qed.

(** The loop of attempts returns, and what it returns can be iterated. *)
Lemma attempts_return pg ctx recent overlap n : forall attempt max_retries w,
  exists v items,
    (attempts n attempt max_retries
       (attempt_body generate json_loads pg ctx recent overlap) w).1 = Return v /\
    py_iter v = Return items.
Proof.
  induction n as [|n IH]; intros attempt max_retries w; cbn [attempts].
  { by exists (PList []), []. }
  unfold try_except.
  pose proof (attempt_body_iterable pg ctx recent overlap w) as Hbody.
  destruct (attempt_body generate json_loads pg ctx recent overlap w)
    as [[v|e] w1]; simpl in *.
  - destruct (Hbody v eq_refl) as [items Hit]. by exists v, items.
  - destruct (attempt =? max_retries - 1)%Z; [by exists (PList []), []|].
    unfold bind, sleep, emit. simpl. apply IH.
Qed.
End Calls.

(** X8. [extract_courses_from_page] never raises, whatever the service and
    the parser do: it returns a value that can be iterated, after at most
    two calls of the service for each attempt (the extraction and possibly
    one repair), hence at most [2 * max_retries] calls. *)
Theorem page_extraction_never_raises
    (generate : nat -> prompt -> outcome string)
    (json_loads : string -> option parsed)
    (pg : page) (ctx : list page) (recent : list pyobj)
    (overlap : option (list pyobj)) (max_retries : Z) (w : world) :
  let rw := extract_courses_from_page generate json_loads pg ctx recent overlap
              max_retries w in
  (exists v items, rw.1 = Return v /\ py_iter v = Return items) /\
  exists tr, trace rw.2 = trace w ++ tr /\
             generate_count tr <= 2 * Z.to_nat max_retries.
Proof.
  split.
  - apply attempts_return.
  - apply calls_attempts, calls_attempt_body.
Qed.

Section Outcomes.
Variable generate : nat -> prompt -> outcome string.
Variable json_loads : string -> option parsed.
Variable read_pdf : string -> pdf_reader.
Variable write_ok : nat -> bool.
Variable now : nat -> string.
Variable call_body : string -> pyobj -> M world bool.
Variables (pdf_path output_path : string).

(** A page can only raise where the new list is de-duplicated. *)
Lemma process_page_raises total_pages i pg s w e :
  (process_page generate json_loads write_ok now pdf_path output_path
     total_pages i pg s w).1 = Raise e -> e = AttributeError.
Proof.
  unfold process_page, bind.
  set (ctx := match context_pages s with [] => [] | _ :: _ => _ end).
  set (rec := match recent_courses s with [] => [] | _ :: _ => _ end).
  set (ov := if (2 <=? length (all_courses s))%nat then _ else _).
  destruct (attempts_return generate json_loads pg ctx rec ov (Z.to_nat 3) 0 3 w)
    as (v & items & Hv & Hit).
  unfold extract_courses_from_page.
  destruct (attempts _ _ _ _ w) as [[courses|e1] w1]; simpl in Hv;
    [|discriminate].
  injection Hv as ->. destruct (truthy v); [|by simpl].
  unfold lift. rewrite Hit.
  pose proof (DedupFacts.dedup_loop_outcome (all_courses s ++ items) ∅ []) as Hd.
  unfold deduplicate_courses.
  destruct (dedup_loop _ _ _) as [d|e2]; simpl; [done|].
  destruct Hd as [-> _]. by intros [= <-].
Qed.

Lemma page_loop_raises total_pages pages : forall i s w e,
  (page_loop generate json_loads write_ok now pdf_path output_path
     total_pages pages i s w).1 = Raise e -> e = AttributeError.
Proof.
  induction pages as [|pg rest IH]; intros i s w e; simpl; [done|].
  unfold bind.
  pose proof (process_page_raises total_pages i pg s w) as Hp.
  destruct (process_page _ _ _ _ _ _ _ i pg s w) as [[s1|e1] w1]; simpl in *.
  - apply IH.
  - intros [= <-]. by apply Hp.
Qed.

(** [extract_text_from_pdf] raises exactly what the pdfplumber branch
    raises when PyMuPDF cannot be imported. *)
Lemma extract_text_from_pdf_raises e :
  extract_text_from_pdf read_pdf pdf_path = Raise e <->
  with_fitz (read_pdf pdf_path) = ImportFails /\
  with_pdfplumber (read_pdf pdf_path) = ReadFails e.
Proof.
  unfold extract_text_from_pdf.
  destruct (with_fitz _); [by split; [|intros []]| |by split; [|intros []]].
  destruct (with_pdfplumber _); split; try done; try (by intros []).
  - by intros [= ->].
  - by intros [_ [= ->]].
Qed.

(** The outcome of a run, and what it wrote when it returns. *)
Lemma run_outcome api_key_set :
  let rw := extract_courses_from_pdf generate json_loads read_pdf write_ok now
              call_body api_key_set pdf_path output_path initial_world in
  match rw.1 with
  | Return _ =>
      Forall (fun doc => records_of doc = Some []) (written (trace rw.2))
  | Raise e =>
      e = NameError "validate_and_fix_course" \/ e = AttributeError \/
      (with_fitz (read_pdf pdf_path) = ImportFails /\
       with_pdfplumber (read_pdf pdf_path) = ReadFails e /\
       rw.2 = initial_world)
  end.
Proof.
  cbv zeta. rewrite HonoluluFacts.extract_courses_from_pdf_unfold.
  destruct api_key_set; [|constructor].
  destruct (extract_text_from_pdf read_pdf pdf_path)
    as [[[|pg rest]|]|e] eqn:Hread; [constructor| |constructor|].
  2: { right; right. by apply extract_text_from_pdf_raises in Hread as [? ?]. }
  set (pages := pg :: rest). cbv zeta. unfold bind.
  destruct (page_loop_growing generate json_loads write_ok now pdf_path
              output_path (Z.of_nat (length pages)) pages 1 initial_loop_state
              initial_world HonoluluFacts.key_unique_nil)
    as (tr & Htr & _ & _ & Hto).
  pose proof (page_loop_raises (Z.of_nat (length pages)) pages 1
                initial_loop_state initial_world) as Hraise.
  change (trace initial_world ++ tr) with tr in Htr.
  set (pl := page_loop generate json_loads write_ok now pdf_path output_path
               (Z.of_nat (length pages)) pages 1 initial_loop_state
               initial_world) in *.
  destruct pl as [[s|e] w1]; cbn [fst snd] in *.
  2: { right; left. by apply Hraise. }
  destruct (Hto s eq_refl) as [_ Hall].
  destruct (all_courses s) as [|c l]; cbn.
  - rewrite Htr, HonoluluFacts.written_app. apply Forall_app. split.
    + eapply Forall_impl; [exact Hall|]. intros doc (recs & -> & Hp).
      by apply prefix_nil_inv in Hp as ->.
    + by repeat constructor.
  - by left.
Qed.
End Outcomes.

(** X9. [extract_courses_from_pdf] and its caller [main] can only come to
    their end with nothing extracted: when either returns, every artifact
    written in the run, checkpoints and final result alike, holds no
    course. Otherwise the run ends in the [NameError] of the final
    validation loop, in the [AttributeError] of a de-duplication that met
    an element that is no JSON object, or, with nothing done, in the
    exception that the pdfplumber branch of [extract_text_from_pdf] raised
    after PyMuPDF could not be imported. *)
Theorem run_ends_only_without_courses
    (generate : nat -> prompt -> outcome string)
    (json_loads : string -> option parsed)
    (read_pdf : string -> pdf_reader)
    (write_ok : nat -> bool) (now : nat -> string)
    (call_body : string -> pyobj -> M world bool)
    (script_dir pdf_path output_path : string)
    (path_exists : string -> bool) (api_key_set : bool) :
  let ended {A} (path : string) (rw : outcome A * world) :=
    match rw.1 with
    | Return _ =>
        Forall (fun doc => records_of doc = Some []) (written (trace rw.2))
    | Raise e =>
        e = NameError "validate_and_fix_course" \/ e = AttributeError \/
        (with_fitz (read_pdf path) = ImportFails /\
         with_pdfplumber (read_pdf path) = ReadFails e /\
         rw.2 = initial_world)
    end in
  ended pdf_path
    (extract_courses_from_pdf generate json_loads read_pdf write_ok now
       call_body api_key_set pdf_path output_path initial_world) /\
  ended (path_join script_dir "courses.pdf")
    (main generate json_loads read_pdf write_ok now call_body script_dir
       path_exists api_key_set initial_world).
Proof.
  split; [apply run_outcome|].
  unfold main. destruct (path_exists _); [|constructor].
  change (negb true) with false. cbv beta match. unfold bind.
  pose proof (run_outcome generate json_loads read_pdf write_ok now call_body
                (path_join script_dir "courses.pdf")
                (path_join script_dir "courses_extracted.json") api_key_set) as H.
  cbv zeta in H.
  destruct (extract_courses_from_pdf _ _ _ _ _ _ _ _ _ _) as [[b|e] w1]; done.
Qed.

Lemma growing_empty docs :
  Forall (fun doc => records_of doc = Some []) docs -> growing docs.
Proof.
  intros Hall i j di dj _ Hi Hj.
  rewrite Forall_forall in Hall.
  exists [], []. split_and!; [| |done].
  - apply Hall. by eapply list_elem_of_lookup_2.
  - apply Hall. by eapply list_elem_of_lookup_2.
Qed.

(** X10. Within a run of [extract_courses_from_pdf], the record list in the
    output file only grows: the records of every artifact written are a
    prefix of the records of every artifact written after it, so a record
    once saved is never dropped, changed or moved by a later save. *)
Theorem saved_records_only_grow
    (generate : nat -> prompt -> outcome string)
    (json_loads : string -> option parsed)
    (read_pdf : string -> pdf_reader)
    (write_ok : nat -> bool) (now : nat -> string)
    (call_body : string -> pyobj -> M world bool)
    (api_key_set : bool) (pdf_path output_path : string) :
  growing (written (trace
    (extract_courses_from_pdf generate json_loads read_pdf write_ok now
       call_body api_key_set pdf_path output_path initial_world).2)).
Proof.
  pose proof (run_outcome generate json_loads read_pdf write_ok now call_body
                pdf_path output_path api_key_set) as Hout.
  cbv zeta in Hout. revert Hout.
  rewrite HonoluluFacts.extract_courses_from_pdf_unfold.
  destruct api_key_set; [|intros; apply growing_nil].
  destruct (extract_text_from_pdf read_pdf pdf_path) as [[[|pg rest]|]|e];
    try (intros; apply growing_nil).
  set (pages := pg :: rest). cbv zeta. unfold bind.
  destruct (page_loop_growing generate json_loads write_ok now pdf_path
              output_path (Z.of_nat (length pages)) pages 1 initial_loop_state
              initial_world HonoluluFacts.key_unique_nil)
    as (tr & Htr & Hgrow & _ & _).
  change (trace initial_world ++ tr) with tr in Htr.
  set (pl := page_loop generate json_loads write_ok now pdf_path output_path
               (Z.of_nat (length pages)) pages 1 initial_loop_state
               initial_world) in *.
  destruct pl as [[s|e] w1]; cbn [fst snd] in *; subst tr.
  2: { intros _. exact Hgrow. }
  destruct (all_courses s) as [|c l]; cbn.
  - apply growing_empty.
  - intros _. exact Hgrow.
Qed.

(** *** The first effect of a run *)

Abbreviation quiet c := (satisfies trace c (fun _ => True) (fun _ => True)).

Lemma starts_bind {A B} (c : M world A) (k : A -> M world B) ev :
  starts_with trace c ev -> (forall x, quiet (k x)) ->
  starts_with trace (bind c k) ev.
Proof.
  intros Hc Hk w. unfold bind. destruct (Hc w) as (t1 & Ht1).
  destruct (c w) as [[x|e] w1]; simpl in *; [|by exists t1].
  destruct (Hk x w1) as [(t2 & Ht2 & _) _]. exists (t1 ++ t2).
  by rewrite Ht2, Ht1, <- app_assoc.
Qed.

Lemma starts_try {A} (c : M world A) (h : exn -> M world A) ev :
  starts_with trace c ev -> (forall e, quiet (h e)) ->
  starts_with trace (try_except c h) ev.
Proof.
  intros Hc Hh w. unfold try_except. destruct (Hc w) as (t1 & Ht1).
  destruct (c w) as [[x|e] w1]; simpl in *; [by exists t1|].
  destruct (Hh e w1) as [(t2 & Ht2 & _) _]. exists (t1 ++ t2).
  by rewrite Ht2, Ht1, <- app_assoc.
Qed.

Lemma starts_bind_lift {A B} (o : outcome A) (a : A) (k : A -> M world B) ev :
  o = Return a -> starts_with trace (k a) ev ->
  starts_with trace (bind (lift o) k) ev.
Proof. intros -> H w. exact (H w). Qed.

Section First.
Variable generate : nat -> prompt -> outcome string.
Variable json_loads : string -> option parsed.
Variable write_ok : nat -> bool.
Variable now : nat -> string.
Variable call_body : string -> pyobj -> M world bool.
Variables (pdf_path output_path : string).

Lemma quiet_process_page total_pages i pg s :
  quiet (process_page generate json_loads write_ok now pdf_path output_path
           total_pages i pg s).
Proof.
  unfold process_page.
  HonoluluFacts.bind_any ltac:(by apply HonoluluFacts.sat_extract_courses_from_page).
  intros courses _.
  HonoluluFacts.bind_any ltac:(idtac).
  { destruct (truthy courses); [|by apply satisfies_ret].
    HonoluluFacts.bind_any ltac:(by apply satisfies_lift). intros items _.
    HonoluluFacts.bind_any ltac:(by apply satisfies_lift). intros d _.
    by apply satisfies_ret. }
  intros u _.
  HonoluluFacts.bind_any ltac:(by apply HonoluluFacts.sat_save_incremental_results).
  intros _ _. by apply satisfies_ret.
Qed.

Lemma quiet_page_loop total_pages pages : forall i s,
  quiet (page_loop generate json_loads write_ok now pdf_path output_path
           total_pages pages i s).
Proof.
  induction pages as [|pg rest IH]; intros i s; simpl.
  { by apply satisfies_ret. }
  HonoluluFacts.bind_any ltac:(apply quiet_process_page). intros s' _. apply IH.
Qed.

Lemma quiet_final_validation courses :
  quiet (final_validation call_body courses []).
Proof.
  destruct courses as [|c l]; [by apply satisfies_ret|].
  intros w. split; [apply extends_refl|]. by cbn.
Qed.

Lemma starts_attempts n attempt max_retries (body : M world parsed) ev :
  starts_with trace body ev -> quiet body ->
  starts_with trace (attempts (S n) attempt max_retries body) ev.
Proof.
  intros Hs Hq. simpl. apply starts_try; [done|]. intros e.
  destruct (attempt =? max_retries - 1)%Z; [by apply satisfies_ret|].
  HonoluluFacts.bind_any ltac:(by apply HonoluluFacts.sat_emit).
  intros _ _. by apply HonoluluFacts.sat_attempts.
Qed.

Lemma starts_process_page total_pages i pg :
  starts_with trace
    (process_page generate json_loads write_ok now pdf_path output_path
       total_pages i pg initial_loop_state)
    (EvGenerate (ExtractionPrompt pg [] [] None)).
Proof.
  unfold process_page. apply starts_bind.
  - unfold extract_courses_from_page. change (Z.to_nat 3) with 3.
    apply starts_attempts;
      [|by apply HonoluluFacts.sat_attempt_body].
    unfold attempt_body.
    {
      eapply starts_bind_lift; [reflexivity|].
      apply starts_bind.
      * intros w. by exists [].
      * intros t.
        HonoluluFacts.bind_any ltac:(by apply HonoluluFacts.sat_loads).
        intros c _.
        HonoluluFacts.bind_any
          ltac:(by apply HonoluluFacts.sat_validate_and_fix_courses).
        intros c' _.
        HonoluluFacts.bind_any ltac:(by apply satisfies_lift). intros n _.
        by apply satisfies_ret. }
  - intros courses.
    HonoluluFacts.bind_any ltac:(idtac).
    { destruct (truthy courses); [|by apply satisfies_ret].
      HonoluluFacts.bind_any ltac:(by apply satisfies_lift). intros items _.
      HonoluluFacts.bind_any ltac:(by apply satisfies_lift). intros d _.
      by apply satisfies_ret. }
    intros u _.
    HonoluluFacts.bind_any
      ltac:(by apply HonoluluFacts.sat_save_incremental_results).
    intros _ _. by apply satisfies_ret.
Qed.
End First.

(** The first page that [extract_text_from_pdf] returns has number 1. *)
Lemma first_page_number read_pdf pdf_path pg rest :
  extract_text_from_pdf read_pdf pdf_path = Return (Some (pg :: rest)) ->
  page_number pg = 1%Z.
Proof.
  unfold extract_text_from_pdf.
  destruct (with_fitz _) as [[|t ts]| |]; try done.
  - by intros [= <- _].
  - destruct (with_pdfplumber _) as [[|t ts]| |]; try done.
    by intros [= <- _].
Qed.

(** X11. [extract_courses_from_pdf] returns [False] with no effect at all
    when the API key is missing or when [extract_text_from_pdf] gives
    [None] or no page; it raises with no effect at all when
    [extract_text_from_pdf] raises, which is when PyMuPDF cannot be
    imported and the pdfplumber branch raises; in every other case the
    first thing it does is to call the service for page 1, with no context
    pages, no recent courses and no overlap. *)
Theorem run_first_effect
    (generate : nat -> prompt -> outcome string)
    (json_loads : string -> option parsed)
    (read_pdf : string -> pdf_reader)
    (write_ok : nat -> bool) (now : nat -> string)
    (call_body : string -> pyobj -> M world bool)
    (api_key_set : bool) (pdf_path output_path : string) :
  let rw := extract_courses_from_pdf generate json_loads read_pdf write_ok now
              call_body api_key_set pdf_path output_path initial_world in
  match api_key_set, extract_text_from_pdf read_pdf pdf_path with
  | true, Return (Some (pg :: _)) =>
      page_number pg = 1%Z /\
      exists tr, trace rw.2 = EvGenerate (ExtractionPrompt pg [] [] None) :: tr
  | true, Raise e =>
      with_fitz (read_pdf pdf_path) = ImportFails /\
      with_pdfplumber (read_pdf pdf_path) = ReadFails e /\
      rw = (Raise e, initial_world)
  | _, _ => rw = (Return false, initial_world)
  end.
Proof.
  cbv zeta. rewrite HonoluluFacts.extract_courses_from_pdf_unfold.
  destruct api_key_set;
    [|by destruct (extract_text_from_pdf read_pdf pdf_path) as [[[|??]|]|?]].
  destruct (extract_text_from_pdf read_pdf pdf_path)
    as [[[|pg rest]|]|e] eqn:Hread; try done.
  2: { by apply extract_text_from_pdf_raises in Hread as [? ?]. }
  split; [by eapply first_page_number|].
  assert (starts_with trace
            (let! s := page_loop generate json_loads write_ok now pdf_path
                         output_path (Z.of_nat (length (pg :: rest)))
                         (pg :: rest) 1 initial_loop_state in
             let! validated_courses := final_validation call_body (all_courses s) [] in
             let! ts := timestamp_now now in
             write_output write_ok output_path
               (final_output_data validated_courses pdf_path
                  (Z.of_nat (length (pg :: rest))) ts))
            (EvGenerate (ExtractionPrompt pg [] [] None))) as H.
  { apply starts_bind.
    - cbn [page_loop]. apply starts_bind; [apply starts_process_page|].
      intros s'. apply quiet_page_loop.
    - intros s.
      HonoluluFacts.bind_any ltac:(apply quiet_final_validation). intros v _.
      intros w. split; [|done]. eexists [_]. split; [reflexivity|].
      by repeat constructor. }
  destruct (H initial_world) as (tr & Htr). exists tr. exact Htr.
Qed.

End RunFacts.

(** ** The Kauai crawler: what a run does, in order *)

Module KauaiRunFacts.
Import Py Eff Kauai KauaiSpec.

Lemma departments_fmap d : departments (EvDepartment <$> d) = d.
Proof.
  unfold departments. induction d as [|u r IH]; [done|].
  rewrite fmap_cons. cbn [omap list_omap]. by rewrite IH.
Qed.

Lemma add_courses_quiet courses : forall w,
  let rw := add_courses courses w in
  rw.1 = Return () /\ trace rw.2 = trace w /\
  visited_dept_urls rw.2 = visited_dept_urls w.
Proof.
  induction courses as [|c rest IH]; intros w; simpl; [done|].
  case_bool_decide; [apply IH|].
  destruct (IH {| all_courses := all_courses w ++ [c];
                  visited_dept_urls := visited_dept_urls w;
                  seen_courses := {[course_key c]} ∪ seen_courses w;
                  trace := trace w |}) as (? & ? & ?).
  done.
Qed.

(** The filter accepts only links that were not visited, and records
    nothing in the trace. *)
Lemma collect_department_links_unvisited links : forall valid w,
  let rw := collect_department_links links valid w in
  trace rw.2 = trace w /\
  visited_dept_urls w ⊆ visited_dept_urls rw.2 /\
  exists valid', rw.1 = Return valid' /\
    forall x, x ∈ valid' -> x ∈ valid \/ x ∉ visited_dept_urls w.
Proof.
  induction links as [|l rest IH]; intros valid w; simpl.
  { split; [done|]. split; [done|]. exists valid. split; [done|]. auto. }
  destruct (_ && negb (bool_decide _)) eqn:Hcond; [|by apply IH].
  apply andb_true_iff in Hcond as [_ Hnv].
  apply negb_true_iff, bool_decide_eq_false in Hnv.
  set (w1 := {| all_courses := _ |}).
  destruct (IH (valid ++ [href l]) w1) as (Ht & Hv & valid' & Hr & Hx).
  split; [done|]. split; [set_solver|].
  exists valid'. split; [done|]. intros x Hin.
  destruct (Hx x Hin) as [[?| ->%list_elem_of_singleton]%elem_of_app|Hnot].
  - by left.
  - by right.
  - right. set_solver.
Qed.

Section Program.
Variable catalog_page : Z -> outcome (list link).
Variable department : string -> dept_session.

Lemma extract_department_courses_result dept_url w :
  (extract_department_courses department dept_url w).1 =
  if department_ok department dept_url
  then Return (dept_courses (department dept_url)) else Raise OtherError.
Proof.
  unfold extract_department_courses, department_ok, bind, emit. simpl.
  destruct (dept_starts _); simpl; [|done].
  by destruct (dept_quits _).
Qed.

(** The loop over the departments of a page extracts some of them, in
    order, and nothing else is recorded. *)
Lemma visit_departments_trace valid : forall w,
  let w' := (visit_departments department valid w).2 in
  visited_dept_urls w' = visited_dept_urls w /\
  exists d, trace w' = trace w ++ (EvDepartment <$> d) /\
            forall x, x ∈ d -> x ∈ valid.
Proof.
  induction valid as [|u rest IH]; intros w; simpl.
  { split; [done|]. exists []. rewrite app_nil_r. split; [done|].
    intros x Hx. by apply elem_of_nil in Hx. }
  cbv zeta. unfold bind.
  destruct (KauaiFacts.extract_department_courses_trace department u w)
    as (Ht & _ & _ & Hv).
  destruct (extract_department_courses department u w) as [r w1].
  simpl in Ht, Hv.
  destruct r as [courses|e]; simpl.
  2: { split; [done|]. exists [u]. split; [done|]. set_solver. }
  destruct (add_courses_quiet courses w1) as (Hr & Ht2 & Hv2).
  destruct (add_courses courses w1) as [r2 w2]. simpl in *. subst r2.
  destruct (IH w2) as (Hv3 & d & Ht3 & Hd).
  split; [congruence|]. exists (u :: d). split.
  - rewrite Ht3, Ht2, Ht, <- app_assoc. done.
  - intros x [->|Hx]%elem_of_cons; [left|right; auto].
Qed.

(** The loop stops at the first department whose extraction raises. *)
Lemma visit_departments_stops u post pre : forall w,
  Forall (fun v => department_ok department v = true) pre ->
  department_ok department u = false ->
  let w' := (visit_departments department (pre ++ u :: post) w).2 in
  trace w' = trace w ++ (EvDepartment <$> pre ++ [u]) /\
  visited_dept_urls w' = visited_dept_urls w.
Proof.
  induction pre as [|a pre IH]; intros w Hpre Hu; simpl.
  - cbv zeta. unfold bind.
    destruct (KauaiFacts.extract_department_courses_trace department u w)
      as (Ht & _ & _ & Hv).
    pose proof (extract_department_courses_result u w) as Hres.
    rewrite Hu in Hres.
    destruct (extract_department_courses department u w) as [r w1].
    simpl in *. subst r. done.
  - apply Forall_cons in Hpre as [Ha Hpre].
    cbv zeta. unfold bind.
    destruct (KauaiFacts.extract_department_courses_trace department a w)
      as (Ht & _ & _ & Hv).
    pose proof (extract_department_courses_result a w) as Hres.
    rewrite Ha in Hres.
    destruct (extract_department_courses department a w) as [r w1].
    simpl in Ht, Hv, Hres. subst r.
    destruct (add_courses_quiet (dept_courses (department a)) w1)
      as (Hr & Ht2 & Hv2).
    destruct (add_courses _ w1) as [r2 w2]. simpl in *. subst r2.
    destruct (IH w2 Hpre Hu) as (Ht3 & Hv3).
    split; [|congruence].
    rewrite Ht3, Ht2, Ht, <- app_assoc. done.
Qed.

(** A catalog page extracts departments that were not visited before it,
    and records nothing else. *)
Lemma process_catalog_page_trace page_num w :
  let w' := (process_catalog_page catalog_page department page_num w).2 in
  visited_dept_urls w ⊆ visited_dept_urls w' /\
  exists d, trace w' = trace w ++ (EvDepartment <$> d) /\
            forall x, x ∈ d -> x ∉ visited_dept_urls w.
Proof.
  unfold process_catalog_page, try_except, bind, lift.
  destruct (catalog_page page_num) as [links|e].
  2: { split; [done|]. exists []. simpl. rewrite app_nil_r. split; [done|].
       intros x Hx. by apply elem_of_nil in Hx. }
  destruct (collect_department_links_unvisited links [] w)
    as (Ht & Hv & valid & Hr & Hx).
  destruct (collect_department_links links [] w) as [r w1]. simpl in *.
  subst r.
  destruct (visit_departments_trace valid w1) as (Hv2 & d & Ht2 & Hd).
  destruct (visit_departments department valid w1) as [[[]|e] w2];
    simpl in *.
  - split; [set_solver|]. exists d. split; [congruence|].
    intros x Hin. destruct (Hx x (Hd x Hin)) as [Hnil|?]; [|done].
    by apply elem_of_nil in Hnil.
  - split; [set_solver|]. exists d. split; [congruence|].
    intros x Hin. destruct (Hx x (Hd x Hin)) as [Hnil|?]; [|done].
    by apply elem_of_nil in Hnil.
Qed.

Lemma page_loop_trace pages : forall w,
  let w' := (page_loop catalog_page department pages w).2 in
  visited_dept_urls w ⊆ visited_dept_urls w' /\
  exists d, trace w' = trace w ++ (EvDepartment <$> d) /\
            forall x, x ∈ d -> x ∉ visited_dept_urls w.
Proof.
  induction pages as [|p rest IH]; intros w; simpl.
  { split; [done|]. exists []. rewrite app_nil_r. split; [done|].
    intros x Hx. by apply elem_of_nil in Hx. }
  unfold bind.
  destruct (process_catalog_page_trace p w) as (Hv & d & Ht & Hd).
  destruct (process_catalog_page catalog_page department p w) as [[[]|e] w1];
    simpl in *.
  - destruct (IH w1) as (Hv2 & d2 & Ht2 & Hd2).
    split; [set_solver|]. exists (d ++ d2). split.
    + by rewrite Ht2, Ht, fmap_app, app_assoc.
    + intros x [?|?]%elem_of_app; [auto|]. set_solver.
  - split; [done|]. by exists d.
Qed.
End Program.

(** X12. A run of the Kauai [crawl_courses] whose catalog browser does not
    start raises with nothing done. Every other run extracts departments,
    each at most once, and then saves the record list once, as its last
    step: there is no save before the end. The run returns normally
    exactly when the catalog browser also quits. *)
Theorem kauai_saves_once_at_the_end
    (catalog_page : Z -> outcome (list link))
    (department : string -> dept_session) (write_ok : bool)
    (driver_starts driver_quits : bool) (output_file : string)
    (start_page end_page : Z) :
  let rw := crawl_courses catalog_page department write_ok driver_starts
              driver_quits output_file start_page end_page initial_world in
  if driver_starts then
    (rw.1 = Return () <-> driver_quits = true) /\
    exists d, NoDup d /\
      trace rw.2 =
        (EvDepartment <$> d) ++
        [EvSave output_file (all_courses rw.2) write_ok]
  else rw = (Raise OtherError, initial_world).
Proof.
  unfold crawl_courses. destruct driver_starts; [|done].
  change (negb true) with false. cbv beta iota. unfold bind.
  set (pages := seqZ start_page (end_page + 1 - start_page)).
  destruct (KauaiFacts.page_loop_invariant catalog_page department pages
              initial_world KauaiFacts.invariant_initial) as [Hinv Hr].
  destruct (page_loop_trace catalog_page department pages initial_world)
    as (_ & d & Ht & _).
  destruct (page_loop catalog_page department pages initial_world) as [r w1].
  simpl in Hr, Ht, Hinv. subst r.
  assert (NoDup d) as Hnd.
  { destruct Hinv as [_ _ Ho _ _]. rewrite Ht in Ho.
    by rewrite departments_fmap in Ho. }
  destruct driver_quits; simpl.
  - split; [done|]. exists d. split; [done|]. by rewrite Ht.
  - split; [split; intros; discriminate|]. exists d. split; [done|].
    by rewrite Ht.
Qed.

(** X13. A department whose extraction raises ends the work on its catalog
    page: the departments accepted after it on that page are not extracted,
    they stay marked as visited, and no later catalog page of the run
    extracts them. *)
Theorem failed_department_skips_rest
    (catalog_page : Z -> outcome (list link))
    (department : string -> dept_session)
    (page_num : Z) (links : list link) (w w1 : world)
    (pre : list string) (u : string) (post : list string) (later : list Z) :
  invariant w ->
  catalog_page page_num = Return links ->
  collect_department_links links [] w = (Return (pre ++ u :: post), w1) ->
  Forall (fun v => department_ok department v = true) pre ->
  department_ok department u = false ->
  let w2 := (process_catalog_page catalog_page department page_num w).2 in
  let w3 := (page_loop catalog_page department later w2).2 in
  departments (trace w2) = departments (trace w) ++ pre ++ [u] /\
  forall v, v ∈ post ->
    v ∈ visited_dept_urls w3 /\ v ∉ departments (trace w3).
Proof.
  intros Hinv Hcat Hcol Hpre Hu.
  assert (pending [] w) as Hp0.
  { split; [constructor|]. intros x Hx. by apply elem_of_nil in Hx. }
  destruct (KauaiFacts.collect_department_links_pending department links [] w
              Hinv Hp0)
    as (_ & valid & Hr & [Hnd Hpend]).
  destruct (collect_department_links_unvisited links [] w) as (Ht & _ & _).
  rewrite Hcol in Hr, Hpend, Ht. simpl in Hr, Hpend, Ht.
  injection Hr as <-.
  destruct (visit_departments_stops department u post pre w1 Hpre Hu)
    as (Ht2 & Hv2).
  assert ((process_catalog_page catalog_page department page_num w).2 =
          (visit_departments department (pre ++ u :: post) w1).2) as Hw2.
  { unfold process_catalog_page, try_except, bind, lift.
    rewrite Hcat, Hcol.
    by destruct (visit_departments department (pre ++ u :: post) w1)
      as [[[]|e] w2]. }
  cbv zeta. rewrite Hw2.
  set (w2 := (visit_departments department (pre ++ u :: post) w1).2) in *.
  split.
  { rewrite Ht2, Ht, KauaiFacts.departments_app. by rewrite departments_fmap. }
  intros v Hv.
  destruct (Hpend v) as [Hvis Hnot]; [set_solver|].
  destruct (page_loop_trace catalog_page department later w2)
    as (Hsub & d & Ht3 & Hd).
  split; [apply Hsub; by rewrite Hv2|].
  rewrite Ht3, Ht2, !KauaiFacts.departments_app, !departments_fmap.
  intros [[Hin|Hin]%elem_of_app|Hin]%elem_of_app.
  - by apply Hnot.
  - apply NoDup_app in Hnd as (_ & Hdisj & Hnd2).
    apply NoDup_cons in Hnd2 as [Hu2 _].
    apply elem_of_app in Hin as [Hin| ->%list_elem_of_singleton].
    + apply (Hdisj v Hin). by right.
    + done.
  - apply (Hd v Hin). by rewrite Hv2.
Qed.

Lemma failed_department_skips_rest_witness :
  departments
    (trace (process_catalog_page KauaiScenario.catalog_three
              KauaiScenario.department_art_fails 0 initial_world).2) =
    ["/accounting-acc"; "/art-art"] /\
  "/biology-biol" ∉
    departments
      (trace (page_loop KauaiScenario.catalog_three
                KauaiScenario.department_art_fails [1%Z; 2%Z]
                (process_catalog_page KauaiScenario.catalog_three
                   KauaiScenario.department_art_fails 0 initial_world).2).2).
Proof.
  pose proof (failed_department_skips_rest KauaiScenario.catalog_three
                KauaiScenario.department_art_fails 0
                [KauaiScenario.accounting; KauaiScenario.art;
                 KauaiScenario.biology]
                initial_world
                (collect_department_links
                   [KauaiScenario.accounting; KauaiScenario.art;
                    KauaiScenario.biology] [] initial_world).2
                ["/accounting-acc"] "/art-art" ["/biology-biol"] [1%Z; 2%Z]
                KauaiFacts.invariant_initial eq_refl eq_refl
                ltac:(by repeat constructor) eq_refl) as [H1 H2].
  split; [exact H1|].
  exact (proj2 (H2 "/biology-biol" ltac:(by left))).
Defined.

End KauaiRunFacts.

(** ** The Manoa crawler: saves and resubmissions *)

Module ManoaRunFacts.
Import Py Eff Manoa ManoaSpec.

Lemma saved_writes_app tr1 tr2 : saved (tr1 ++ tr2) = saved tr1 ++ saved tr2.
Proof. apply omap_app. Qed.

Lemma saved_logs entries : saved (EvLog <$> entries) = [].
Proof. by induction entries. Qed.

Lemma growing_to_nil final : growing_to [] final.
Proof. intros i j di dj _ Hi. by rewrite lookup_nil in Hi. Qed.

(** Saving the current list keeps the saves growing. *)
Lemma growing_to_save datas final :
  growing_to datas final -> growing_to (datas ++ [final]) final.
Proof.
  intros H i j di dj Hij Hi Hj.
  apply lookup_app_Some in Hj as [Hj|[Hlen Hj]].
  - assert (i < length datas) as Hlt
      by (apply lookup_lt_Some in Hj; lia).
    rewrite lookup_app_l in Hi by done. by apply (H i j).
  - apply list_lookup_singleton_Some in Hj as [_ <-].
    split; [|done].
    apply lookup_app_Some in Hi as [Hi|[_ Hi]].
    + by apply (H i i di di).
    + by apply list_lookup_singleton_Some in Hi as [_ <-].
Qed.

(** Appending a record to the list keeps the saves growing. *)
Lemma growing_to_append datas final c :
  growing_to datas final -> growing_to datas (final ++ [c]).
Proof.
  intros H i j di dj Hij Hi Hj. destruct (H i j di dj Hij Hi Hj) as [? ?].
  split; [done|]. by apply prefix_app_r.
Qed.

(** What holds of the world between any two steps of [crawl_courses]. *)
Abbreviation saves_grow w := (growing_to (saved (trace w)) (all_extracted w)).
Abbreviation keeps c := (forall w, saves_grow w -> saves_grow (c w).2)
  (only parsing).

Lemma keeps_ret {A} (a : A) : keeps (ret a).
Proof. done. Qed.

Lemma keeps_bind {A B} (c : M world A) (k : A -> M world B) :
  keeps c -> (forall a, keeps (k a)) -> keeps (bind c k).
Proof.
  intros Hc Hk w Hw. unfold bind. specialize (Hc w Hw).
  destruct (c w) as [[a|e] w1]; simpl in *; [by apply Hk|done].
Qed.

Lemma keeps_try {A} (c : M world A) (h : exn -> M world A) :
  keeps c -> (forall e, keeps (h e)) -> keeps (try_except c h).
Proof.
  intros Hc Hh w Hw. unfold try_except. specialize (Hc w Hw).
  destruct (c w) as [[a|e] w1]; simpl in *; [done|by apply Hh].
Qed.

Lemma keeps_log entry : keeps (log entry).
Proof.
  intros w Hw. simpl. rewrite saved_writes_app. simpl. by rewrite app_nil_r.
Qed.

Lemma keeps_submit page_num u : keeps (emit (EvSubmit page_num u)).
Proof.
  intros w Hw. simpl. rewrite saved_writes_app. simpl. by rewrite app_nil_r.
Qed.

Lemma keeps_append_extracted c : keeps (append_extracted c).
Proof. intros w Hw. simpl. by apply growing_to_append. Qed.

Section Program.
Variable catalog_page : Z -> outcome (list (option string)).
Variable render : Z -> string -> session.
Variable completion_order : Z -> list string -> list string.
Variable write_ok : nat -> bool.
Variables (base_course_url_prefix output_file : string) (batch_size : Z).

Lemma keeps_save_to_json : keeps (save_to_json write_ok output_file).
Proof.
  intros w Hw. simpl. rewrite saved_writes_app. simpl. by apply growing_to_save.
Qed.

Lemma keeps_future_result page_num u : keeps (future_result render page_num u).
Proof.
  intros w Hw. unfold future_result.
  destruct (extract_single_course _ _) as [r printed]. simpl.
  by rewrite saved_writes_app, saved_logs, app_nil_r.
Qed.

Lemma keeps_collect_futures page_num n_urls order : forall completed batch,
  keeps (collect_futures render write_ok output_file batch_size page_num
           n_urls order completed batch).
Proof.
  induction order as [|u rest IH]; intros completed batch; simpl.
  { done. }
  apply keeps_bind; [done|]. intros _.
  apply keeps_bind; [|intros b; apply IH].
  apply keeps_try.
  - apply keeps_bind; [apply keeps_future_result|]. intros parsed.
    apply keeps_bind.
    + destruct parsed as [c|].
      * apply keeps_bind; [apply keeps_log|]. intros _.
        apply keeps_bind; [apply keeps_append_extracted|]. intros _.
        done.
      * apply keeps_bind; [apply keeps_log|]. intros _. done.
    + intros b. apply keeps_bind; [done|]. intros _.
      destruct (_ || _); [|done].
      apply keeps_bind; [apply keeps_save_to_json|]. intros _.
      done.
  - intros e. apply keeps_bind; [apply keeps_log|]. intros _. done.
Qed.

Lemma keeps_submit_all page_num urls : keeps (submit_all page_num urls).
Proof.
  induction urls as [|u r IH]; simpl; [done|].
  apply keeps_bind; [apply keeps_submit|]. intros _. apply IH.
Qed.

Lemma keeps_process_catalog_page page_num :
  keeps (process_catalog_page catalog_page render completion_order write_ok
           base_course_url_prefix output_file batch_size page_num).
Proof.
  unfold process_catalog_page.
  destruct (catalog_page page_num) as [hrefs|e]; [|apply keeps_log].
  intros w Hw.
  destruct (elements _) as [|u0 urls0] eqn:Hel; [done|].
  revert w Hw Hel. intros w Hw _.
  apply keeps_bind; [apply keeps_submit_all| |done].
  intros _. apply keeps_collect_futures.
Qed.

Lemma keeps_page_loop pages :
  keeps (page_loop catalog_page render completion_order write_ok
           base_course_url_prefix output_file batch_size pages).
Proof.
  induction pages as [|p rest IH]; simpl; [done|].
  apply keeps_bind; [apply keeps_process_catalog_page|]. intros _. apply IH.
Qed.
End Program.

(** X14. In a run of the Manoa [crawl_courses] the saved record list only
    grows: what a save writes is a prefix of what every later save writes
    and of the result list at the end, so no save takes a record away or
    moves one, whatever the workers do and in whatever order they
    complete. *)
Theorem manoa_saves_only_grow
    (catalog_page : Z -> outcome (list (option string)))
    (render : Z -> string -> session)
    (completion_order : Z -> list string -> list string)
    (write_ok : nat -> bool) (driver_starts driver_quits : bool)
    (base_course_url_prefix output_file : string)
    (start_page end_page batch_size : Z) :
  let rw := crawl_courses catalog_page render completion_order write_ok
              driver_starts driver_quits base_course_url_prefix output_file
              start_page end_page batch_size initial_world in
  growing_to (saved (trace rw.2)) (all_extracted rw.2).
Proof.
  unfold crawl_courses.
  assert (saves_grow initial_world) as H0 by apply growing_to_nil.
  destruct driver_starts; [|done].
  change (negb true) with false. cbv beta iota zeta.
  revert H0. generalize initial_world.
  apply keeps_bind; [apply keeps_page_loop|]. intros _.
  apply keeps_bind; [by destruct driver_quits|]. intros _.
  apply keeps_save_to_json.
Qed.

(** *** Which URLs are submitted again *)

(** Every submitted unit whose worker did not raise has its URL in the
    visited set, and a URL is submitted again only after a unit whose
    worker raised. *)
Abbreviation settled render w :=
  ((forall p u, (p, u) ∈ submitted (trace w) ->
      ~ worker_raises render (p, u) -> u ∈ visited_courses w) /\
   (forall i j p q u, i < j ->
      submitted (trace w) !! i = Some (p, u) ->
      submitted (trace w) !! j = Some (q, u) ->
      worker_raises render (p, u))).

Section Resubmission.
Variable catalog_page : Z -> outcome (list (option string)).
Variable render : Z -> string -> session.
Variable completion_order : Z -> list string -> list string.
Variable write_ok : nat -> bool.
Variables (base_course_url_prefix output_file : string) (batch_size : Z).

Hypothesis completion_is_permutation :
  forall page_num urls, completion_order page_num urls ≡ₚ urls.

(** Collecting one future marks its URL as visited unless the worker
    raised. *)
Lemma collect_one_marks page_num n_urls course_url rest completed batch w :
  exists w1 batch1 tr1,
    collect_futures render write_ok output_file batch_size page_num n_urls
      (course_url :: rest) completed batch w =
    collect_futures render write_ok output_file batch_size page_num n_urls
      rest (S completed) batch1 w1 /\
    trace w1 = trace w ++ tr1 /\ submitted tr1 = [] /\
    visited_courses w ⊆ visited_courses w1 /\
    (~ worker_raises render (page_num, course_url) ->
     course_url ∈ visited_courses w1).
Proof.
  unfold worker_raises. simpl.
  unfold bind at 1, count_total. unfold bind at 1, try_except.
  unfold bind at 1, future_result.
  destruct (extract_single_course (render page_num course_url) course_url)
    as [[[c|]|e] printed]; simpl.
  - unfold bind, log, emit, append_extracted, add_visited, save_to_json, ret.
    simpl. destruct (_ || _); simpl;
      eexists _, _, _; (split; [reflexivity|]); simpl;
      (split; [by rewrite <- !app_assoc|]);
      (split; [rewrite !ManoaFacts.submitted_app, ManoaFacts.submitted_logs;
               reflexivity|]);
      (split; [set_solver|set_solver]).
  - unfold bind, log, emit, append_extracted, add_visited, save_to_json, ret.
    simpl. destruct (_ || _); simpl;
      eexists _, _, _; (split; [reflexivity|]); simpl;
      (split; [by rewrite <- !app_assoc|]);
      (split; [rewrite !ManoaFacts.submitted_app, ManoaFacts.submitted_logs;
               reflexivity|]);
      (split; [set_solver|set_solver]).
  - unfold bind, log, emit, ret. simpl.
    eexists _, _, _; (split; [reflexivity|]); simpl.
    split; [by rewrite <- !app_assoc|].
    split; [rewrite !ManoaFacts.submitted_app, ManoaFacts.submitted_logs;
            reflexivity|].
    split; [set_solver|]. intros H. by destruct H.
Qed.

Lemma collect_futures_marks page_num n_urls order : forall completed batch w,
  let rw := collect_futures render write_ok output_file batch_size page_num
              n_urls order completed batch w in
  visited_courses w ⊆ visited_courses rw.2 /\
  (exists tr, trace rw.2 = trace w ++ tr /\ submitted tr = []) /\
  forall u, u ∈ order -> ~ worker_raises render (page_num, u) ->
    u ∈ visited_courses rw.2.
Proof.
  induction order as [|u rest IH]; intros completed batch w.
  { simpl. split; [done|]. split.
    - exists []. by rewrite app_nil_r.
    - intros u Hu. by apply elem_of_nil in Hu. }
  destruct (collect_one_marks page_num n_urls u rest completed batch w)
    as (w1 & batch1 & tr1 & -> & Ht & Hs & Hv & Hm).
  destruct (IH (S completed) batch1 w1) as (Hv2 & (tr2 & Ht2 & Hs2) & Hm2).
  split; [set_solver|]. split.
  - exists (tr1 ++ tr2). split; [by rewrite Ht2, Ht, app_assoc|].
    by rewrite ManoaFacts.submitted_app, Hs, Hs2.
  - intros x [->|Hx]%elem_of_cons Hnr; [|by apply Hm2].
    apply Hv2. by apply Hm.
Qed.

(** One catalog page: the URLs it submits are distinct and were not
    visited; those whose worker does not raise are visited afterwards. *)
Lemma process_catalog_page_marks page_num w :
  let rw := process_catalog_page catalog_page render completion_order
              write_ok base_course_url_prefix output_file batch_size
              page_num w in
  exists urls,
    NoDup urls /\ (forall u, u ∈ urls -> u ∉ visited_courses w) /\
    submitted (trace rw.2) =
      submitted (trace w) ++ ((fun u => (page_num, u)) <$> urls) /\
    visited_courses w ⊆ visited_courses rw.2 /\
    forall u, u ∈ urls -> ~ worker_raises render (page_num, u) ->
      u ∈ visited_courses rw.2.
Proof.
  unfold process_catalog_page.
  destruct (catalog_page page_num) as [hrefs|e].
  2: { exists []. simpl. rewrite ManoaFacts.submitted_app. simpl.
       repeat split; try done; try constructor.
       all: intros u Hu; by apply elem_of_nil in Hu. }
  set (links := new_course_links base_course_url_prefix (visited_courses w) hrefs).
  destruct (elements links) as [|u0 urls0] eqn:Hel.
  { exists []. simpl. rewrite app_nil_r.
    repeat split; try done; try constructor.
    all: intros u Hu; by apply elem_of_nil in Hu. }
  rewrite <- Hel. unfold bind. rewrite ManoaFacts.submit_all_spec.
  set (w0 := {| visited_courses := _ |}).
  destruct (collect_futures_marks page_num (length (elements links))
              (completion_order page_num (elements links)) 0 [] w0)
    as (Hv & (tr & Ht & Hs) & Hm).
  destruct (collect_futures _ _ _ _ _ _ _ _ _ w0) as [[[]|e] w2];
    simpl in Hv, Ht, Hm; simpl;
    (exists (elements links));
    (split; [apply NoDup_elements|]);
    (split; [intros u Hu%elem_of_elements;
             by eapply ManoaFacts.new_course_links_not_visited|]);
    (split; [|split]).
  - rewrite Ht. subst w0. simpl.
    rewrite !ManoaFacts.submitted_app, Hs, app_nil_r.
    by rewrite ManoaFacts.submitted_submit.
  - done.
  - intros u Hu Hnr. apply Hm; [|done].
    by rewrite completion_is_permutation.
  - rewrite Ht. subst w0. simpl.
    rewrite !ManoaFacts.submitted_app, Hs, app_nil_r.
    by rewrite ManoaFacts.submitted_submit.
  - done.
  - intros u Hu Hnr. apply Hm; [|done].
    by rewrite completion_is_permutation.
Qed.

Lemma process_catalog_page_settled page_num w :
  settled render w ->
  settled render
    (process_catalog_page catalog_page render completion_order write_ok
       base_course_url_prefix output_file batch_size page_num w).2.
Proof.
  intros [Hk Hr].
  destruct (process_catalog_page_marks page_num w)
    as (urls & Hnd & Hnv & Hs & Hv & Hm).
  set (w' := (process_catalog_page _ _ _ _ _ _ _ page_num w).2) in *.
  rewrite Hs. split.
  - intros p u [Hin|Hin]%elem_of_app Hnr.
    + apply Hv. by apply Hk with p.
    + apply list_elem_of_fmap in Hin as (u' & [= -> ->] & Hu').
      by apply Hm.
  - intros i j p q u Hij Hi Hj.
    apply lookup_app_Some in Hj as [Hj|[Hlen Hj]].
    + assert (i < length (submitted (trace w))) as Hlt
        by (apply lookup_lt_Some in Hj; lia).
      rewrite lookup_app_l in Hi by done. by apply (Hr i j p q u).
    + apply list_lookup_fmap_Some in Hj as (u' & [= -> ->] & Hj).
      apply lookup_app_Some in Hi as [Hi|[Hlen' Hi]].
      * assert (u' ∉ visited_courses w) as Hnot
          by (apply Hnv; by eapply list_elem_of_lookup_2).
        unfold worker_raises in *. simpl in *.
        destruct (extract_single_course (render p u') u').1 eqn:Hres;
          [|done].
        exfalso. apply Hnot. apply Hk with p.
        -- by eapply list_elem_of_lookup_2.
        -- simpl. rewrite Hres. tauto.
      * apply list_lookup_fmap_Some in Hi as (u'' & [= -> ->] & Hi).
        exfalso.
        pose proof (NoDup_lookup _ _ _ _ Hnd Hi Hj). lia.
Qed.

Lemma page_loop_settled pages : forall w,
  settled render w ->
  settled render
    (page_loop catalog_page render completion_order write_ok
       base_course_url_prefix output_file batch_size pages w).2.
Proof.
  induction pages as [|p rest IH]; intros w Hw; [done|].
  simpl. unfold bind.
  pose proof (process_catalog_page_settled p w Hw) as Hw1.
  destruct (process_catalog_page _ _ _ _ _ _ _ p w) as [[[]|e] w1];
    [by apply IH|done].
Qed.
End Resubmission.

(** X15. The converse of the resubmission of a failed unit: in every run of
    [crawl_courses], a URL is submitted a second time only if the worker
    of its earlier submission raised. A unit whose worker returned, with a
    record or with nothing, is never submitted again. *)
Theorem resubmitted_only_after_raise
    (catalog_page : Z -> outcome (list (option string)))
    (render : Z -> string -> session)
    (completion_order : Z -> list string -> list string)
    (write_ok : nat -> bool) (driver_starts driver_quits : bool)
    (base_course_url_prefix output_file : string)
    (start_page end_page batch_size : Z)
    (i j : nat) (p q : Z) (u : string) :
  (forall page_num urls, completion_order page_num urls ≡ₚ urls) ->
  let rw := crawl_courses catalog_page render completion_order write_ok
              driver_starts driver_quits base_course_url_prefix output_file
              start_page end_page batch_size initial_world in
  i < j ->
  submitted (trace rw.2) !! i = Some (p, u) ->
  submitted (trace rw.2) !! j = Some (q, u) ->
  worker_raises render (p, u).
Proof.
  intros Hperm rw. subst rw. unfold crawl_courses.
  destruct driver_starts;
    [|simpl; intros _ Hi; try rewrite lookup_nil in Hi; done].
  change (negb true) with false. unfold bind. cbv beta iota.
  assert (settled render initial_world) as H0.
  { split.
    - intros ? ? Hin. by apply elem_of_nil in Hin.
    - intros ? ? ? ? ? _ Hi. simpl in Hi. try rewrite lookup_nil in Hi.
      done. }
  pose proof (page_loop_settled catalog_page render completion_order write_ok
                base_course_url_prefix output_file batch_size Hperm
                (seqZ start_page (end_page + 1 - start_page)) initial_world H0)
    as [_ Hr].
  destruct (page_loop _ _ _ _ _ _ _ _ initial_world) as [[[]|e] w1];
    simpl in *.
  - destruct driver_quits; simpl.
    + rewrite ManoaFacts.submitted_app. simpl. rewrite app_nil_r. apply Hr.
    + apply Hr.
  - apply Hr.
Qed.

Lemma resubmitted_only_after_raise_witness :
  worker_raises ManoaScenario.render_browser_fails_once
    (0%Z, ManoaScenario.url1).
Proof.
  apply (resubmitted_only_after_raise ManoaScenario.catalog_same_url
           ManoaScenario.render_browser_fails_once (fun _ l => l)
           (fun _ => true) true true ManoaScenario.prefix "extracted.json"
           0 1 50 0 1 0%Z 1%Z ManoaScenario.url1
           (fun _ _ => reflexivity _)).
  - lia.
  - vm_compute. reflexivity.
  - vm_compute. reflexivity.
Defined.

(** Which links of a catalog page are taken as new course links. *)
Lemma new_course_links_spec
    (base_course_url_prefix : string) (visited : gset string)
    (hrefs : list (option string)) (h : string) :
  h ∈ new_course_links base_course_url_prefix visited hrefs <->
  Some h ∈ hrefs /\ h <> EmptyString /\
  startswith base_course_url_prefix h = true /\ h ∉ visited.
Proof.
  unfold new_course_links.
  assert (forall (acc : gset string),
    h ∈ foldl (fun current href =>
                 match href with
                 | Some h0 =>
                     if negb (String.eqb h0 EmptyString)
                        && startswith base_course_url_prefix h0
                        && negb (bool_decide (h0 ∈ visited))
                     then {[h0]} ∪ current else current
                 | None => current
                 end) acc hrefs <->
    h ∈ acc \/
    (Some h ∈ hrefs /\ h <> EmptyString /\
     startswith base_course_url_prefix h = true /\ h ∉ visited)) as Hgen.
  { induction hrefs as [|o r IH]; intros acc; simpl.
    { split; [auto|]. intros [?|[Hin _]]; [done|].
      by apply elem_of_nil in Hin. }
    rewrite IH. destruct o as [h0|].
    2: { split; (intros [?|(Hin & ?)]; [by left|right]).
         - split; [by right|done].
         - apply elem_of_cons in Hin as [[=]|?]. done. }
    destruct (_ && negb (bool_decide _)) eqn:Hc.
    - apply andb_true_iff in Hc as [Hc Hv].
      apply andb_true_iff in Hc as [Hne Hsw].
      apply negb_true_iff, bool_decide_eq_false in Hv.
      apply negb_true_iff, String.eqb_neq in Hne.
      rewrite elem_of_union, elem_of_singleton. split.
      + intros [[->|?]|(Hin & ?)]; [right|by left|right].
        * split; [by left|done].
        * split; [by right|done].
      + intros [?|(Hin & ?)]; [left; by right|].
        apply elem_of_cons in Hin as [[= ->]|?]; [left; by left|].
        by right.
    - split; (intros [?|(Hin & Hne & Hsw & Hv)]; [by left|right]).
      + split; [by right|done].
      + apply elem_of_cons in Hin as [[= ->]|?]; [|done].
        exfalso. apply andb_false_iff in Hc as [Hc|Hc].
        * apply andb_false_iff in Hc as [Hc|Hc]; [|congruence].
          apply negb_false_iff, String.eqb_eq in Hc. done.
        * apply negb_false_iff, bool_decide_eq_true in Hc. done. }
  rewrite Hgen. set_solver.
Qed.

(** X16. The links of a catalog page that are taken as new course links
    are exactly the [href] values that are present, not empty, start with
    the course URL prefix and are not in the visited set; a link listed
    several times is taken once. *)
Theorem new_course_links_exactly
    (base_course_url_prefix : string) (visited : gset string)
    (hrefs : list (option string)) (h : string) :
  h ∈ new_course_links base_course_url_prefix visited hrefs <->
  Some h ∈ hrefs /\ h <> EmptyString /\
  startswith base_course_url_prefix h = true /\ h ∉ visited.
Proof. apply new_course_links_spec. Qed.

End ManoaRunFacts.

(** ** The Manoa crawler: failures of single units *)

Module ManoaIsolation.
Import Py Eff Manoa ManoaSpec.

(** Every URL of the visited set was submitted as a unit whose worker did
    not raise. *)
Abbreviation visited_returned render w :=
  (forall u, u ∈ visited_courses w ->
     exists q, (q, u) ∈ submitted (trace w) /\ ~ worker_raises render (q, u)).

Section Program.
Variable catalog_page : Z -> outcome (list (option string)).
Variable render : Z -> string -> session.
Variable completion_order : Z -> list string -> list string.
Variable write_ok : nat -> bool.
Variables (base_course_url_prefix output_file : string) (batch_size : Z).

Hypothesis completion_is_permutation :
  forall page_num urls, completion_order page_num urls ≡ₚ urls.




End Program.




End ManoaIsolation.
